(** * Eggschange: supplier matching and landed-cost comparison

    A shallow embedding of the two core computations of
    [eggschange_mvp_app.py]:

    - [rank_suppliers_for_rfq], the supplier Matcher, and
    - the quote loop of the [/rfq/<id>/compare] branch of [App.do_GET],
      the Cost Normalizer,

    and of the code around them: [parse_line_items_json],
    [mock_extract_meta] with the RFQ row of [/rfq/create] and the line
    item of [cli_chat], the quote loop of the client share branch, the
    dispatch of [App.do_GET], and the helpers [mailto_link],
    [whatsapp_link] and [quote_csv].

    Python values are embedded as follows.  [str] is [string], the
    UTF-8 bytes of the text (the pound sign of the target pattern is its
    two bytes); [int] is [Z]; [float] is the primitive binary64 [float];
    a nullable column of an [sqlite3.Row] is an [option]; a [set] of
    strings is a [gset string]; an exception is the left injection of a
    sum.  The rows returned by [SELECT * FROM supplier] and by the quote
    queries are parameters of the embedded functions.

    The text functions [upper], [lower], [title] and [strip] of [Py]
    and the classes [\d], [\D] and [\s] of the embedded patterns act on
    the ASCII letters, digits and white space only: they are the
    library's on ASCII text.  Module [AnyText] embeds the Matcher with
    the library's text functions as parameters; the theorems on its
    filters, its coverage and its score are stated there and hold on
    every text.  A theorem that holds of the program on ASCII text only
    has this as a hypothesis. *)

From Stdlib Require Import ZArith Floats Ascii String Sorted Permutation Lia.
From stdpp Require Import base list gmap strings sorting.

Open Scope Z_scope.

Set Warnings "-inexact-float".

(** ** Python built-ins used by the program *)

Module Py.

(** *** Characters *)

Definition code (c : ascii) : N := N_of_ascii c.

Definition is_lower_c (c : ascii) : bool :=
  (97 <=? code c)%N && (code c <=? 122)%N.

Definition is_upper_c (c : ascii) : bool :=
  (65 <=? code c)%N && (code c <=? 90)%N.

Definition is_cased_c (c : ascii) : bool := is_lower_c c || is_upper_c c.

Definition is_digit_c (c : ascii) : bool :=
  (48 <=? code c)%N && (code c <=? 57)%N.

(** [str.isspace] on one ASCII character: TAB, LF, VT, FF, CR, the four
    separators FS, GS, RS, US, and the space. *)
Definition is_space_c (c : ascii) : bool :=
  ((9 <=? code c)%N && (code c <=? 13)%N)
  || ((28 <=? code c)%N && (code c <=? 32)%N).

Definition upper_c (c : ascii) : ascii :=
  if is_lower_c c then ascii_of_N (code c - 32) else c.

Definition lower_c (c : ascii) : ascii :=
  if is_upper_c c then ascii_of_N (code c + 32) else c.

Definition digit_val (c : ascii) : Z := Z.of_N (code c) - 48.

(** *** [str] methods *)

Fixpoint upper (s : string) : string :=
  match s with
  | EmptyString => EmptyString
  | String c r => String (upper_c c) (upper r)
  end.

Fixpoint lower (s : string) : string :=
  match s with
  | EmptyString => EmptyString
  | String c r => String (lower_c c) (lower r)
  end.

(** [str.title]: a letter is upper-cased when the character before it
    is not a letter and lower-cased otherwise. *)
Fixpoint title_go (prev_cased : bool) (s : string) : string :=
  match s with
  | EmptyString => EmptyString
  | String c r =>
      String (if prev_cased then lower_c c else upper_c c)
             (title_go (is_cased_c c) r)
  end.

Definition title (s : string) : string := title_go false s.

Fixpoint lstrip (s : string) : string :=
  match s with
  | EmptyString => EmptyString
  | String c r => if is_space_c c then lstrip r else s
  end.

Definition rstrip (s : string) : string :=
  String.rev (lstrip (String.rev s)).

Definition strip (s : string) : string := rstrip (lstrip s).

(** [s.split(sep)] for a one-character separator: never the empty
    list, [''.split(',')] is [['']]. *)
Fixpoint split (sep : ascii) (s : string) : list string :=
  match s with
  | EmptyString => [EmptyString]
  | String c r =>
      if Ascii.eqb c sep then EmptyString :: split sep r
      else match split sep r with
           | h :: t => String c h :: t
           | [] => [String c EmptyString]
           end
  end.

(** [s.replace(old, new)] for a one-character [old]. *)
Fixpoint replace (old : ascii) (new : string) (s : string) : string :=
  match s with
  | EmptyString => EmptyString
  | String c r =>
      if Ascii.eqb c old then new +:+ replace old new r
      else String c (replace old new r)
  end.

(** [t.startswith(p)] *)
Definition startswith (t p : string) : bool := String.prefix p t.

(** [sub in s] *)
Fixpoint contains (sub s : string) : bool :=
  String.prefix sub s
  || match s with
     | EmptyString => false
     | String _ r => contains sub r
     end.

(** Truth value of a [str]: non-empty. *)
Definition truthy (s : string) : bool :=
  match s with EmptyString => false | String _ _ => true end.

(** [x or ''] for a nullable text column. *)
Definition or_empty (o : option string) : string :=
  match o with Some s => s | None => EmptyString end.

(** The comprehension [[f(x.strip()) for x in s.split(",") if x.strip()]]
    that the program applies to every comma-separated column. *)
Definition csv_tokens (f : string -> string) (s : string) : list string :=
  f <$> filter (fun t => truthy t = true) (strip <$> split "," s).

(** *** Exceptions *)

Inductive exn : Set := IndexError | OverflowError.

Definition Exc (A : Type) : Type := exn + A.

Definition ret {A} (a : A) : Exc A := inr a.
Definition raise {A} (e : exn) : Exc A := inl e.
Definition bind {A B} (m : Exc A) (k : A -> Exc B) : Exc B :=
  match m with inl e => inl e | inr a => k a end.

Fixpoint mapM {A B} (f : A -> Exc B) (l : list A) : Exc (list B) :=
  match l with
  | [] => ret []
  | a :: r => bind (f a) (fun b => bind (mapM f r) (fun bs => ret (b :: bs)))
  end.

(** [l[i] if i < len(l) else d]: a negative index counts from the end
    and raises [IndexError] when it reaches before the first element. *)
Definition index_or {A} (l : list A) (i : Z) (d : A) : Exc A :=
  if i <? Z.of_nat (length l) then
    let j := if i <? 0 then i + Z.of_nat (length l) else i in
    if j <? 0 then raise IndexError
    else match l !! Z.to_nat j with
         | Some a => ret a
         | None => raise IndexError
         end
  else ret d.

(** *** Floats *)

(** The double nearest to [n / d] (ties to even), as [float(text)]
    returns it for a decimal numeral. *)
Definition float_of_ratio (n : Z) (d : positive) : float :=
  match n with
  | Z0 => 0%float
  | Zpos p =>
      SF2Prim (SFdiv prec emax (S754_finite false p 0) (S754_finite false d 0))
  | Zneg p =>
      SF2Prim (SFdiv prec emax (S754_finite true p 0) (S754_finite false d 0))
  end.

(** Conversion of an [int] operand of a float operation: correctly
    rounded, [OverflowError] when the integer is beyond the doubles. *)
Definition float_of_int (z : Z) : Exc float :=
  let f := SF2Prim (binary_normalize prec emax z 0 false) in
  if PrimFloat.is_infinity f then raise OverflowError else ret f.

(** [float(x or 0)] on a nullable REAL column: NULL and zero give [0.0]. *)
Definition float_or_zero (o : option float) : float :=
  match o with
  | Some x => if PrimFloat.is_zero x then 0%float else x
  | None => 0%float
  end.

Definition round_half_even (num den : Z) : Z :=
  let q := num / den in
  match (2 * (num mod den) ?= den) with
  | Lt => q
  | Gt => q + 1
  | Eq => if Z.even q then q else q + 1
  end.

(** [round(x, 4)]: the exact value of [x] is rounded half-even to four
    decimals and the decimal result converted back to the nearest
    double; zeros, infinities and NaN are returned unchanged. *)
Definition round4 (x : float) : float :=
  match Prim2SF x with
  | S754_finite s m e =>
      let num := Z.pos m * 10000 * 2 ^ Z.max e 0 in
      let den := 2 ^ Z.max (- e) 0 in
      let n := round_half_even num den in
      if n =? 0 then (if s then (-0)%float else 0%float)
      else float_of_ratio (if s then - n else n) 10000
  | _ => x
  end.

End Py.

Import Py.

(** ** [list.sort(key=...)]

    Python's sort is stable and compares keys with [<] only.  It is
    embedded as a stable insertion sort: every element is inserted
    after the elements that are not greater than it.  Whenever [<] is a
    strict weak order on the keys that occur, all stable sorts return
    this list; with a NaN among the keys [list.sort] may return another
    order of the same rows. *)

Section ListSort.
Context {A K : Type} (key : A -> K) (lt : K -> K -> bool).

Fixpoint insert_sorted (x : A) (l : list A) : list A :=
  match l with
  | [] => [x]
  | y :: r =>
      if lt (key x) (key y) then x :: y :: r else y :: insert_sorted x r
  end.

Definition sort_by (l : list A) : list A :=
  fold_left (fun acc x => insert_sorted x acc) l [].
End ListSort.

(** ** Records *)

(** One element of [parse_line_items_json]'s result. *)
Record LineItem : Type := {
  kind : string;
  size : string;
  pack : string;
  qty_week : Z;
  target_price : string
}.

(** The columns of an [rfq] row that the Matcher reads. *)
Record Rfq : Type := {
  rfq_id : Z;
  client_name : option string;
  postcodes : option string;
  welfare : option string;
  delivery_windows : option string
}.

(** The columns of a [supplier] row that the Matcher reads. *)
Record Supplier : Type := {
  supplier_id : Z;
  name : string;
  s_welfare : option string;
  sizes : option string;
  pack_formats : option string;
  moq_trays : option Z;
  delivery_days : option string;
  delivery_postcodes : option string;
  price_band_low : option float;
  price_band_high : option float
}.

(** [{**dict(s), "score": score}] *)
Record Ranked : Type := {
  supplier_row : Supplier;
  score : Z
}.

(** A row of the quote query of the compare branch
    ([SELECT q.*, s.name AS sname ...]). *)
Record Quote : Type := {
  sname : string;
  line_item_index : option Z;
  unit_price : option float;
  delivery_cost : option float;
  lead_time_days : option Z;
  hold_weeks : option Z;
  remarks : option string
}.

(** One comparison row. *)
Record Row : Type := {
  supplier : string;
  line_item_label : string;
  row_unit_price : float;
  row_delivery_cost : float;
  row_qty_week : Z;
  delivery_per_unit : float;
  landed_per_unit : float;
  row_lead_time_days : option Z;
  row_hold_weeks : option Z;
  row_remarks : option string
}.

(** ** The Matcher *)

Definition postcode_matches (supplier_prefixes : string)
    (rfq_postcodes : list string) : bool :=
  if negb (truthy supplier_prefixes) then false
  else
    let prefs := csv_tokens upper supplier_prefixes in
    existsb (fun rp => existsb (fun sp => startswith (upper rp) sp) prefs)
            rfq_postcodes.

(** The three values computed from the RFQ before the supplier loop. *)
Definition rfq_postcodes_of (rfq : Rfq) : list string :=
  csv_tokens upper (or_empty (postcodes rfq)).

Definition rfq_days_of (rfq : Rfq) : gset string :=
  list_to_set
    (csv_tokens title (replace "/" "," (or_empty (delivery_windows rfq)))).

Definition wanted_welfare_of (rfq : Rfq) : option string :=
  let w := strip (lower (or_empty (welfare rfq))) in
  if truthy w then Some w else None.

(** The three sets computed from a supplier row. *)
Definition sizes_of (s : Supplier) : gset string :=
  list_to_set (csv_tokens upper (or_empty (sizes s))).

Definition packs_of (s : Supplier) : gset string :=
  list_to_set (csv_tokens lower (or_empty (pack_formats s))).

Definition days_of (s : Supplier) : gset string :=
  list_to_set (csv_tokens title (or_empty (delivery_days s))).

(** One iteration of the coverage loop: the counter after item [it]. *)
Definition cover_step (s : Supplier) (n : Z) (it : LineItem) : Z :=
  if (bool_decide (upper (size it) ∈ sizes_of s)
      || String.eqb (upper (size it)) "MIXED")
     && bool_decide (lower (pack it) ∈ packs_of s)
  then
    let moq := default 0 (moq_trays s) in
    if String.eqb (lower (pack it)) "tray" && (moq >? qty_week it)
    then n
    else n + 1
  else n.

Definition can_cover_items (s : Supplier) (items : list LineItem) : Z :=
  fold_left (cover_step s) items 0.

(** *** Target price: [re.search(r"(\d+(?:\.\d{1,2})?)", text)] *)

Fixpoint span_digits (s : string) : string * string :=
  match s with
  | EmptyString => (EmptyString, EmptyString)
  | String c r =>
      if is_digit_c c then
        let '(d, rest) := span_digits r in (String c d, rest)
      else (EmptyString, s)
  end.

(** The text captured by the group: the digits before the point and the
    one or two digits after it (empty when the optional part is absent). *)
Record NumMatch : Type := { int_part : string; frac_part : string }.

Definition first2 (s : string) : string :=
  match s with
  | String a (String b _) => String a (String b EmptyString)
  | _ => s
  end.

(** The match that starts at a digit. *)
Definition match_number (s : string) : NumMatch :=
  let '(i, rest) := span_digits s in
  match rest with
  | String "."%char r => {| int_part := i; frac_part := first2 (fst (span_digits r)) |}
  | _ => {| int_part := i; frac_part := EmptyString |}
  end.

Fixpoint re_search_number (s : string) : option NumMatch :=
  match s with
  | EmptyString => None
  | String c r =>
      if is_digit_c c then Some (match_number s) else re_search_number r
  end.

Fixpoint digits_value (acc : Z) (s : string) : Z :=
  match s with
  | EmptyString => acc
  | String c r => digits_value (10 * acc + digit_val c) r
  end.

(** [float(m.group(1))] *)
Definition float_of_match (m : NumMatch) : float :=
  float_of_ratio
    (digits_value 0 (int_part m +:+ frac_part m))
    (Z.to_pos (10 ^ Z.of_nat (String.length (frac_part m)))).

(** The body of the target-price loop for one item: [Some t] when the
    loop breaks at this item with [t_price = t]. *)
Definition parse_target (it : LineItem) : option float :=
  if truthy (target_price it) then
    float_of_match <$> re_search_number (replace "," EmptyString (target_price it))
  else None.

Fixpoint t_price_of (items : list LineItem) : option float :=
  match items with
  | [] => None
  | it :: r =>
      match parse_target it with
      | Some t => Some t
      | None => t_price_of r
      end
  end.

Definition price_bonus (s : Supplier) (items : list LineItem) : Z :=
  match t_price_of items, price_band_low s, price_band_high s with
  | Some t, Some lo, Some hi =>
      if ((lo <=? t) && (t <=? hi))%float then 2 else 0
  | _, _, _ => 0
  end.

Definition overlap_of (rfq : Rfq) (s : Supplier) : Z :=
  if bool_decide (rfq_days_of rfq ≠ ∅)
  then Z.of_nat (base.size (rfq_days_of rfq ∩ days_of s))
  else 1.

(** [wanted_welfare and wanted_welfare not in (s['welfare'] or '').lower()] *)
Definition welfare_rejects (rfq : Rfq) (s : Supplier) : bool :=
  match wanted_welfare_of rfq with
  | Some w => negb (contains w (lower (or_empty (s_welfare s))))
  | None => false
  end.

(** The body of the supplier loop: [None] when an iteration ends in
    [continue], [Some r] when it appends [r] to [ranked]. *)
Definition rank_one (rfq : Rfq) (items : list LineItem) (s : Supplier)
    : option Ranked :=
  if negb (postcode_matches (or_empty (delivery_postcodes s)) (rfq_postcodes_of rfq))
  then None
  else if welfare_rejects rfq s then None
  else
    let n := can_cover_items s items in
    if n =? 0 then None
    else
      let score := 0 in
      let score := score + n * 10 in
      let score := score + overlap_of rfq s * 2 in
      let score := score + price_bonus s items in
      Some {| supplier_row := s; score := score |}.

Fixpoint rank_loop (rfq : Rfq) (items : list LineItem)
    (suppliers : list Supplier) (ranked : list Ranked) : list Ranked :=
  match suppliers with
  | [] => ranked
  | s :: rest =>
      match rank_one rfq items s with
      | None => rank_loop rfq items rest ranked
      | Some r => rank_loop rfq items rest (ranked ++ [r])
      end
  end.

(** The sort key [(-x["score"], x["name"])] and [<] on such tuples. *)
Definition rank_key (r : Ranked) : Z * string :=
  (- score r, name (supplier_row r)).

Definition key_lt (a b : Z * string) : bool :=
  if fst a =? fst b then String.ltb (snd a) (snd b) else fst a <? fst b.

(** [suppliers] is the result of [SELECT * FROM supplier]. *)
Definition rank_suppliers_for_rfq (rfq : Rfq) (items : list LineItem)
    (suppliers : list Supplier) : list Ranked :=
  let ranked := rank_loop rfq items suppliers [] in
  sort_by rank_key key_lt ranked.

(** ** The Cost Normalizer *)

(** The fallback of an index at or beyond the end of [items]. *)
Definition placeholder : LineItem :=
  {| kind := EmptyString; size := EmptyString; pack := EmptyString;
     qty_week := 0; target_price := EmptyString |}.

(** [del_per]: the int divisor is converted to a float first. *)
Definition del_per_of (q : Quote) (qty : Z) : Exc float :=
  if qty =? 0 then ret 0%float
  else
    bind (float_of_int qty) (fun fq =>
    ret (float_or_zero (delivery_cost q) / fq)%float).

Definition landed_of (q : Quote) (del_per : float) : float :=
  (float_or_zero (unit_price q) + del_per)%float.

(** One iteration of the quote loop. *)
Definition compare_row (items : list LineItem) (q : Quote) : Exc Row :=
  let idx := default 0 (line_item_index q) in
  bind (index_or items idx placeholder) (fun it =>
  let qty := qty_week it in
  bind (del_per_of q qty) (fun del_per =>
  let landed := landed_of q del_per in
  ret {| supplier := sname q;
         line_item_label := kind it +:+ " " +:+ size it +:+ " " +:+ pack it;
         row_unit_price := float_or_zero (unit_price q);
         row_delivery_cost := float_or_zero (delivery_cost q);
         row_qty_week := qty;
         delivery_per_unit := round4 del_per;
         landed_per_unit := round4 landed;
         row_lead_time_days := lead_time_days q;
         row_hold_weeks := hold_weeks q;
         row_remarks := remarks q |})).

(** The quote loop followed by [rows.sort(key=lambda x: x["landed_per_unit"])]. *)
Definition compare_rows (items : list LineItem) (quotes : list Quote)
    : Exc (list Row) :=
  bind (mapM (compare_row items) quotes) (fun rows =>
  ret (sort_by landed_per_unit PrimFloat.ltb rows)).


(** ** Vocabulary of the specification *)

(** [p] is a case-insensitive prefix of [t]. *)
Definition ci_prefix (p t : string) : Prop :=
  exists r, upper t = upper p +:+ r.

(** The entries of a comma-separated column: trimmed, blanks dropped. *)
Definition csv_entries (s : string) : list string :=
  csv_tokens (fun t => t) s.

(** A supplier's delivery-area prefixes and an RFQ's delivery-area codes. *)
Definition area_prefixes (s : Supplier) : list string :=
  csv_entries (or_empty (delivery_postcodes s)).

Definition area_codes (rfq : Rfq) : list string :=
  csv_entries (or_empty (postcodes rfq)).

(** The supplier appears in a ranked list. *)
Definition listed (s : Supplier) (out : list Ranked) : Prop :=
  exists r, r ∈ out /\ supplier_row r = s.

(** The first line item with a parseable target price has target [t]. *)
Definition first_target (items : list LineItem) (t : float) : Prop :=
  exists i it,
    items !! i = Some it /\ parse_target it = Some t
    /\ forall j it', (j < i)%nat -> items !! j = Some it' -> parse_target it' = None.

(** The order of the Matcher's output: higher score first, equal scores
    by name. *)
Definition rank_le (a b : Ranked) : Prop :=
  score b < score a
  \/ (score a = score b /\ String.le (name (supplier_row a)) (name (supplier_row b))).

(** A float that is a number. *)
Definition is_number (x : float) : Prop := PrimFloat.is_nan x = false.

(** [<=] on the sort keys of the Matcher. *)
Definition key_le (a b : Z * string) : Prop :=
  fst a < fst b \/ (fst a = fst b /\ String.le (snd a) (snd b)).

(** The supplier's price band contains [t]. *)
Definition in_price_band (s : Supplier) (t : float) : Prop :=
  exists lo hi,
    price_band_low s = Some lo /\ price_band_high s = Some hi
    /\ (lo <=? t)%float = true /\ (t <=? hi)%float = true.


(** ** Sample records *)

(** The end-to-end scenario: an RFQ for area BN1 without welfare
    requirement, one line item, and two suppliers. *)
Definition rfq_bn1 : Rfq :=
  {| rfq_id := 1; client_name := None; postcodes := Some "BN1";
     welfare := None; delivery_windows := None |}.

Definition item_l_tray : LineItem :=
  {| kind := "wholesale"; size := "L"; pack := "tray"; qty_week := 120;
     target_price := EmptyString |}.

Definition supplier_a : Supplier :=
  {| supplier_id := 1; name := "A"; s_welfare := Some "free-range";
     sizes := Some "L,XL"; pack_formats := Some "tray"; moq_trays := Some 40;
     delivery_days := None; delivery_postcodes := Some "BN";
     price_band_low := None; price_band_high := None |}.

Definition supplier_b : Supplier :=
  {| supplier_id := 2; name := "B"; s_welfare := Some "Organic, Lion";
     sizes := Some "L"; pack_formats := Some "tray"; moq_trays := None;
     delivery_days := None; delivery_postcodes := Some "RH";
     price_band_low := None; price_band_high := None |}.

(** The same RFQ asking for organic eggs, and one that names no area. *)
Definition rfq_organic : Rfq :=
  {| rfq_id := 2; client_name := None; postcodes := Some "bn1, rh12";
     welfare := Some "organic"; delivery_windows := Some "Tue/Fri" |}.

Definition rfq_no_area : Rfq :=
  {| rfq_id := 3; client_name := None; postcodes := None;
     welfare := None; delivery_windows := None |}.

(** A supplier that declares no delivery area. *)
Definition supplier_nowhere : Supplier :=
  {| supplier_id := 3; name := "C"; s_welfare := None;
     sizes := Some "L"; pack_formats := Some "tray"; moq_trays := None;
     delivery_days := None; delivery_postcodes := Some " , ";
     price_band_low := None; price_band_high := None |}.

(** A line item with a target price, and a supplier with a price band. *)
Definition item_priced : LineItem :=
  {| kind := "retail"; size := "mixed"; pack := "Tray"; qty_week := 40;
     target_price := "about 2.50 GBP" |}.

Definition supplier_banded : Supplier :=
  {| supplier_id := 4; name := "Orchard Eggs"; s_welfare := Some "free-range";
     sizes := Some "L,XL"; pack_formats := Some "tray,box"; moq_trays := Some 40;
     delivery_days := Some "Tue,Fri"; delivery_postcodes := Some "BN,BN1,RH";
     price_band_low := Some 2.125%float; price_band_high := Some 2.75%float |}.

(** Two suppliers that differ in name only. *)
Definition supplier_alpha : Supplier :=
  {| supplier_id := 5; name := "Alpha Farm"; s_welfare := None;
     sizes := Some "L"; pack_formats := Some "tray"; moq_trays := None;
     delivery_days := None; delivery_postcodes := Some "BN";
     price_band_low := None; price_band_high := None |}.

Definition supplier_beta : Supplier :=
  {| supplier_id := 6; name := "Beta Farm"; s_welfare := None;
     sizes := Some "L"; pack_formats := Some "tray"; moq_trays := None;
     delivery_days := None; delivery_postcodes := Some "BN";
     price_band_low := None; price_band_high := None |}.

(** A quote row for line item [idx] from supplier A. *)
Definition quote_for (idx : Z) (unit delivery : float) : Quote :=
  {| sname := "A"; line_item_index := Some idx;
     unit_price := Some unit; delivery_cost := Some delivery;
     lead_time_days := Some 2; hold_weeks := Some 4; remarks := None |}.

Definition item_40 : LineItem :=
  {| kind := "wholesale"; size := "L"; pack := "tray"; qty_week := 40;
     target_price := EmptyString |}.

(** Three quotes for the same line item and their comparison rows. *)
Definition sample_quotes : list Quote :=
  [quote_for 0 2.5 20; quote_for 0 2.75 2; quote_for 0 3.125 0].

Definition sample_rows : list Row :=
  Eval vm_compute in
    match compare_rows [item_40] sample_quotes with
    | inr rows => rows
    | inl _ => []
    end.

(** A line item whose weekly quantity is beyond the range of doubles. *)
Definition item_huge : LineItem :=
  {| kind := "wholesale"; size := "L"; pack := "tray"; qty_week := 2 ^ 1024;
     target_price := EmptyString |}.


(** ** Further vocabulary *)

(** Two line items that differ at most in kind and target price. *)
Definition same_order (a b : LineItem) : Prop :=
  size a = size b /\ pack a = pack b /\ qty_week a = qty_week b.

(** No later element of [l] has a key below the key of an earlier one. *)
Definition in_order {A K : Type} (key : A -> K) (lt : K -> K -> bool)
    (l : list A) : Prop :=
  forall i j a b, (i < j)%nat -> l !! i = Some a -> l !! j = Some b ->
    lt (key b) (key a) = false.

(** The line item of the end-to-end scenario with a target price. *)
Definition item_l_tray_priced : LineItem :=
  {| kind := "retail"; size := "L"; pack := "tray"; qty_week := 120;
     target_price := "£2.50 per tray" |}.

(** A line item for extra-large eggs. *)
Definition item_xl_tray : LineItem :=
  {| kind := "retail"; size := "XL"; pack := "tray"; qty_week := 60;
     target_price := EmptyString |}.

(** Three quotes in ascending landed cost, the last two at the same
    cost, and their rows in the same order. *)
Definition tied_quotes : list Quote :=
  [quote_for 0 2.75 2; quote_for 0 2.5 20; quote_for 0 3 0].

Definition tied_rows : list Row :=
  Eval vm_compute in
    match mapM (compare_row [item_40]) tied_quotes with
    | inr rows => rows
    | inl _ => []
    end.


(** ** Page helpers *)

(** *** [urllib.parse.quote_plus]

    The letters, the digits and [_.-~] are kept, a space becomes [+],
    and every other byte of the UTF-8 text becomes [%XX] in upper-case
    hexadecimal. *)

Definition always_safe_c (c : ascii) : bool :=
  is_lower_c c || is_upper_c c || is_digit_c c
  || Ascii.eqb c "_" || Ascii.eqb c "." || Ascii.eqb c "-" || Ascii.eqb c "~".

Definition hex_digit (n : N) : ascii :=
  if (n <? 10)%N then ascii_of_N (48 + n) else ascii_of_N (55 + n).

Fixpoint quote_plus (s : string) : string :=
  match s with
  | EmptyString => EmptyString
  | String c r =>
      if always_safe_c c then String c (quote_plus r)
      else if Ascii.eqb c " " then String "+" (quote_plus r)
      else String "%" (String (hex_digit (code c / 16))
                         (String (hex_digit (code c mod 16)) (quote_plus r)))
  end.

Definition mailto_link (email subject body : string) : string :=
  "mailto:" +:+ email +:+ "?subject=" +:+ quote_plus subject
    +:+ "&body=" +:+ quote_plus body.

(** [re.sub(r"\D+", '', s)] *)
Fixpoint digits_only (s : string) : string :=
  match s with
  | EmptyString => EmptyString
  | String c r => if is_digit_c c then String c (digits_only r) else digits_only r
  end.

(** [s[1:]] *)
Definition tail1 (s : string) : string :=
  match s with EmptyString => EmptyString | String _ r => r end.

(** The local [digits] of [whatsapp_link] when the link is built. *)
Definition whatsapp_digits (number : option string) : string :=
  let digits := digits_only (or_empty number) in
  if startswith digits "0" then "44" +:+ tail1 digits else digits.

Definition whatsapp_link (number : option string) (text : string) : string :=
  "https://wa.me/" +:+ whatsapp_digits number +:+ "?text=" +:+ quote_plus text.

(** *** [quote_csv] *)

Definition dquote : ascii := ascii_of_nat 34.
Definition newline : ascii := ascii_of_nat 10.

Definition quote_csv (s : string) : string :=
  if contains "," s || contains (String dquote EmptyString) s
     || contains (String newline EmptyString) s
  then
    String dquote EmptyString
      +:+ replace dquote (String dquote (String dquote EmptyString)) s
      +:+ String dquote EmptyString
  else s.

(** ** [mock_extract_meta] *)

Record Meta : Type := {
  meta_postcodes : list string;
  meta_welfare : option string;
  meta_delivery_windows : option string;
  meta_payment_terms : option string;
  meta_target_price : option string
}.

Definition postcode_tokens : list string :=
  ["bn1"; "bn2"; "bn"; "rh"; "po"; "se"; "sw"; "w1"; "ec"].

Definition day_names : list (string * string) :=
  [("mon", "Mon"); ("tue", "Tue"); ("wed", "Wed"); ("thu", "Thu");
   ("fri", "Fri"); ("sat", "Sat"); ("sun", "Sun")].

(** One iteration of the postcode loop. *)
Definition postcode_step (lower : string) (postcodes : list string)
    (token : string) : list string :=
  if contains token lower && negb (bool_decide (upper token ∈ postcodes))
  then postcodes ++ [upper token]
  else postcodes.

(** [[name for key, name in days.items() if key in lower]] *)
Definition found_days (lower : string) : list string :=
  flat_map (fun kn => if contains (fst kn) lower then [snd kn] else [])
           day_names.

(** [re.search(r"(\d{1,2})\s*day", s)]: the group of the match that
    starts at the head of [s].  After two digits the pattern cannot
    succeed with one, since the second digit is neither blank nor [d]. *)
Definition match_days_at (s : string) : option string :=
  match s with
  | String a r =>
      if is_digit_c a then
        let '(d, rest) :=
          match r with
          | String b r' =>
              if is_digit_c b then (String a (String b EmptyString), r')
              else (String a EmptyString, r)
          | EmptyString => (String a EmptyString, r)
          end in
        if String.prefix "day" (lstrip rest) then Some d else None
      else None
  | EmptyString => None
  end.

Fixpoint re_search_days (s : string) : option string :=
  match match_days_at s with
  | Some d => Some d
  | None =>
      match s with
      | String _ r => re_search_days r
      | EmptyString => None
      end
  end.

(** [s] without the prefix [p], when it has it. *)
Fixpoint strip_prefix (p s : string) : option string :=
  match p, s with
  | EmptyString, _ => Some s
  | String a p', String b s' => if Ascii.eqb a b then strip_prefix p' s' else None
  | String _ _, EmptyString => None
  end.

(** The text of [m.group(1)] for the number pattern. *)
Definition match_text (m : NumMatch) : string :=
  int_part m
    +:+ (if truthy (frac_part m) then "." +:+ frac_part m else EmptyString).

(** [re.search(r"£\s*(\d+(?:\.\d{1,2})?)", s)]: the match that starts
    at the head of [s]; the pound sign is its two UTF-8 bytes. *)
Definition match_gbp_at (s : string) : option NumMatch :=
  match strip_prefix "£" s with
  | Some r =>
      match lstrip r with
      | String c t => if is_digit_c c then Some (match_number (String c t)) else None
      | EmptyString => None
      end
  | None => None
  end.

Fixpoint re_search_gbp (s : string) : option NumMatch :=
  match match_gbp_at s with
  | Some m => Some m
  | None =>
      match s with
      | String _ r => re_search_gbp r
      | EmptyString => None
      end
  end.

Definition mock_extract_meta (text : string) : Meta :=
  let lower := lower text in
  let postcodes := fold_left (postcode_step lower) postcode_tokens [] in
  let welfare :=
    if contains "organic" lower then Some "organic"
    else if contains "free-range" lower || contains "free range" lower
         then Some "free-range" else None in
  let found := found_days lower in
  let delivery :=
    if contains "tue" lower && contains "fri" lower then Some "Tue/Fri"
    else match found with
         | [] => None
         | _ :: _ => Some (String.concat "/" (take 2 found))
         end in
  let terms := (fun d => d +:+ " days") <$> re_search_days lower in
  let target := (fun m => "£" +:+ match_text m) <$> re_search_gbp text in
  {| meta_postcodes := postcodes;
     meta_welfare := welfare;
     meta_delivery_windows := delivery;
     meta_payment_terms := terms;
     meta_target_price := target |}.

(** The [rfq] row that the [/rfq/create] branch of [do_POST] inserts for
    a request with the strings [client_name] and [meta_text], as a later
    [SELECT] returns it; [rfq_id] is [cur.lastrowid]. *)
Definition created_rfq (rfq_id : Z) (client_name meta_text : string) : Rfq :=
  let meta_fields := mock_extract_meta meta_text in
  {| rfq_id := rfq_id;
     client_name := Some (strip client_name);
     postcodes := Some (String.concat "," (meta_postcodes meta_fields));
     welfare := meta_welfare meta_fields;
     delivery_windows := meta_delivery_windows meta_fields |}.

(** The one line item that [cli_chat] builds. *)
Definition cli_item (text : string) : LineItem :=
  let meta := mock_extract_meta text in
  {| kind := "wholesale"; size := "L"; pack := "tray"; qty_week := 120;
     target_price := or_empty (meta_target_price meta) |}.

(** ** The client share page *)

(** A row of the quote query of the share branch: the columns of the
    compare query and [s.story_pdf_url AS story]. *)
Record ShareQuote : Type := {
  share_quote : Quote;
  story : option string
}.

Record ShareRow : Type := {
  share_supplier : string;
  share_line_item_label : string;
  share_unit_price : float;
  share_delivery_cost : float;
  share_landed_per_unit : float;
  story_pdf_url : string
}.

(** One iteration of the quote loop of the share branch. *)
Definition share_row (items : list LineItem) (sq : ShareQuote) : Exc ShareRow :=
  let q := share_quote sq in
  let idx := default 0 (line_item_index q) in
  bind (index_or items idx placeholder) (fun it =>
  let qty := qty_week it in
  bind (del_per_of q qty) (fun del_per =>
  let landed := landed_of q del_per in
  ret {| share_supplier := sname q;
         share_line_item_label := kind it +:+ " " +:+ size it +:+ " " +:+ pack it;
         share_unit_price := float_or_zero (unit_price q);
         share_delivery_cost := float_or_zero (delivery_cost q);
         share_landed_per_unit := round4 landed;
         story_pdf_url :=
           if truthy (or_empty (story sq)) then or_empty (story sq) else "#" |})).

Definition share_rows (items : list LineItem) (quotes : list ShareQuote)
    : Exc (list ShareRow) :=
  bind (mapM (share_row items) quotes) (fun rows =>
  ret (sort_by share_landed_per_unit PrimFloat.ltb rows)).

(** ** Dispatch of [do_GET] *)

(** The branches of [do_GET], in the order of its [if] statements. *)
Inductive GetBranch : Set :=
  | GetRoot | GetHealth | GetDeck | GetAdminSuppliers | GetSuppliersExport
  | GetAdminFacts | GetCompare | GetClientShare | GetNotFound.

(** [s.endswith(suffix)] *)
Definition endswith (s suffix : string) : bool :=
  String.prefix (String.rev suffix) (String.rev s).

(** The branch that handles [path]. *)
Definition do_GET_branch (path : string) : GetBranch :=
  if String.eqb path "/" then GetRoot
  else if String.eqb path "/__health" then GetHealth
  else if startswith path "/deck/" then GetDeck
  else if startswith path "/admin/suppliers" then GetAdminSuppliers
  else if String.eqb path "/admin/suppliers/export" then GetSuppliersExport
  else if String.eqb path "/admin/facts" then GetAdminFacts
  else if startswith path "/rfq/" && endswith path "/compare" then GetCompare
  else if startswith path "/c/" then GetClientShare
  else GetNotFound.

(** ** Vocabulary for the page helpers *)

(** The characters of a text. *)
Definition chars (s : string) : list ascii := list_ascii_of_string s.

(** A character that [quote_plus] may emit. *)
Definition url_safe_c (c : ascii) : bool :=
  always_safe_c c || Ascii.eqb c "+" || Ascii.eqb c "%".

(** A character of a link that is harmless inside an [href] attribute. *)
Definition href_safe_c (c : ascii) : bool :=
  url_safe_c c || Ascii.eqb c ":" || Ascii.eqb c "/" || Ascii.eqb c "?"
  || Ascii.eqb c "=".

(** A text without comma, double quote and line feed. *)
Definition csv_plain (s : string) : Prop :=
  Forall (fun c => c <> ","%char /\ c <> dquote /\ c <> newline) (chars s).

(** The reader's side of [quote_csv] and of [quote_plus], used to show
    that no two texts are written alike. *)
Fixpoint csv_undouble (s : string) : string :=
  match s with
  | EmptyString => EmptyString
  | String a s' =>
      match s' with
      | EmptyString => EmptyString
      | String b r =>
          if Ascii.eqb a dquote && Ascii.eqb b dquote
          then String dquote (csv_undouble r)
          else String a (csv_undouble s')
      end
  end.

Definition hex_val (c : ascii) : N :=
  if is_digit_c c then code c - 48 else code c - 55.

Fixpoint unquote_plus (s : string) : string :=
  match s with
  | EmptyString => EmptyString
  | String c s' =>
      if Ascii.eqb c "+" then String " " (unquote_plus s')
      else if Ascii.eqb c "%" then
        match s' with
        | String h (String l r) =>
            String (ascii_of_N (16 * hex_val h + hex_val l)) (unquote_plus r)
        | _ => String c (unquote_plus s')
        end
      else String c (unquote_plus s')
  end.


(** A token that survives the comma-separated round trip unchanged:
    not blank, trimmed, fixed by the normalisation [f], and free of
    commas and slashes. *)
Definition plain_token (f : string -> string) (t : string) : Prop :=
  truthy t = true /\ strip t = t /\ f t = t
  /\ (","%char ∉ chars t) /\ ("/"%char ∉ chars t).

(** A text of decimal digits. *)
Definition all_digits (s : string) : Prop :=
  Forall (fun c => is_digit_c c = true) (chars s).

(** A match of the number pattern: digits before the point, at least
    one, and at most two digits after it. *)
Definition number_text (m : NumMatch) : Prop :=
  truthy (int_part m) = true /\ all_digits (int_part m)
  /\ all_digits (frac_part m) /\ (String.length (frac_part m) <= 2)%nat.

(** A text that does not go on with a digit. *)
Definition no_digit_ahead (r : string) : Prop :=
  match r with
  | String x _ => is_digit_c x = false
  | EmptyString => True
  end.

(** What a row of the share page and a row of the comparison have in
    common. *)
Definition same_offer (s : ShareRow) (r : Row) : Prop :=
  share_supplier s = supplier r
  /\ share_line_item_label s = line_item_label r
  /\ share_unit_price s = row_unit_price r
  /\ share_delivery_cost s = row_delivery_cost r
  /\ share_landed_per_unit s = landed_per_unit r.

(** Two runs that raise the same exception or return related values. *)
Definition exc_rel {A B} (R : A -> B -> Prop) (x : Exc A) (y : Exc B) : Prop :=
  match x, y with
  | inl e, inl e' => e = e'
  | inr a, inr b => R a b
  | _, _ => False
  end.

(** ** [parse_line_items_json] *)

(** The values that [json.loads] returns.  An object is the list of its
    members in the order of the text; the [dict] built from it keeps the
    last member of a repeated key. *)
#[local] Unset Elimination Schemes.
Inductive JSON : Type :=
  | JNull
  | JBool (b : bool)
  | JInt (z : Z)
  | JFloat (f : float)
  | JStr (s : string)
  | JArr (elements : list JSON)
  | JObj (members : list (string * JSON)).
#[local] Set Elimination Schemes.

(** Truth value of a loaded value: [None], [False], zero, the empty
    text, list and dict are false. *)
Definition json_truthy (v : JSON) : bool :=
  match v with
  | JNull => false
  | JBool b => b
  | JInt z => negb (z =? 0)
  | JFloat f => negb (PrimFloat.is_zero f)
  | JStr s => truthy s
  | JArr l => match l with [] => false | _ :: _ => true end
  | JObj l => match l with [] => false | _ :: _ => true end
  end.

(** [d.get(key)]; [None] is [JNull]. *)
Definition dict_get (members : list (string * JSON)) (key : string) : JSON :=
  fold_left (fun found kv => if String.eqb (fst kv) key then snd kv else found)
            members JNull.

(** [int(f)] on a float: truncation towards zero; [OverflowError] on an
    infinity and [ValueError] on a NaN are [None]. *)
Definition int_of_float (f : float) : option Z :=
  match Prim2SF f with
  | S754_zero _ => Some 0
  | S754_finite s m e =>
      let a := if 0 <=? e then Z.pos m * 2 ^ e else Z.pos m / 2 ^ (- e) in
      Some (if s then - a else a)
  | S754_infinity _ | S754_nan => None
  end.

Section ParseLineItems.
(** [json.loads] and [int] on a text, [None] when they raise. *)
Variable json_loads : string -> option JSON.
Variable int_of_str : string -> option Z.

(** [(v or '')] as the receiver of a [str] method: [AttributeError]
    ([None]) when a true value is not a text. *)
Definition str_or_empty (v : JSON) : option string :=
  if json_truthy v then
    match v with JStr s => Some s | _ => None end
  else Some EmptyString.

(** [int(v or 0)]: [TypeError] ([None]) on a list or a dict. *)
Definition int_or_zero (v : JSON) : option Z :=
  if json_truthy v then
    match v with
    | JBool _ => Some 1
    | JInt z => Some z
    | JFloat f => int_of_float f
    | JStr s => int_of_str s
    | JNull | JArr _ | JObj _ => None
    end
  else Some 0.

(** The dict that the loop appends for [it]; only a dict has [get]. *)
Definition parse_item (it : JSON) : option LineItem :=
  match it with
  | JObj d =>
      k ← str_or_empty (dict_get d "kind");
      s ← str_or_empty (dict_get d "size");
      p ← str_or_empty (dict_get d "pack");
      q ← int_or_zero (dict_get d "qty_week");
      t ← str_or_empty (dict_get d "target_price");
      Some {| kind := lower (strip k); size := upper s; pack := lower p;
              qty_week := q; target_price := strip t |}
  | _ => None
  end.

(** The [for] loop with [out] so far; [None] when an element raises. *)
Fixpoint items_loop (arr : list JSON) (out : list LineItem)
    : option (list LineItem) :=
  match arr with
  | [] => Some out
  | it :: r =>
      match parse_item it with
      | Some x => items_loop r (out ++ [x])
      | None => None
      end
  end.

(** The function after [json.loads]: every exception is caught and
    gives the empty list. *)
Definition parse_loaded (loaded : option JSON) : list LineItem :=
  match loaded with
  | Some (JArr arr) => default [] (items_loop arr [])
  | _ => []
  end.

Definition parse_line_items_json (txt : string) : list LineItem :=
  parse_loaded (json_loads txt).
End ParseLineItems.

(** The value that [json.loads] returns for the [json.dumps] of an item
    with text and integer fields. *)
Definition item_json (it : LineItem) : JSON :=
  JObj [("kind", JStr (kind it)); ("size", JStr (size it));
        ("pack", JStr (pack it)); ("qty_week", JInt (qty_week it));
        ("target_price", JStr (target_price it))].

(** An item as [parse_line_items_json] leaves it. *)
Definition normal_item (it : LineItem) : Prop :=
  strip (kind it) = kind it /\ lower (kind it) = kind it
  /\ upper (size it) = size it /\ lower (pack it) = pack it
  /\ strip (target_price it) = target_price it.

(** A text that does not start with white space. *)
Definition no_space_ahead (s : string) : Prop :=
  match s with
  | String c _ => is_space_c c = false
  | EmptyString => True
  end.

(** ** The Matcher on any text

    The versions of [str.upper], [str.lower], [str.title] and
    [str.strip] in [Py] are the library's on ASCII text only, and so is
    the embedding of the number pattern, whose [\d] matches every
    decimal digit of Unicode.  This module embeds the Matcher once more
    with these library functions as parameters.  A [string] is the UTF-8
    text, on which [split], [replace], [startswith], [in] and the order
    of strings act as they do on the code points.  The theorems on the
    filters, the coverage and the score are stated on this embedding
    and hold of the program on every text; at [ascii_ops] it is the
    Matcher above. *)

Module AnyText.

Record TextOps : Type := {
  str_upper : string -> string;
  str_lower : string -> string;
  str_title : string -> string;
  str_strip : string -> string;
  (** [float(m.group(1))] for the first match [m] of the pattern
      [(\d+(?:\.\d{1,2})?)] in a text, [None] when there is none. *)
  re_number : string -> option float
}.

Section Text.
Variable T : TextOps.

Local Abbreviation upper := (str_upper T).
Local Abbreviation lower := (str_lower T).
Local Abbreviation title := (str_title T).
Local Abbreviation strip := (str_strip T).

(** The comprehension [[f(x.strip()) for x in s.split(",") if x.strip()]]. *)
Definition csv_tokens (f : string -> string) (s : string) : list string :=
  f <$> filter (fun t => truthy t = true) (strip <$> split "," s).

Definition postcode_matches (supplier_prefixes : string)
    (rfq_postcodes : list string) : bool :=
  if negb (truthy supplier_prefixes) then false
  else
    let prefs := csv_tokens upper supplier_prefixes in
    existsb (fun rp => existsb (fun sp => startswith (upper rp) sp) prefs)
            rfq_postcodes.

Definition rfq_postcodes_of (rfq : Rfq) : list string :=
  csv_tokens upper (or_empty (postcodes rfq)).

Definition rfq_days_of (rfq : Rfq) : gset string :=
  list_to_set
    (csv_tokens title (replace "/" "," (or_empty (delivery_windows rfq)))).

Definition wanted_welfare_of (rfq : Rfq) : option string :=
  let w := strip (lower (or_empty (welfare rfq))) in
  if truthy w then Some w else None.

Definition sizes_of (s : Supplier) : gset string :=
  list_to_set (csv_tokens upper (or_empty (sizes s))).

Definition packs_of (s : Supplier) : gset string :=
  list_to_set (csv_tokens lower (or_empty (pack_formats s))).

Definition days_of (s : Supplier) : gset string :=
  list_to_set (csv_tokens title (or_empty (delivery_days s))).

(** One iteration of the coverage loop: the counter after item [it]. *)
Definition cover_step (s : Supplier) (n : Z) (it : LineItem) : Z :=
  if (bool_decide (upper (size it) ∈ sizes_of s)
      || String.eqb (upper (size it)) "MIXED")
     && bool_decide (lower (pack it) ∈ packs_of s)
  then
    let moq := default 0 (moq_trays s) in
    if String.eqb (lower (pack it)) "tray" && (moq >? qty_week it)
    then n
    else n + 1
  else n.

Definition can_cover_items (s : Supplier) (items : list LineItem) : Z :=
  fold_left (cover_step s) items 0.

(** The body of the target-price loop for one item: [Some t] when the
    loop breaks at this item with [t_price = t]. *)
Definition parse_target (it : LineItem) : option float :=
  if truthy (target_price it) then
    re_number T (replace "," EmptyString (target_price it))
  else None.

Fixpoint t_price_of (items : list LineItem) : option float :=
  match items with
  | [] => None
  | it :: r =>
      match parse_target it with
      | Some t => Some t
      | None => t_price_of r
      end
  end.

Definition price_bonus (s : Supplier) (items : list LineItem) : Z :=
  match t_price_of items, price_band_low s, price_band_high s with
  | Some t, Some lo, Some hi =>
      if ((lo <=? t) && (t <=? hi))%float then 2 else 0
  | _, _, _ => 0
  end.

Definition overlap_of (rfq : Rfq) (s : Supplier) : Z :=
  if bool_decide (rfq_days_of rfq ≠ ∅)
  then Z.of_nat (base.size (rfq_days_of rfq ∩ days_of s))
  else 1.

(** [wanted_welfare and wanted_welfare not in (s['welfare'] or '').lower()] *)
Definition welfare_rejects (rfq : Rfq) (s : Supplier) : bool :=
  match wanted_welfare_of rfq with
  | Some w => negb (contains w (lower (or_empty (s_welfare s))))
  | None => false
  end.

(** The body of the supplier loop: [None] when an iteration ends in
    [continue], [Some r] when it appends [r] to [ranked]. *)
Definition rank_one (rfq : Rfq) (items : list LineItem) (s : Supplier)
    : option Ranked :=
  if negb (postcode_matches (or_empty (delivery_postcodes s)) (rfq_postcodes_of rfq))
  then None
  else if welfare_rejects rfq s then None
  else
    let n := can_cover_items s items in
    if n =? 0 then None
    else
      let score := 0 in
      let score := score + n * 10 in
      let score := score + overlap_of rfq s * 2 in
      let score := score + price_bonus s items in
      Some {| supplier_row := s; score := score |}.

Fixpoint rank_loop (rfq : Rfq) (items : list LineItem)
    (suppliers : list Supplier) (ranked : list Ranked) : list Ranked :=
  match suppliers with
  | [] => ranked
  | s :: rest =>
      match rank_one rfq items s with
      | None => rank_loop rfq items rest ranked
      | Some r => rank_loop rfq items rest (ranked ++ [r])
      end
  end.

(** [suppliers] is the result of [SELECT * FROM supplier]. *)
Definition rank_suppliers_for_rfq (rfq : Rfq) (items : list LineItem)
    (suppliers : list Supplier) : list Ranked :=
  let ranked := rank_loop rfq items suppliers [] in
  sort_by rank_key key_lt ranked.

(** *** Vocabulary of the specification

    These definitions follow the words of the specification and read
    the columns themselves, not the sets that the program builds. *)

(** The entries of a comma-separated column: the pieces between the
    commas, trimmed, blank ones dropped. *)
Definition entries (col : option string) : list string :=
  filter (fun e => e <> EmptyString) (strip <$> split "," (or_empty col)).

(** [p] is a case-insensitive prefix of [t]. *)
Definition ci_prefix (p t : string) : Prop :=
  exists r, upper t = upper p +:+ r.

(** [sub] occurs in [s] as a case-insensitive substring. *)
Definition ci_substring (sub s : string) : Prop :=
  exists a b, lower s = a +:+ lower sub +:+ b.

(** The RFQ specifies the welfare requirement [w]: its welfare column,
    in lower case and trimmed, is [w] and is not blank. *)
Definition requires_welfare (rfq : Rfq) (w : string) : Prop :=
  w = strip (lower (or_empty (welfare rfq))) /\ w <> EmptyString.

(** The size [x] is in the supplier's supported-size set, the pack
    format [p] in its supported-pack-format set; case is ignored. *)
Definition supports_size (s : Supplier) (x : string) : Prop :=
  Exists (fun e => upper e = upper x) (entries (sizes s)).

Definition supports_pack (s : Supplier) (p : string) : Prop :=
  Exists (fun e => lower e = lower p) (entries (pack_formats s)).

(** The size is the wildcard, the pack format is the tray. *)
Definition is_mixed (x : string) : Prop := upper x = "MIXED".
Definition is_tray (p : string) : Prop := lower p = "tray".

(** Coverage as the specification words it: the minimum order quantity
    binds only when the supplier has one. *)
Definition covers_as_claimed (s : Supplier) (it : LineItem) : Prop :=
  (supports_size s (size it) \/ is_mixed (size it))
  /\ supports_pack s (pack it)
  /\ (is_tray (pack it) ->
      match moq_trays s with
      | Some m => m <= qty_week it
      | None => True
      end).

(** Coverage as amended: a missing minimum order quantity counts as 0. *)
Definition covers (s : Supplier) (it : LineItem) : Prop :=
  (supports_size s (size it) \/ is_mixed (size it))
  /\ supports_pack s (pack it)
  /\ (is_tray (pack it) -> default 0 (moq_trays s) <= qty_week it).

#[global] Instance covers_as_claimed_dec s it : Decision (covers_as_claimed s it).
Proof.
  unfold covers_as_claimed, supports_size, supports_pack, is_mixed, is_tray.
  destruct (moq_trays s); apply _.
Defined.

#[global] Instance covers_dec s it : Decision (covers s it).
Proof.
  unfold covers, supports_size, supports_pack, is_mixed, is_tray. apply _.
Defined.

(** The days that the RFQ requires and the days on which the supplier
    delivers, as day names; the days common to both, each once. *)
Definition required_days (rfq : Rfq) : list string :=
  title <$> entries (Some (replace "/" "," (or_empty (delivery_windows rfq)))).

Definition supplier_days (s : Supplier) : list string :=
  title <$> entries (delivery_days s).

Definition common_days (rfq : Rfq) (s : Supplier) : list string :=
  remove_dups (filter (fun d => d ∈ supplier_days s) (required_days rfq)).

(** The first line item with a parseable target price has target [t]. *)
Definition first_target (items : list LineItem) (t : float) : Prop :=
  exists i it,
    items !! i = Some it /\ parse_target it = Some t
    /\ forall j it', (j < i)%nat -> items !! j = Some it' -> parse_target it' = None.

End Text.

(** The laws of the library's text functions that the theorems use;
    [str.upper] and [str.lower] are idempotent, lower-casing does not
    touch the white space that [str.strip] removes, and the empty text
    stays empty. *)
Definition upper_idempotent (T : TextOps) : Prop :=
  forall s, str_upper T (str_upper T s) = str_upper T s.

Definition lower_idempotent (T : TextOps) : Prop :=
  forall s, str_lower T (str_lower T s) = str_lower T s.

Definition lower_commutes_with_strip (T : TextOps) : Prop :=
  forall s, str_lower T (str_strip T s) = str_strip T (str_lower T s).

Definition strip_of_empty (T : TextOps) : Prop :=
  str_strip T EmptyString = EmptyString.

End AnyText.

(** The text functions of [Py]: exact on ASCII text. *)
Definition ascii_ops : AnyText.TextOps :=
  {| AnyText.str_upper := upper;
     AnyText.str_lower := lower;
     AnyText.str_title := title;
     AnyText.str_strip := strip;
     AnyText.re_number := fun s => float_of_match <$> re_search_number s |}.

(** ** Further vocabulary of the specification *)

(** [y] is [x] rounded to four decimal places: for a finite [x] there
    is an integer [n] nearest to [10^4 * |x|], the even one of two that
    are equally near, and [y] is the double nearest to [n / 10^4] with
    the sign of [x]; zeros, infinities and NaN are kept.  The exact value
    of [x] is [m * 2^e], so [10^4 * |x|] is the quotient of
    [m * 10^4 * 2^max(e,0)] by [2^max(-e,0)]. *)
Definition rounded4 (x y : float) : Prop :=
  match Prim2SF x with
  | S754_finite s m e =>
      let num := Z.pos m * 10000 * 2 ^ Z.max e 0 in
      let den := 2 ^ Z.max (- e) 0 in
      exists n : Z,
        2 * Z.abs (num - n * den) <= den
        /\ (2 * Z.abs (num - n * den) = den -> Z.even n = true)
        /\ y = if n =? 0 then (if s then (-0)%float else 0%float)
               else float_of_ratio (if s then - n else n) 10000
  | _ => y = x
  end.

(** A text in ASCII, on which the text functions of [Py] and the
    patterns embedded with them are the library's. *)
Definition ascii_text (s : string) : Prop :=
  Forall (fun c => (code c < 128)%N) (list_ascii_of_string s).

(** A text in ASCII apart from pound signs. *)
Fixpoint ascii_or_pound (s : string) : bool :=
  match s with
  | EmptyString => true
  | String a r =>
      if (code a <? 128)%N then ascii_or_pound r
      else
        match r with
        | String b r' =>
            (code a =? 194)%N && (code b =? 163)%N && ascii_or_pound r'
        | EmptyString => false
        end
  end.

(** ** Further sample records *)

(** An RFQ for area BN1 that asks for delivery on Tuesday and Friday. *)
Definition rfq_tue_fri : Rfq :=
  {| rfq_id := 4; client_name := None; postcodes := Some "BN1";
     welfare := None; delivery_windows := Some "Tue/Fri" |}.

(** A supplier that sells boxes only and delivers on Wednesday and
    Friday. *)
Definition supplier_boxes : Supplier :=
  {| supplier_id := 7; name := "Box Barn"; s_welfare := None;
     sizes := Some "m, l"; pack_formats := Some "Box"; moq_trays := Some 40;
     delivery_days := Some "wed, FRI"; delivery_postcodes := Some "bn";
     price_band_low := None; price_band_high := None |}.

Definition item_l_box : LineItem :=
  {| kind := "retail"; size := "L"; pack := "box"; qty_week := 5;
     target_price := EmptyString |}.

Definition item_l_tray_30 : LineItem :=
  {| kind := "retail"; size := "L"; pack := "tray"; qty_week := 30;
     target_price := EmptyString |}.

(** A line item with a negative weekly quantity, as
    [parse_line_items_json] returns it for [-1]. *)
Definition item_negative : LineItem :=
  {| kind := "retail"; size := "L"; pack := "tray"; qty_week := -1;
     target_price := EmptyString |}.

Definition item_minus_4 : LineItem :=
  {| kind := "wholesale"; size := "L"; pack := "tray"; qty_week := -4;
     target_price := EmptyString |}.

Definition item_3 : LineItem :=
  {| kind := "wholesale"; size := "L"; pack := "tray"; qty_week := 3;
     target_price := EmptyString |}.

(** A quote with an infinite unit price and an infinite negative
    delivery cost, which the [quotes/add] branch accepts. *)
Definition quote_infinite : Quote :=
  {| sname := "B"; line_item_index := Some 0;
     unit_price := Some infinity; delivery_cost := Some neg_infinity;
     lead_time_days := None; hold_weeks := None; remarks := None |}.


(** ** Facts about the built-ins *)

Section StringFacts.

Lemma upper_c_idemp c : upper_c (upper_c c) = upper_c c.
Proof. destruct c as [[] [] [] [] [] [] [] []]; reflexivity. Qed.

Lemma lower_c_idemp c : lower_c (lower_c c) = lower_c c.
Proof. destruct c as [[] [] [] [] [] [] [] []]; reflexivity. Qed.

Lemma is_space_lower_c c : is_space_c (lower_c c) = is_space_c c.
Proof. destruct c as [[] [] [] [] [] [] [] []]; reflexivity. Qed.

Lemma upper_idemp s : upper (upper s) = upper s.
Proof. induction s as [|c s IH]; simpl; [done|]. by rewrite upper_c_idemp, IH. Qed.

Lemma lower_idemp s : lower (lower s) = lower s.
Proof. induction s as [|c s IH]; simpl; [done|]. by rewrite lower_c_idemp, IH. Qed.

Lemma lower_lstrip s : lower (lstrip s) = lstrip (lower s).
Proof.
  induction s as [|c s IH]; simpl; [done|].
  rewrite is_space_lower_c. by destruct (is_space_c c).
Qed.

Lemma lower_rev_app s t :
  lower (String.rev_app s t) = String.rev_app (lower s) (lower t).
Proof. revert t. induction s as [|c s IH]; intros t; simpl; [done|]. by rewrite IH. Qed.

Lemma lower_rev s : lower (String.rev s) = String.rev (lower s).
Proof. apply lower_rev_app. Qed.

Lemma lower_strip s : lower (strip s) = strip (lower s).
Proof.
  unfold strip, rstrip.
  by rewrite lower_rev, lower_lstrip, lower_rev, lower_lstrip.
Qed.

(** [String.prefix] and [contains] decide the expected relations. *)
Lemma app_String a p r : String a p +:+ r = String a (p +:+ r).
Proof. reflexivity. Qed.

Lemma prefix_true p t : String.prefix p t = true <-> exists r, t = p +:+ r.
Proof.
  revert t. induction p as [|a p IH]; intros t.
  - destruct t; split; eauto.
  - destruct t as [|b t]; simpl.
    + split; [done|]. intros [r Hr]. rewrite app_String in Hr. discriminate.
    + destruct (ascii_dec a b) as [->|Hab].
      * rewrite IH. split; intros [r Hr]; exists r.
        -- by rewrite app_String, Hr.
        -- rewrite app_String in Hr. congruence.
      * split; [done|]. intros [r Hr]. rewrite app_String in Hr. congruence.
Qed.

Lemma contains_true sub s :
  contains sub s = true <-> exists a b, s = a +:+ sub +:+ b.
Proof.
  induction s as [|c s IH].
  - change (contains sub EmptyString)
      with (String.prefix sub EmptyString || false).
    rewrite orb_false_r, prefix_true. split.
    + intros [r Hr]. by exists EmptyString, r.
    + intros [a [b H]]. destruct a; [eauto|]. rewrite app_String in H. discriminate.
  - change (contains sub (String c s))
      with (String.prefix sub (String c s) || contains sub s).
    rewrite orb_true_iff, IH, prefix_true. split.
    + intros [[r Hr]|[a [b H]]].
      * by exists EmptyString, r.
      * exists (String c a), b. by rewrite app_String, H.
    + intros [a [b H]]. destruct a as [|c' a].
      * left. eauto.
      * right. exists a, b. rewrite app_String in H. congruence.
Qed.

Lemma csv_tokens_fmap f s : csv_tokens f s = f <$> csv_tokens (fun t => t) s.
Proof. unfold csv_tokens. by rewrite list_fmap_id. Qed.

Lemma csv_tokens_nil f s : csv_tokens (fun t => t) s = [] -> csv_tokens f s = [].
Proof. intros H. by rewrite csv_tokens_fmap, H. Qed.

End StringFacts.

(** ** Facts about the sort *)

Section SortFacts.
Context {A K : Type} (key : A -> K) (lt : K -> K -> bool).

Lemma insert_sorted_perm x l : insert_sorted key lt x l ≡ₚ x :: l.
Proof.
  induction l as [|y l IH]; simpl; [done|].
  destruct (lt (key x) (key y)); [done|].
  rewrite IH. apply Permutation_swap.
Qed.

Lemma fold_insert_perm l acc :
  fold_left (fun acc x => insert_sorted key lt x acc) l acc ≡ₚ acc ++ l.
Proof.
  revert acc. induction l as [|x l IH]; intros acc; simpl.
  - by rewrite app_nil_r.
  - rewrite IH, insert_sorted_perm. simpl. apply Permutation_middle.
Qed.

Lemma sort_by_perm l : sort_by key lt l ≡ₚ l.
Proof. unfold sort_by. by rewrite fold_insert_perm. Qed.

Lemma elem_of_sort_by x l : x ∈ sort_by key lt l <-> x ∈ l.
Proof. by rewrite sort_by_perm. Qed.

(** Sortedness needs [lt] to behave as an order on the keys that
    occur; [ok] singles these keys out. *)
Context (ok : K -> Prop) (le : K -> K -> Prop).
Hypothesis lt_le : forall a b, ok a -> ok b -> lt a b = true -> le a b.
Hypothesis nlt_le : forall a b, ok a -> ok b -> lt a b = false -> le b a.

Let R (x y : A) : Prop := le (key x) (key y).

Lemma insert_sorted_Sorted x l :
  ok (key x) -> Forall (fun y => ok (key y)) l ->
  Sorted R l -> Sorted R (insert_sorted key lt x l).
Proof.
  intros Hx Hl Hs. induction l as [|y l IH]; simpl.
  - repeat constructor.
  - apply Forall_cons in Hl as [Hy Hl].
    apply Sorted_inv in Hs as [Hs Hhd].
    destruct (lt (key x) (key y)) eqn:E.
    + constructor; [by constructor|]. constructor. by apply lt_le.
    + constructor; [by apply IH|].
      destruct l as [|z l]; simpl.
      * constructor. by apply nlt_le.
      * destruct (lt (key x) (key z)); constructor.
        -- by apply nlt_le.
        -- by apply HdRel_inv in Hhd.
Qed.

Lemma fold_insert_Sorted l acc :
  Forall (fun y => ok (key y)) acc -> Forall (fun y => ok (key y)) l ->
  Sorted R acc ->
  Sorted R (fold_left (fun acc x => insert_sorted key lt x acc) l acc).
Proof.
  revert acc. induction l as [|x l IH]; intros acc Hacc Hl Hs; simpl; [done|].
  apply Forall_cons in Hl as [Hx Hl].
  apply IH; [|done|by apply insert_sorted_Sorted].
  rewrite insert_sorted_perm. by constructor.
Qed.

Lemma sort_by_Sorted l :
  Forall (fun y => ok (key y)) l -> Sorted R (sort_by key lt l).
Proof. intros Hl. apply fold_insert_Sorted; [constructor|done|constructor]. Qed.

End SortFacts.

Lemma Sorted_lookup_adjacent {A} (R : A -> A -> Prop) l i a b :
  Sorted R l -> l !! i = Some a -> l !! S i = Some b -> R a b.
Proof.
  intros Hs. revert i. induction Hs as [|x l Hs IH Hhd]; intros i Ha Hb; [done|].
  destruct i as [|i]; simpl in *.
  - inversion Ha; subst. destruct l; simpl in Hb; [done|].
    inversion Hb; subst. by apply HdRel_inv in Hhd.
  - eauto.
Qed.

Lemma StronglySorted_lookup_lt {A} (R : A -> A -> Prop) l i j a b :
  StronglySorted R l -> (i < j)%nat ->
  l !! i = Some a -> l !! j = Some b -> R a b.
Proof.
  intros Hs. revert i j.
  induction Hs as [|x l Hs IH Hall]; intros i j Hij Ha Hb; [done|].
  destruct j as [|j]; [lia|]. destruct i as [|i]; simpl in *.
  - inversion Ha; subst. rewrite List.Forall_forall in Hall.
    apply Hall. apply list_elem_of_In. by eapply list_elem_of_lookup_2.
  - eapply IH; [|done..]. lia.
Qed.


(** ** Facts about float comparison *)

Section FloatFacts.

Lemma SFcompare_antisym a b c :
  SFcompare a b = Some c -> SFcompare b a = Some (CompOpp c).
Proof.
  destruct a as [sa|sa| |sa ma ea], b as [sb|sb| |sb mb eb]; simpl;
    try discriminate;
    try (destruct sa; intros [= <-]; reflexivity);
    try (destruct sb; intros [= <-]; reflexivity);
    try (intros [= <-]; reflexivity).
  - destruct sa, sb; intros [= <-]; reflexivity.
  - rewrite (Z.compare_antisym ea eb).
    pose proof (Pos.compare_cont_antisym ma mb Eq) as Hm. simpl in Hm.
    rewrite <- Hm.
    destruct sa, sb; intros [= <-]; try reflexivity;
      destruct (ea ?= eb); simpl; try reflexivity;
      by rewrite ?CompOpp_involutive.
Qed.

Lemma is_number_compare x y :
  is_number x -> is_number y ->
  exists c, SFcompare (Prim2SF x) (Prim2SF y) = Some c.
Proof.
  unfold is_number, PrimFloat.is_nan. intros Hx Hy.
  apply negb_false_iff in Hx, Hy. rewrite FloatAxioms.eqb_spec in Hx, Hy.
  unfold SFeqb in Hx, Hy.
  destruct (Prim2SF x), (Prim2SF y); simpl in *; try discriminate; eauto.
Qed.

Lemma float_ltb_leb x y : (x <? y)%float = true -> (x <=? y)%float = true.
Proof.
  rewrite FloatAxioms.ltb_spec, FloatAxioms.leb_spec. unfold SFltb, SFleb.
  by destruct (SFcompare _ _) as [[]|].
Qed.

Lemma float_nltb_leb x y :
  is_number x -> is_number y ->
  (x <? y)%float = false -> (y <=? x)%float = true.
Proof.
  intros Hx Hy. destruct (is_number_compare x y Hx Hy) as [c Hc].
  rewrite FloatAxioms.ltb_spec, FloatAxioms.leb_spec. unfold SFltb, SFleb.
  rewrite Hc, (SFcompare_antisym _ _ _ Hc). by destruct c.
Qed.

(** Adding [0.0] to a number gives an equal number. *)
Lemma float_add_zero x : is_number x -> (x + 0 =? x)%float = true.
Proof.
  unfold is_number, PrimFloat.is_nan. intros Hx.
  apply negb_false_iff in Hx. rewrite FloatAxioms.eqb_spec in Hx |- *.
  rewrite FloatAxioms.add_spec.
  change (Prim2SF 0) with (S754_zero false).
  unfold SFeqb in *.
  by destruct (Prim2SF x) as [[]|[]| |s m e].
Qed.

End FloatFacts.


(** ** Facts about the Matcher *)

Section MatcherFacts.
Context (rfq : Rfq) (items : list LineItem).

Lemma rank_loop_omap suppliers ranked :
  rank_loop rfq items suppliers ranked
  = ranked ++ omap (rank_one rfq items) suppliers.
Proof.
  revert ranked. induction suppliers as [|s l IH]; intros ranked; simpl.
  - by rewrite app_nil_r.
  - destruct (rank_one rfq items s); rewrite IH; [|done].
    by rewrite <- app_assoc.
Qed.

Lemma elem_of_ranked r suppliers :
  r ∈ rank_suppliers_for_rfq rfq items suppliers
  <-> exists s, s ∈ suppliers /\ rank_one rfq items s = Some r.
Proof.
  unfold rank_suppliers_for_rfq.
  rewrite elem_of_sort_by, rank_loop_omap. simpl. apply list_elem_of_omap.
Qed.

Lemma rank_one_Some s r :
  rank_one rfq items s = Some r
  <-> postcode_matches (or_empty (delivery_postcodes s)) (rfq_postcodes_of rfq) = true
      /\ welfare_rejects rfq s = false
      /\ can_cover_items s items <> 0
      /\ r = {| supplier_row := s;
                score := can_cover_items s items * 10 + overlap_of rfq s * 2
                         + price_bonus s items |}.
Proof.
  unfold rank_one.
  destruct (postcode_matches _ _); simpl;
    [|split; [done|by intros (? & _)]].
  destruct (welfare_rejects rfq s);
    [split; [done|by intros (_ & ? & _)]|].
  destruct (Z.eqb_spec (can_cover_items s items) 0) as [E|E];
    [split; [done|by intros (_ & _ & ? & _)]|].
  split.
  - intros [= <-]. done.
  - intros (_ & _ & _ & ->). done.
Qed.

Lemma listed_iff s suppliers :
  listed s (rank_suppliers_for_rfq rfq items suppliers)
  <-> s ∈ suppliers
      /\ postcode_matches (or_empty (delivery_postcodes s)) (rfq_postcodes_of rfq) = true
      /\ welfare_rejects rfq s = false
      /\ can_cover_items s items <> 0.
Proof.
  unfold listed. split.
  - intros (r & Hr & <-). apply elem_of_ranked in Hr as (s & Hs & Hone).
    apply rank_one_Some in Hone as (? & ? & ? & ->). done.
  - intros (Hs & Ha & Hw & Hc). eexists. split.
    + apply elem_of_ranked. exists s. split; [done|].
      apply rank_one_Some. eauto.
    + done.
Qed.

End MatcherFacts.

Lemma csv_tokens_empty f : csv_tokens f EmptyString = [].
Proof. reflexivity. Qed.

Lemma postcode_matches_true sp rps :
  postcode_matches sp rps = true
  <-> exists p c, p ∈ csv_tokens upper sp /\ c ∈ rps
                  /\ String.prefix p (upper c) = true.
Proof.
  unfold postcode_matches. destruct sp as [|a sp]; simpl negb; cbv iota.
  - rewrite csv_tokens_empty. split; [done|].
    intros (p & c & Hp & _). by apply elem_of_nil in Hp.
  - rewrite existsb_exists. split.
    + intros (c & Hc & H). apply existsb_exists in H as (p & Hp & H).
      exists p, c. by rewrite <- !list_elem_of_In in *.
    + intros (p & c & Hp & Hc & H). exists c.
      rewrite existsb_exists, <- list_elem_of_In. split; [done|].
      exists p. by rewrite <- list_elem_of_In.
Qed.

(** The area filter passes exactly when some prefix of the supplier is a
    case-insensitive prefix of some area code of the RFQ. *)
Lemma area_filter_iff rfq s :
  postcode_matches (or_empty (delivery_postcodes s)) (rfq_postcodes_of rfq) = true
  <-> exists p c, p ∈ area_prefixes s /\ c ∈ area_codes rfq /\ ci_prefix p c.
Proof.
  rewrite postcode_matches_true. unfold rfq_postcodes_of, area_prefixes,
    area_codes, csv_entries, ci_prefix.
  rewrite (csv_tokens_fmap upper (or_empty (delivery_postcodes s))).
  rewrite (csv_tokens_fmap upper (or_empty (postcodes rfq))).
  split.
  - intros (p & c & Hp & Hc & H).
    apply list_elem_of_fmap in Hp as (p' & -> & Hp').
    apply list_elem_of_fmap in Hc as (c' & -> & Hc').
    exists p', c'. rewrite upper_idemp in H. by apply prefix_true in H.
  - intros (p & c & Hp & Hc & H).
    exists (upper p), (upper c). rewrite upper_idemp.
    split; [by apply list_elem_of_fmap_2|].
    split; [by apply list_elem_of_fmap_2|]. by apply prefix_true.
Qed.

(** The target-price loop stops at the first parseable target. *)
Lemma t_price_of_first items t :
  t_price_of items = Some t <-> first_target items t.
Proof.
  unfold first_target. induction items as [|it l IH]; simpl.
  - split; [done|]. by intros (i & it & H & _).
  - destruct (parse_target it) as [t'|] eqn:E.
    + split.
      * intros [= ->]. exists 0%nat, it. repeat split; [done|]. intros; lia.
      * intros (i & it' & Hi & Ht & Hfirst). destruct i as [|i].
        -- simpl in Hi. congruence.
        -- specialize (Hfirst 0%nat it ltac:(lia) eq_refl). congruence.
    + rewrite IH. split.
      * intros (i & it' & Hi & Ht & Hfirst). exists (S i), it'.
        repeat split; [done..|]. intros [|j] it2 Hj Hit2; simpl in Hit2.
        -- congruence.
        -- eapply Hfirst; [|done]. lia.
      * intros (i & it' & Hi & Ht & Hfirst). destruct i as [|i].
        -- simpl in Hi. congruence.
        -- exists i, it'. repeat split; [done..|]. intros j it2 Hj Hit2.
           apply (Hfirst (S j)); [lia|done].
Qed.


(** ** Facts about the order of the ranking *)

Section RankOrder.

Lemma key_lt_le a b : key_lt a b = true -> key_le a b.
Proof.
  unfold key_lt, key_le. destruct (Z.eqb_spec (fst a) (fst b)) as [E|E].
  - intros H. right. split; [done|].
    unfold String.le, String.leb. unfold String.ltb in H.
    by destruct (String.compare (snd a) (snd b)).
  - intros H. left. by apply Z.ltb_lt.
Qed.

Lemma key_nlt_le a b : key_lt a b = false -> key_le b a.
Proof.
  unfold key_lt, key_le. destruct (Z.eqb_spec (fst a) (fst b)) as [E|E].
  - intros H. right. split; [done|].
    unfold String.le, String.leb. unfold String.ltb in H.
    rewrite String.compare_antisym.
    by destruct (String.compare (snd a) (snd b)).
  - intros H. left. apply Z.ltb_ge in H. lia.
Qed.

Lemma key_le_trans a b c : key_le a b -> key_le b c -> key_le a c.
Proof.
  unfold key_le. intros [H1|[H1 L1]] [H2|[H2 L2]]; try (left; lia).
  right. split; [lia|]. by etrans.
Qed.

Lemma rank_le_key a b : key_le (rank_key a) (rank_key b) <-> rank_le a b.
Proof.
  unfold key_le, rank_le, rank_key. simpl.
  split; (intros [H|[H L]]; [left; lia|right; split; [lia|done]]).
Qed.

Lemma ranked_sorted rfq items suppliers :
  StronglySorted (fun a b => key_le (rank_key a) (rank_key b))
    (rank_suppliers_for_rfq rfq items suppliers).
Proof.
  apply Sorted_StronglySorted.
  - intros a b c. apply key_le_trans.
  - unfold rank_suppliers_for_rfq.
    apply (sort_by_Sorted rank_key key_lt (fun _ => True) key_le).
    + intros a b _ _. apply key_lt_le.
    + intros a b _ _. apply key_nlt_le.
    + by apply Forall_true.
Qed.

End RankOrder.

(** ** Facts about the price bonus *)

Lemma price_bonus_cases s items :
  (price_bonus s items = 2
   /\ exists t, first_target items t /\ in_price_band s t)
  \/ (price_bonus s items = 0
      /\ ~ exists t, first_target items t /\ in_price_band s t).
Proof.
  unfold price_bonus, in_price_band.
  destruct (t_price_of items) as [t|] eqn:Et.
  - destruct (price_band_low s) as [lo|] eqn:Elo;
      [destruct (price_band_high s) as [hi|] eqn:Ehi|].
    + destruct ((lo <=? t)%float) eqn:E1; [destruct ((t <=? hi)%float) eqn:E2|];
        simpl.
      * left. split; [done|]. exists t. split; [by apply t_price_of_first|].
        by exists lo, hi.
      * right. split; [done|].
        intros (t' & Ht' & lo' & hi' & [= <-] & [= <-] & H1 & H2).
        apply t_price_of_first in Ht'. congruence.
      * right. split; [done|].
        intros (t' & Ht' & lo' & hi' & [= <-] & [= <-] & H1 & H2).
        apply t_price_of_first in Ht'. congruence.
    + right. split; [done|]. by intros (t' & _ & lo' & hi' & _ & ? & _).
    + right. split; [done|]. by intros (t' & _ & lo' & hi' & ? & _).
  - right. split; [done|]. intros (t' & Ht' & _).
    apply t_price_of_first in Ht'. congruence.
Qed.


(** ** Facts about the Cost Normalizer *)

Section NormalizerFacts.
Context {A B : Type} (f : A -> Exc B).

Lemma mapM_inr l bs :
  mapM f l = inr bs -> Forall2 (fun a b => f a = inr b) l bs.
Proof.
  revert bs. induction l as [|a l IH]; intros bs; simpl.
  - intros [= <-]. constructor.
  - destruct (f a) as [e|b] eqn:Ea; simpl; [done|].
    destruct (mapM f l) as [e|bs'] eqn:El; simpl; [done|].
    intros [= <-]. constructor; [done|]. by apply IH.
Qed.

Lemma mapM_inl l a e :
  a ∈ l -> f a = inl e -> exists e', mapM f l = inl e'.
Proof.
  intros Ha Hf. induction l as [|a' l IH]; [by apply elem_of_nil in Ha|].
  simpl. apply elem_of_cons in Ha as [<-|Ha].
  - rewrite Hf. by exists e.
  - destruct (f a') as [e1|b]; simpl; [by exists e1|].
    destruct (IH Ha) as [e' He']. rewrite He'. by exists e'.
Qed.
End NormalizerFacts.

Lemma compare_rows_inr items quotes rows :
  compare_rows items quotes = inr rows ->
  exists rows0,
    Forall2 (fun q r => compare_row items q = inr r) quotes rows0
    /\ rows = sort_by landed_per_unit PrimFloat.ltb rows0.
Proof.
  unfold compare_rows.
  destruct (mapM (compare_row items) quotes) as [e|rows0] eqn:E; simpl; [done|].
  intros [= <-]. exists rows0. split; [|done]. by apply mapM_inr.
Qed.

(** Every quote has its row in the result. *)
Lemma compare_rows_row items quotes rows q row :
  compare_rows items quotes = inr rows ->
  q ∈ quotes -> compare_row items q = inr row -> row ∈ rows.
Proof.
  intros H Hq Hrow. apply compare_rows_inr in H as (rows0 & HF & ->).
  apply elem_of_sort_by.
  apply list_elem_of_lookup in Hq as [i Hi].
  destruct (Forall2_lookup_l _ _ _ _ _ HF Hi) as (r & Hr & Hqr).
  assert (r = row) as -> by congruence.
  by eapply list_elem_of_lookup_2.
Qed.

(** An index at or beyond the end resolves to the placeholder. *)
Lemma index_or_beyond {A} (l : list A) i d :
  Z.of_nat (length l) <= i -> index_or l i d = inr d.
Proof. intros H. unfold index_or. by destruct (Z.ltb_spec i (Z.of_nat (length l))); [lia|]. Qed.

(** A negative index before the first element raises. *)
Lemma index_or_before {A} (l : list A) i d :
  i < - Z.of_nat (length l) -> index_or l i d = inl IndexError.
Proof.
  intros H. unfold index_or.
  destruct (Z.ltb_spec i (Z.of_nat (length l))); [|lia].
  destruct (Z.ltb_spec i 0); [|lia].
  by destruct (Z.ltb_spec (i + Z.of_nat (length l)) 0); [|lia].
Qed.

Lemma compare_row_beyond items q i :
  line_item_index q = Some i -> Z.of_nat (length items) <= i ->
  compare_row items q
  = inr {| supplier := sname q;
           line_item_label := "  ";
           row_unit_price := float_or_zero (unit_price q);
           row_delivery_cost := float_or_zero (delivery_cost q);
           row_qty_week := 0;
           delivery_per_unit := 0%float;
           landed_per_unit := round4 (float_or_zero (unit_price q) + 0)%float;
           row_lead_time_days := lead_time_days q;
           row_hold_weeks := hold_weeks q;
           row_remarks := remarks q |}.
Proof.
  intros Hi Hle. unfold compare_row. rewrite Hi. simpl.
  by rewrite index_or_beyond.
Qed.

Lemma compare_row_before items q i :
  line_item_index q = Some i -> i < - Z.of_nat (length items) ->
  compare_row items q = inl IndexError.
Proof.
  intros Hi Hlt. unfold compare_row. rewrite Hi. simpl.
  by rewrite index_or_before.
Qed.

(** The int-to-float conversion of the divisor overflows on a quantity
    beyond the doubles. *)
Lemma huge_quantity_overflows :
  compare_rows [item_huge] [quote_for 0 2.5 20] = inl OverflowError.
Proof. by vm_compute. Qed.

(** A quote that resolves to a line item of quantity 0 divides nothing:
    [del_per] is [0.0] and [landed] equals the unit price. *)
Lemma zero_quantity_row items q it :
  index_or items (default 0 (line_item_index q)) placeholder = inr it ->
  qty_week it = 0 ->
  del_per_of q (qty_week it) = inr 0%float
  /\ (is_number (float_or_zero (unit_price q)) ->
      (landed_of q 0 =? float_or_zero (unit_price q))%float = true)
  /\ exists row,
       compare_row items q = inr row
       /\ delivery_per_unit row = 0%float
       /\ landed_per_unit row = round4 (landed_of q 0).
Proof.
  intros Hidx H0. rewrite H0. split; [done|]. split.
  - apply float_add_zero.
  - unfold compare_row. rewrite Hidx. simpl. rewrite H0. simpl. eauto.
Qed.

(** ** Facts about the Matcher on any text *)

Section AnyTextFacts.
Context (T : AnyText.TextOps).

Local Abbreviation upper := (AnyText.str_upper T).
Local Abbreviation lower := (AnyText.str_lower T).
Local Abbreviation title := (AnyText.str_title T).
Local Abbreviation strip := (AnyText.str_strip T).

Lemma truthy_nonempty t : truthy t = true <-> t <> EmptyString.
Proof. by destruct t. Qed.

(** The tokens that the program reads from a column are the images of
    its entries. *)
Lemma any_csv_tokens_entries f str :
  AnyText.csv_tokens T f str = f <$> AnyText.entries T (Some str).
Proof.
  unfold AnyText.csv_tokens, AnyText.entries. f_equal.
  apply list_filter_iff. intros t. apply truthy_nonempty.
Qed.

Lemma any_entries_or_empty col :
  AnyText.entries T (Some (or_empty col)) = AnyText.entries T col.
Proof. reflexivity. Qed.

Lemma any_rank_loop_omap rfq items suppliers ranked :
  AnyText.rank_loop T rfq items suppliers ranked
  = ranked ++ omap (AnyText.rank_one T rfq items) suppliers.
Proof.
  revert ranked. induction suppliers as [|s l IH]; intros ranked; simpl.
  - by rewrite app_nil_r.
  - destruct (AnyText.rank_one T rfq items s); rewrite IH; [|done].
    by rewrite <- app_assoc.
Qed.

Lemma any_elem_of_ranked rfq items r suppliers :
  r ∈ AnyText.rank_suppliers_for_rfq T rfq items suppliers
  <-> exists s, s ∈ suppliers /\ AnyText.rank_one T rfq items s = Some r.
Proof.
  unfold AnyText.rank_suppliers_for_rfq.
  rewrite elem_of_sort_by, any_rank_loop_omap. simpl. apply list_elem_of_omap.
Qed.

Lemma any_rank_one_Some rfq items s r :
  AnyText.rank_one T rfq items s = Some r
  <-> AnyText.postcode_matches T (or_empty (delivery_postcodes s))
        (AnyText.rfq_postcodes_of T rfq) = true
      /\ AnyText.welfare_rejects T rfq s = false
      /\ AnyText.can_cover_items T s items <> 0
      /\ r = {| supplier_row := s;
                score := AnyText.can_cover_items T s items * 10
                         + AnyText.overlap_of T rfq s * 2
                         + AnyText.price_bonus T s items |}.
Proof.
  unfold AnyText.rank_one.
  destruct (AnyText.postcode_matches _ _ _); simpl;
    [|split; [done|by intros (? & _)]].
  destruct (AnyText.welfare_rejects T rfq s);
    [split; [done|by intros (_ & ? & _)]|].
  destruct (Z.eqb_spec (AnyText.can_cover_items T s items) 0) as [E|E];
    [split; [done|by intros (_ & _ & ? & _)]|].
  split.
  - intros [= <-]. done.
  - intros (_ & _ & _ & ->). done.
Qed.

Lemma any_listed_iff rfq items s suppliers :
  listed s (AnyText.rank_suppliers_for_rfq T rfq items suppliers)
  <-> s ∈ suppliers
      /\ AnyText.postcode_matches T (or_empty (delivery_postcodes s))
           (AnyText.rfq_postcodes_of T rfq) = true
      /\ AnyText.welfare_rejects T rfq s = false
      /\ AnyText.can_cover_items T s items <> 0.
Proof.
  unfold listed. split.
  - intros (r & Hr & <-). apply any_elem_of_ranked in Hr as (s & Hs & Hone).
    apply any_rank_one_Some in Hone as (? & ? & ? & ->). done.
  - intros (Hs & Ha & Hw & Hc). eexists. split.
    + apply any_elem_of_ranked. exists s. split; [done|].
      apply any_rank_one_Some. eauto.
    + done.
Qed.

(** *** The area filter *)

Lemma any_postcode_matches_true sp rps :
  AnyText.postcode_matches T sp rps = true
  <-> truthy sp = true
      /\ exists p c, p ∈ AnyText.csv_tokens T upper sp /\ c ∈ rps
                     /\ String.prefix p (upper c) = true.
Proof.
  unfold AnyText.postcode_matches.
  destruct (truthy sp) eqn:Et; simpl negb; cbv iota;
    [|split; [done|by intros [? _]]].
  rewrite existsb_exists. split.
  - intros (c & Hc & H). apply existsb_exists in H as (p & Hp & H).
    split; [done|]. exists p, c. by rewrite <- !list_elem_of_In in *.
  - intros (_ & p & c & Hp & Hc & H). exists c.
    rewrite existsb_exists, <- list_elem_of_In. split; [done|].
    exists p. by rewrite <- list_elem_of_In.
Qed.

(** A supplier that passes the area filter has a prefix that is a
    case-insensitive prefix of an area code of the RFQ. *)
Lemma any_area_filter_passed rfq s :
  AnyText.upper_idempotent T ->
  AnyText.postcode_matches T (or_empty (delivery_postcodes s))
    (AnyText.rfq_postcodes_of T rfq) = true ->
  exists p c,
    p ∈ AnyText.entries T (delivery_postcodes s)
    /\ c ∈ AnyText.entries T (postcodes rfq)
    /\ AnyText.ci_prefix T p c.
Proof.
  intros Hup (_ & p & c & Hp & Hc & H)%any_postcode_matches_true.
  unfold AnyText.rfq_postcodes_of in Hc.
  rewrite any_csv_tokens_entries, any_entries_or_empty in Hp, Hc.
  apply list_elem_of_fmap in Hp as (p' & -> & Hp').
  apply list_elem_of_fmap in Hc as (c' & -> & Hc').
  exists p', c'. split; [done|]. split; [done|].
  rewrite Hup in H. by apply prefix_true in H.
Qed.

Lemma any_entries_nonempty col e :
  AnyText.strip_of_empty T ->
  e ∈ AnyText.entries T col -> truthy (or_empty col) = true.
Proof.
  intros Hst He. destruct (or_empty col) eqn:E; [|done].
  unfold AnyText.entries in He. rewrite E in He. simpl in He.
  rewrite Hst in He. by apply elem_of_nil in He.
Qed.

Lemma any_area_filter_iff rfq s :
  AnyText.upper_idempotent T -> AnyText.strip_of_empty T ->
  AnyText.postcode_matches T (or_empty (delivery_postcodes s))
    (AnyText.rfq_postcodes_of T rfq) = true
  <-> exists p c,
        p ∈ AnyText.entries T (delivery_postcodes s)
        /\ c ∈ AnyText.entries T (postcodes rfq)
        /\ AnyText.ci_prefix T p c.
Proof.
  intros Hup Hst. split; [by apply any_area_filter_passed|].
  intros (p & c & Hp & Hc & H). apply any_postcode_matches_true.
  split; [by eapply any_entries_nonempty|].
  exists (upper p), (upper c). unfold AnyText.rfq_postcodes_of.
  rewrite !any_csv_tokens_entries, !any_entries_or_empty, Hup.
  split; [by apply list_elem_of_fmap_2|].
  split; [by apply list_elem_of_fmap_2|]. by apply prefix_true.
Qed.

(** *** The welfare filter *)

Lemma any_wanted_welfare rfq w :
  AnyText.wanted_welfare_of T rfq = Some w <-> AnyText.requires_welfare T rfq w.
Proof.
  unfold AnyText.wanted_welfare_of, AnyText.requires_welfare.
  destruct (strip (lower (or_empty (welfare rfq)))) as [|a r] eqn:E; simpl.
  - split; [done|]. by intros [-> ?].
  - split; [by intros [= <-]|]. by intros [-> _].
Qed.

Lemma any_wanted_welfare_None rfq :
  AnyText.wanted_welfare_of T rfq = None
  <-> forall w, ~ AnyText.requires_welfare T rfq w.
Proof.
  split.
  - intros H w Hw%any_wanted_welfare. congruence.
  - intros H. destruct (AnyText.wanted_welfare_of T rfq) as [w|] eqn:E; [|done].
    apply any_wanted_welfare in E. by apply H in E.
Qed.

Lemma any_welfare_rejects_iff rfq s w :
  AnyText.lower_idempotent T -> AnyText.lower_commutes_with_strip T ->
  AnyText.requires_welfare T rfq w ->
  AnyText.welfare_rejects T rfq s = false
  <-> AnyText.ci_substring T w (or_empty (s_welfare s)).
Proof.
  intros Hid Hst Hw. unfold AnyText.welfare_rejects, AnyText.ci_substring.
  rewrite (proj2 (any_wanted_welfare rfq w) Hw), negb_false_iff.
  assert (lower w = w) as -> by (destruct Hw as [-> _]; by rewrite Hst, Hid).
  apply contains_true.
Qed.

Lemma any_welfare_rejects_none rfq s :
  (forall w, ~ AnyText.requires_welfare T rfq w) ->
  AnyText.welfare_rejects T rfq s = false.
Proof.
  intros H%any_wanted_welfare_None. unfold AnyText.welfare_rejects. by rewrite H.
Qed.

(** *** Coverage *)

Lemma any_sizes_of s x :
  upper x ∈ AnyText.sizes_of T s <-> AnyText.supports_size T s x.
Proof.
  unfold AnyText.sizes_of, AnyText.supports_size.
  rewrite elem_of_list_to_set, any_csv_tokens_entries, any_entries_or_empty.
  rewrite list_elem_of_fmap, Exists_exists.
  split; intros (e & H1 & H2); exists e; done.
Qed.

Lemma any_packs_of s p :
  lower p ∈ AnyText.packs_of T s <-> AnyText.supports_pack T s p.
Proof.
  unfold AnyText.packs_of, AnyText.supports_pack.
  rewrite elem_of_list_to_set, any_csv_tokens_entries, any_entries_or_empty.
  rewrite list_elem_of_fmap, Exists_exists.
  split; intros (e & H1 & H2); exists e; done.
Qed.

(** The coverage loop counts an item exactly when it is covered. *)
Lemma any_cover_step_spec s n it :
  AnyText.cover_step T s n it
  = if decide (AnyText.covers T s it) then n + 1 else n.
Proof.
  unfold AnyText.cover_step. rewrite Z.gtb_ltb.
  pose proof (any_sizes_of s (size it)) as Hs.
  pose proof (any_packs_of s (pack it)) as Hp.
  destruct (decide (AnyText.covers T s it)) as [Hc|Hc];
    unfold AnyText.covers, AnyText.is_mixed, AnyText.is_tray in Hc;
    destruct (bool_decide_reflect (upper (size it) ∈ AnyText.sizes_of T s)),
      (String.eqb_spec (upper (size it)) "MIXED"),
      (bool_decide_reflect (lower (pack it) ∈ AnyText.packs_of T s)),
      (String.eqb_spec (lower (pack it)) "tray"),
      (Z.ltb_spec (qty_week it) (default 0 (moq_trays s)));
      simpl in *; try done; try lia; exfalso; intuition (congruence || lia).
Qed.

Lemma any_fold_cover_step s items n :
  fold_left (AnyText.cover_step T s) items n
  = n + Z.of_nat (length (filter (AnyText.covers T s) items)).
Proof.
  revert n. induction items as [|it l IH]; intros n; simpl; [lia|].
  rewrite IH, any_cover_step_spec, filter_cons.
  case_decide; simpl; lia.
Qed.

Lemma any_can_cover_items_count s items :
  AnyText.can_cover_items T s items
  = Z.of_nat (length (filter (AnyText.covers T s) items)).
Proof. unfold AnyText.can_cover_items. by rewrite any_fold_cover_step. Qed.

(** For a quantity that is not negative the amended coverage is the
    coverage of the specification. *)
Lemma any_covers_claimed s it :
  0 <= qty_week it ->
  AnyText.covers T s it <-> AnyText.covers_as_claimed T s it.
Proof.
  intros Hq. unfold AnyText.covers, AnyText.covers_as_claimed.
  destruct (moq_trays s) as [m|]; simpl; [done|]. intuition lia.
Qed.

(** *** The delivery days *)

Lemma list_to_set_nil_iff (l : list string) :
  list_to_set (C := gset string) l = ∅ <-> l = [].
Proof.
  split; [|by intros ->]. destruct l as [|x l]; [done|].
  intros H. assert (x ∈ (∅ : gset string)) as Hx
    by (rewrite <- H; apply elem_of_list_to_set; left).
  by apply elem_of_empty in Hx.
Qed.

Lemma any_rfq_days rfq :
  AnyText.rfq_days_of T rfq = list_to_set (AnyText.required_days T rfq).
Proof.
  unfold AnyText.rfq_days_of, AnyText.required_days.
  by rewrite any_csv_tokens_entries.
Qed.

Lemma any_days_of s :
  AnyText.days_of T s = list_to_set (AnyText.supplier_days T s).
Proof.
  unfold AnyText.days_of, AnyText.supplier_days.
  by rewrite any_csv_tokens_entries, any_entries_or_empty.
Qed.

Lemma size_inter_lists (a b : list string) :
  base.size (list_to_set (C := gset string) a ∩ list_to_set b)
  = length (remove_dups (filter (fun d => d ∈ b) a)).
Proof.
  rewrite <- (size_list_to_set (C := gset string)
                (remove_dups (filter (fun d => d ∈ b) a)))
    by apply NoDup_remove_dups.
  f_equal. apply set_eq. intros d.
  rewrite elem_of_intersection, !elem_of_list_to_set, elem_of_remove_dups.
  rewrite list_elem_of_filter. tauto.
Qed.

(** The overlap that enters the score: the number of common days, or 1
    when the RFQ names no day. *)
Lemma any_overlap_of rfq s :
  AnyText.overlap_of T rfq s
  = if decide (AnyText.required_days T rfq = [])
    then 1
    else Z.of_nat (length (AnyText.common_days T rfq s)).
Proof.
  unfold AnyText.overlap_of, AnyText.common_days.
  rewrite any_rfq_days, any_days_of, size_inter_lists.
  case_bool_decide as H; case_decide as H'; try done.
  - rewrite H' in H. done.
  - exfalso. apply H'. apply list_to_set_nil_iff.
    destruct (decide (list_to_set (C := gset string)
                        (AnyText.required_days T rfq) = ∅)); [done|].
    by destruct H.
Qed.

(** *** The price bonus *)

Lemma any_t_price_of_first items t :
  AnyText.t_price_of T items = Some t <-> AnyText.first_target T items t.
Proof.
  unfold AnyText.first_target. induction items as [|it l IH]; simpl.
  - split; [done|]. by intros (i & it & H & _).
  - destruct (AnyText.parse_target T it) as [t'|] eqn:E.
    + split.
      * intros [= ->]. exists 0%nat, it. repeat split; [done|]. intros; lia.
      * intros (i & it' & Hi & Ht & Hfirst). destruct i as [|i].
        -- simpl in Hi. congruence.
        -- specialize (Hfirst 0%nat it ltac:(lia) eq_refl). congruence.
    + rewrite IH. split.
      * intros (i & it' & Hi & Ht & Hfirst). exists (S i), it'.
        repeat split; [done..|]. intros [|j] it2 Hj Hit2; simpl in Hit2.
        -- congruence.
        -- eapply Hfirst; [|done]. lia.
      * intros (i & it' & Hi & Ht & Hfirst). destruct i as [|i].
        -- simpl in Hi. congruence.
        -- exists i, it'. repeat split; [done..|]. intros j it2 Hj Hit2.
           apply (Hfirst (S j)); [lia|done].
Qed.

Lemma any_price_bonus_cases s items :
  (AnyText.price_bonus T s items = 2
   /\ exists t, AnyText.first_target T items t /\ in_price_band s t)
  \/ (AnyText.price_bonus T s items = 0
      /\ ~ exists t, AnyText.first_target T items t /\ in_price_band s t).
Proof.
  unfold AnyText.price_bonus, in_price_band.
  destruct (AnyText.t_price_of T items) as [t|] eqn:Et.
  - destruct (price_band_low s) as [lo|] eqn:Elo;
      [destruct (price_band_high s) as [hi|] eqn:Ehi|].
    + destruct ((lo <=? t)%float) eqn:E1; [destruct ((t <=? hi)%float) eqn:E2|];
        simpl.
      * left. split; [done|]. exists t. split; [by apply any_t_price_of_first|].
        by exists lo, hi.
      * right. split; [done|].
        intros (t' & Ht' & lo' & hi' & [= <-] & [= <-] & H1 & H2).
        apply any_t_price_of_first in Ht'. congruence.
      * right. split; [done|].
        intros (t' & Ht' & lo' & hi' & [= <-] & [= <-] & H1 & H2).
        apply any_t_price_of_first in Ht'. congruence.
    + right. split; [done|]. by intros (t' & _ & lo' & hi' & _ & ? & _).
    + right. split; [done|]. by intros (t' & _ & lo' & hi' & ? & _).
  - right. split; [done|]. intros (t' & Ht' & _).
    apply any_t_price_of_first in Ht'. congruence.
Qed.

End AnyTextFacts.

(** The text functions of [Py] have the laws, and with them the Matcher
    on any text is the Matcher of the first part. *)
Lemma ascii_upper_idempotent : AnyText.upper_idempotent ascii_ops.
Proof. exact upper_idemp. Qed.

Lemma ascii_lower_idempotent : AnyText.lower_idempotent ascii_ops.
Proof. exact lower_idemp. Qed.

Lemma ascii_lower_commutes_with_strip : AnyText.lower_commutes_with_strip ascii_ops.
Proof. exact lower_strip. Qed.

Lemma ascii_strip_of_empty : AnyText.strip_of_empty ascii_ops.
Proof. reflexivity. Qed.

Lemma matcher_at_ascii rfq items suppliers :
  AnyText.rank_suppliers_for_rfq ascii_ops rfq items suppliers
  = rank_suppliers_for_rfq rfq items suppliers.
Proof. reflexivity. Qed.

(** [ci_prefix] is decided by [String.prefix] on the upper-case forms. *)
Lemma any_ci_prefix_iff T p c :
  AnyText.ci_prefix T p c
  <-> String.prefix (AnyText.str_upper T p) (AnyText.str_upper T c) = true.
Proof. unfold AnyText.ci_prefix. by rewrite prefix_true. Qed.

Lemma any_ci_substring_iff T sub s :
  AnyText.ci_substring T sub s
  <-> contains (AnyText.str_lower T sub) (AnyText.str_lower T s) = true.
Proof. unfold AnyText.ci_substring. by rewrite contains_true. Qed.


(** ** The Matcher: filters *)

(** C5.  A supplier none of whose delivery-area prefixes is a
    case-insensitive prefix of a delivery-area code of the RFQ does not
    appear in the Matcher's output, whatever its other columns, the line
    items and the other suppliers are.  The prefixes and the codes are
    the entries of the two columns; the statement holds for every text,
    [str.upper] being idempotent. *)
Theorem area_filter_excludes (T : AnyText.TextOps) rfq items suppliers s :
  AnyText.upper_idempotent T ->
  (forall p c,
     p ∈ AnyText.entries T (delivery_postcodes s) ->
     c ∈ AnyText.entries T (postcodes rfq) ->
     ~ AnyText.ci_prefix T p c) ->
  ~ listed s (AnyText.rank_suppliers_for_rfq T rfq items suppliers).
Proof.
  intros Hup Hno Hl. apply any_listed_iff in Hl as (_ & Ha & _).
  apply (any_area_filter_passed T rfq s Hup) in Ha as (p & c & Hp & Hc & Hpc).
  by apply (Hno p c).
Qed.

Lemma area_filter_excludes_witness :
  let out := AnyText.rank_suppliers_for_rfq ascii_ops rfq_bn1 [item_l_tray]
               [supplier_a; supplier_b] in
  ~ listed supplier_b out
  /\ out = [ {| supplier_row := supplier_a; score := 12 |} ].
Proof.
  intros out. split; [|reflexivity].
  apply area_filter_excludes; [exact ascii_upper_idempotent|].
  intros p c Hp Hc Hpc%any_ci_prefix_iff.
  vm_compute in Hp, Hc.
  apply list_elem_of_singleton in Hp as ->.
  apply list_elem_of_singleton in Hc as ->.
  vm_compute in Hpc. discriminate Hpc.
Defined.

(** C10.  When the RFQ has no delivery-area code the Matcher returns the
    empty list for every supplier list, and a supplier without any
    delivery-area prefix is excluded for every RFQ. *)
Theorem empty_area_sets rfq items suppliers :
  (area_codes rfq = [] -> rank_suppliers_for_rfq rfq items suppliers = [])
  /\ (forall s, area_prefixes s = [] ->
        ~ listed s (rank_suppliers_for_rfq rfq items suppliers)).
Proof.
  split.
  - intros Hnil. apply elem_of_nil_inv. intros r Hr.
    apply elem_of_ranked in Hr as (s & _ & Hone).
    apply rank_one_Some in Hone as (Ha & _).
    apply area_filter_iff in Ha as (p & c & _ & Hc & _).
    rewrite Hnil in Hc. by apply elem_of_nil in Hc.
  - intros s Hnil Hl. apply listed_iff in Hl as (_ & Ha & _).
    apply area_filter_iff in Ha as (p & c & Hp & _).
    rewrite Hnil in Hp. by apply elem_of_nil in Hp.
Qed.

Lemma empty_area_sets_witness :
  rank_suppliers_for_rfq rfq_no_area [item_l_tray] [supplier_a; supplier_b] = []
  /\ ~ listed supplier_nowhere
         (rank_suppliers_for_rfq rfq_bn1 [item_l_tray]
            [supplier_nowhere; supplier_a]).
Proof.
  split.
  - apply (empty_area_sets rfq_no_area [item_l_tray] [supplier_a; supplier_b]).
    reflexivity.
  - apply (empty_area_sets rfq_bn1 [item_l_tray] [supplier_nowhere; supplier_a]).
    reflexivity.
Defined.

(** C6.  When the RFQ states a welfare requirement, a supplier whose
    welfare label does not contain it as a case-insensitive substring is
    excluded and one whose label contains it passes this filter; without
    a requirement no supplier is excluded on this axis.  The requirement
    "organic" excludes the label "free-range" and admits "Organic, Lion"
    in any case.  The statement holds for every text, [str.lower] being
    idempotent and commuting with [str.strip]. *)
Theorem welfare_filter (T : AnyText.TextOps) rfq items suppliers s :
  AnyText.lower_idempotent T -> AnyText.lower_commutes_with_strip T ->
  let out := AnyText.rank_suppliers_for_rfq T rfq items suppliers in
  let label := or_empty (s_welfare s) in
  let others_pass :=
    s ∈ suppliers
    /\ AnyText.postcode_matches T (or_empty (delivery_postcodes s))
         (AnyText.rfq_postcodes_of T rfq) = true
    /\ AnyText.can_cover_items T s items <> 0 in
  (forall w, AnyText.requires_welfare T rfq w ->
     (~ AnyText.ci_substring T w label -> ~ listed s out)
     /\ (AnyText.ci_substring T w label -> others_pass -> listed s out))
  /\ ((forall w, ~ AnyText.requires_welfare T rfq w) ->
      others_pass -> listed s out)
  /\ (AnyText.requires_welfare T rfq "organic" ->
      (AnyText.str_lower T label = "free-range" -> ~ listed s out)
      /\ (AnyText.str_lower T label = "organic, lion" ->
          others_pass -> listed s out)).
Proof.
  intros Hid Hst out label others_pass.
  assert (forall w, AnyText.requires_welfare T rfq w ->
     (~ AnyText.ci_substring T w label -> ~ listed s out)
     /\ (AnyText.ci_substring T w label -> others_pass -> listed s out))
    as Hreq.
  { intros w Hw. split.
    - intros Hno Hl. apply any_listed_iff in Hl as (_ & _ & Hrej & _).
      by apply (any_welfare_rejects_iff T rfq s w Hid Hst Hw) in Hrej.
    - intros Hsub (Hs & Ha & Hc). apply any_listed_iff. repeat split; try done.
      by apply (any_welfare_rejects_iff T rfq s w Hid Hst Hw). }
  split; [exact Hreq|]. split.
  - intros Hw (Hs & Ha & Hc). apply any_listed_iff. repeat split; try done.
    by apply any_welfare_rejects_none.
  - intros Horg. destruct (Hreq _ Horg) as [Hex Hin].
    assert (AnyText.str_lower T "organic" = "organic") as Hlow.
    { destruct Horg as [Horg _]. rewrite Horg at 1. by rewrite Hst, Hid. }
    split.
    + intros Hlab. apply Hex. rewrite any_ci_substring_iff, Hlow.
      fold label. by rewrite Hlab.
    + intros Hlab. apply Hin. rewrite any_ci_substring_iff, Hlow.
      fold label. by rewrite Hlab.
Qed.

Lemma welfare_filter_witness :
  let out := AnyText.rank_suppliers_for_rfq ascii_ops rfq_organic [item_l_tray]
               [supplier_a; supplier_b] in
  ~ listed supplier_a out
  /\ listed supplier_b out
  /\ listed supplier_a
       (AnyText.rank_suppliers_for_rfq ascii_ops rfq_bn1 [item_l_tray]
          [supplier_a; supplier_b]).
Proof.
  intros out.
  pose proof (welfare_filter ascii_ops rfq_organic [item_l_tray]
                [supplier_a; supplier_b] supplier_a
                ascii_lower_idempotent ascii_lower_commutes_with_strip)
    as (_ & _ & Ha).
  pose proof (welfare_filter ascii_ops rfq_organic [item_l_tray]
                [supplier_a; supplier_b] supplier_b
                ascii_lower_idempotent ascii_lower_commutes_with_strip)
    as (_ & _ & Hb).
  pose proof (welfare_filter ascii_ops rfq_bn1 [item_l_tray]
                [supplier_a; supplier_b] supplier_a
                ascii_lower_idempotent ascii_lower_commutes_with_strip)
    as (_ & Hnone & _).
  split; [|split].
  - apply Ha; [by split|reflexivity].
  - apply Hb; [by split|reflexivity|].
    split; [repeat constructor|]. split; [reflexivity|by vm_compute].
  - apply Hnone.
    + intros w [Hw Hne]. vm_compute in Hw. by subst.
    + split; [repeat constructor|]. split; [reflexivity|by vm_compute].
Defined.

(** ** The Matcher: coverage, score and order *)

(** C2 (amended).  The Matcher counts a line item as covered by a
    supplier exactly when the item's size is supported or is "Mixed",
    its pack format is supported, and, for a tray item, the supplier's
    minimum order quantity, taken as 0 when the supplier has none, does
    not exceed the weekly quantity; a supplier that covers no line item
    is not in the output.  For a quantity that is not negative this is
    the coverage of the specification.  With a minimum of 40 trays a
    tray item of 30 per week is not covered, and one of 40 or more is
    covered as soon as its size and pack are supported. *)
Theorem coverage_rule (T : AnyText.TextOps) rfq items suppliers s :
  (forall n it,
     (AnyText.covers T s it -> AnyText.cover_step T s n it = n + 1)
     /\ (~ AnyText.covers T s it -> AnyText.cover_step T s n it = n))
  /\ AnyText.can_cover_items T s items
     = Z.of_nat (length (filter (AnyText.covers T s) items))
  /\ (filter (AnyText.covers T s) items = [] ->
      ~ listed s (AnyText.rank_suppliers_for_rfq T rfq items suppliers))
  /\ (forall it, 0 <= qty_week it ->
        AnyText.covers T s it <-> AnyText.covers_as_claimed T s it)
  /\ (moq_trays s = Some 40 ->
      forall it, AnyText.is_tray T (pack it) ->
        (qty_week it = 30 -> ~ AnyText.covers T s it)
        /\ (40 <= qty_week it ->
            AnyText.supports_size T s (size it) \/ AnyText.is_mixed T (size it) ->
            AnyText.supports_pack T s (pack it) -> AnyText.covers T s it)).
Proof.
  split; [|split; [|split; [|split]]].
  - intros n it. rewrite any_cover_step_spec. split; intros H; by case_decide.
  - apply any_can_cover_items_count.
  - intros Hnil Hl. apply any_listed_iff in Hl as (_ & _ & _ & Hc).
    apply Hc. by rewrite any_can_cover_items_count, Hnil.
  - intros it. apply any_covers_claimed.
  - intros Hmoq it Htray. unfold AnyText.covers. rewrite Hmoq. simpl. split.
    + intros H30 (_ & _ & H). specialize (H Htray). lia.
    + intros H40 Hsize Hpack. done.
Qed.

Lemma coverage_rule_witness :
  let items := [item_l_tray; item_l_box; item_priced; item_l_tray_30] in
  filter (AnyText.covers ascii_ops supplier_banded) items
  = [item_l_tray; item_l_box; item_priced]
  /\ AnyText.can_cover_items ascii_ops supplier_banded items = 3
  /\ AnyText.can_cover_items ascii_ops supplier_boxes items = 1
  /\ ~ listed supplier_a
         (AnyText.rank_suppliers_for_rfq ascii_ops rfq_bn1 [item_l_box]
            [supplier_a]).
Proof.
  intros items. split; [by vm_compute|].
  pose proof (coverage_rule ascii_ops rfq_bn1 items [] supplier_banded)
    as (_ & Hbanded & _).
  pose proof (coverage_rule ascii_ops rfq_bn1 items [] supplier_boxes)
    as (_ & Hboxes & _).
  pose proof (coverage_rule ascii_ops rfq_bn1 [item_l_box] [supplier_a] supplier_a)
    as (_ & _ & Hnone & _).
  split; [exact Hbanded|]. split; [exact Hboxes|]. apply Hnone. by vm_compute.
Defined.

(** The coverage of the specification fails on the code: a supplier
    without minimum order quantity, which supports size L and trays,
    covers a tray item of size L for every quantity as the claim words
    it, and the coverage loop does not count the item of quantity -1. *)
Lemma coverage_rule_counterexample :
  AnyText.covers_as_claimed ascii_ops supplier_alpha item_negative
  /\ AnyText.cover_step ascii_ops supplier_alpha 0 item_negative = 0
  /\ AnyText.can_cover_items ascii_ops supplier_alpha [item_negative] = 0.
Proof.
  split; [apply (bool_decide_unpack _); by vm_compute|]. split; reflexivity.
Qed.

(** C3 (amended).  The score of every supplier in the output is ten
    times the number of covered line items (a missing minimum order
    quantity counting as 0, as in C2), plus twice the number of days
    common to the RFQ and the supplier (counted as 1 when the RFQ names
    no day), plus a bonus that is 2 exactly when the first line item
    with a parseable target price exists, the supplier declares both
    ends of its price band and the target lies in the band, ends
    included, and is 0 otherwise. *)
Theorem score_formula (T : AnyText.TextOps) rfq items suppliers r :
  r ∈ AnyText.rank_suppliers_for_rfq T rfq items suppliers ->
  let s := supplier_row r in
  let covered := Z.of_nat (length (filter (AnyText.covers T s) items)) in
  let overlap :=
    if decide (AnyText.required_days T rfq = []) then 1
    else Z.of_nat (length (AnyText.common_days T rfq s)) in
  exists bonus,
    score r = 10 * covered + 2 * overlap + bonus
    /\ (bonus = 2 \/ bonus = 0)
    /\ (bonus = 2
        <-> exists t, AnyText.first_target T items t /\ in_price_band s t).
Proof.
  intros Hr. apply any_elem_of_ranked in Hr as (s' & _ & Hone).
  apply any_rank_one_Some in Hone as (_ & _ & _ & ->). simpl.
  exists (AnyText.price_bonus T s' items). split.
  - rewrite any_overlap_of, any_can_cover_items_count. lia.
  - destruct (any_price_bonus_cases T s' items) as [[-> H]|[-> H]].
    + split; [by left|]. done.
    + split; [by right|]. split; [lia|done].
Qed.

Lemma score_formula_witness :
  let items := [item_l_tray; item_priced] in
  let suppliers := [supplier_boxes; supplier_banded; supplier_alpha] in
  AnyText.rank_suppliers_for_rfq ascii_ops rfq_tue_fri items suppliers
  = [ {| supplier_row := supplier_banded; score := 26 |};
      {| supplier_row := supplier_alpha; score := 20 |} ]
  /\ AnyText.rank_suppliers_for_rfq ascii_ops rfq_tue_fri [item_l_tray] suppliers
     = [ {| supplier_row := supplier_banded; score := 14 |};
         {| supplier_row := supplier_alpha; score := 10 |} ]
  /\ AnyText.rank_suppliers_for_rfq ascii_ops rfq_tue_fri [item_l_box] suppliers
     = [ {| supplier_row := supplier_banded; score := 14 |};
         {| supplier_row := supplier_boxes; score := 12 |} ]
  /\ AnyText.common_days ascii_ops rfq_tue_fri supplier_banded = ["Tue"; "Fri"]
  /\ AnyText.common_days ascii_ops rfq_tue_fri supplier_boxes = ["Fri"]
  /\ AnyText.common_days ascii_ops rfq_tue_fri supplier_alpha = []
  /\ exists bonus,
       26 = 10 * 2 + 2 * 2 + bonus
       /\ (bonus = 2 \/ bonus = 0)
       /\ (bonus = 2
           <-> exists t,
                 AnyText.first_target ascii_ops items t
                 /\ in_price_band supplier_banded t).
Proof.
  intros items suppliers. do 6 (split; [by vm_compute|]).
  assert ({| supplier_row := supplier_banded; score := 26 |}
            ∈ AnyText.rank_suppliers_for_rfq ascii_ops rfq_tue_fri items suppliers)
    as Hin by (vm_compute; left).
  exact (score_formula ascii_ops _ _ _ _ Hin).
Defined.

(** The score of the specification fails on the code: supplier Alpha
    Farm has no minimum order quantity and covers both tray items as
    the claim words it, so that the claim gives at least 10 * 2 + 2 * 1,
    and its score in the output is 12, the item of quantity -1 not
    being counted. *)
Lemma score_formula_counterexample :
  let items := [item_negative; item_l_tray] in
  AnyText.rank_suppliers_for_rfq ascii_ops rfq_bn1 items [supplier_alpha]
  = [ {| supplier_row := supplier_alpha; score := 12 |} ]
  /\ length (filter (AnyText.covers_as_claimed ascii_ops supplier_alpha) items)
     = 2%nat
  /\ AnyText.required_days ascii_ops rfq_bn1 = []
  /\ forall bonus, bonus = 2 \/ bonus = 0 -> 12 <> 10 * 2 + 2 * 1 + bonus.
Proof.
  intros items. split; [by vm_compute|]. split; [by vm_compute|].
  split; [by vm_compute|]. intros bonus [-> | ->]; lia.
Qed.


(** C4.  The Matcher's output is in descending order of score, ties in
    ascending order of name: of any two entries the earlier has the
    strictly higher score, or the same score and a name that is less
    than or equal to the later's.  Two suppliers of equal score named
    "Alpha Farm" and "Beta Farm" come out in this order. *)
Theorem ranking_order rfq items suppliers :
  let out := rank_suppliers_for_rfq rfq items suppliers in
  (forall i j a b, (i < j)%nat -> out !! i = Some a -> out !! j = Some b ->
     score b < score a
     \/ (score a = score b
         /\ String.le (name (supplier_row a)) (name (supplier_row b))))
  /\ (forall sa sb ra rb,
        name sa = "Alpha Farm" -> name sb = "Beta Farm" ->
        rank_one rfq items sa = Some ra -> rank_one rfq items sb = Some rb ->
        score ra = score rb ->
        rank_suppliers_for_rfq rfq items [sb; sa] = [ra; rb]
        /\ rank_suppliers_for_rfq rfq items [sa; sb] = [ra; rb]).
Proof.
  intros out. split.
  - intros i j a b Hij Ha Hb. apply rank_le_key.
    exact (StronglySorted_lookup_lt _ _ _ _ _ _
             (ranked_sorted rfq items suppliers) Hij Ha Hb).
  - intros sa sb ra rb Hna Hnb Ha Hb Hsc.
    assert (name (supplier_row ra) = "Alpha Farm") as Hra.
    { apply rank_one_Some in Ha as (_ & _ & _ & ->). done. }
    assert (name (supplier_row rb) = "Beta Farm") as Hrb.
    { apply rank_one_Some in Hb as (_ & _ & _ & ->). done. }
    unfold rank_suppliers_for_rfq. simpl. rewrite Ha, Hb. simpl.
    unfold sort_by, key_lt, rank_key. simpl.
    rewrite Hra, Hrb, Hsc, !Z.eqb_refl. done.
Qed.

Lemma ranking_order_witness :
  let out := rank_suppliers_for_rfq rfq_bn1 [item_l_tray]
               [supplier_beta; supplier_a; supplier_alpha] in
  (forall a b, out !! 0%nat = Some a -> out !! 2%nat = Some b ->
     score b < score a
     \/ (score a = score b
         /\ String.le (name (supplier_row a)) (name (supplier_row b))))
  /\ rank_suppliers_for_rfq rfq_bn1 [item_l_tray] [supplier_beta; supplier_alpha]
     = [ {| supplier_row := supplier_alpha; score := 12 |};
         {| supplier_row := supplier_beta; score := 12 |} ].
Proof.
  intros out. split.
  - intros a b.
    apply (ranking_order rfq_bn1 [item_l_tray]
             [supplier_beta; supplier_a; supplier_alpha]). lia.
  - destruct (ranking_order rfq_bn1 [item_l_tray] []) as [_ Hab].
    apply (Hab supplier_alpha supplier_beta); reflexivity.
Defined.

(** The end-to-end scenario: supplier B fails the area filter and the
    Matcher returns A alone, with one covered item and the baseline day
    bonus. *)
Example end_to_end_scenario :
  rank_suppliers_for_rfq rfq_bn1 [item_l_tray] [supplier_a; supplier_b]
  = [ {| supplier_row := supplier_a; score := 12 |} ].
Proof. by vm_compute. Qed.


(** ** The Cost Normalizer *)

(** [round(x, 4)] rounds to four decimal places. *)
Lemma round_half_even_nearest num den :
  0 < den ->
  let n := round_half_even num den in
  2 * Z.abs (num - n * den) <= den
  /\ (2 * Z.abs (num - n * den) = den -> Z.even n = true).
Proof.
  intros Hden. unfold round_half_even.
  pose proof (Z.div_mod num den ltac:(lia)) as Hdm.
  pose proof (Z.mod_pos_bound num den Hden) as Hr.
  destruct (Z.compare_spec (2 * (num mod den)) den) as [E|E|E].
  - destruct (Z.even (num / den)) eqn:Ev.
    + split; [|done]. nia.
    + split; [nia|]. intros _.
      replace (num / den + 1) with (Z.succ (num / den)) by lia.
      by rewrite Z.even_succ, <- Z.negb_even, Ev.
  - split; [nia|]. nia.
  - split; [nia|]. nia.
Qed.

Lemma round4_rounded4 x : rounded4 x (round4 x).
Proof.
  unfold rounded4, round4. destruct (Prim2SF x) as [| | |s m e]; try done.
  cbv zeta.
  set (num := Z.pos m * 10000 * 2 ^ Z.max e 0).
  set (den := 2 ^ Z.max (- e) 0).
  assert (0 < den) as Hden by (apply Z.pow_pos_nonneg; lia).
  destruct (round_half_even_nearest num den Hden) as [H1 H2].
  exists (round_half_even num den). done.
Qed.

(** C1 (amended).  For every quote the Cost Normalizer either raises
    (the line-item index lies before the start of the list, or the
    weekly quantity is beyond the doubles) or builds a row.  With [qty]
    the weekly quantity of the resolved line item, [deliveryPerUnit] is
    the delivery cost divided by [qty] when [qty] is not 0, also when
    it is negative, and 0 when it is 0; [landedPerUnit] is the unit
    price plus [deliveryPerUnit]; the row carries both rounded to four
    decimal places and is in the result.  Unit price 2.50, delivery
    cost 20.00 and quantity 40 give 0.5 and 3.0 in the row. *)
Theorem landed_cost items q :
  match compare_row items q with
  | inr row =>
      exists it deliveryPerUnit,
        index_or items (default 0 (line_item_index q)) placeholder = inr it
        /\ let qty := qty_week it in
           let deliveryCost := float_or_zero (delivery_cost q) in
           let unitPrice := float_or_zero (unit_price q) in
           let landedPerUnit := (unitPrice + deliveryPerUnit)%float in
           row_qty_week row = qty
           /\ (qty = 0 -> deliveryPerUnit = 0%float)
           /\ (qty <> 0 ->
               exists fq, float_of_int qty = inr fq
                          /\ deliveryPerUnit = (deliveryCost / fq)%float)
           /\ rounded4 deliveryPerUnit (delivery_per_unit row)
           /\ rounded4 landedPerUnit (landed_per_unit row)
           /\ (forall quotes rows,
                 q ∈ quotes -> compare_rows items quotes = inr rows ->
                 row ∈ rows)
           /\ (unit_price q = Some 2.5%float ->
               delivery_cost q = Some 20%float -> qty = 40 ->
               delivery_per_unit row = 0.5%float
               /\ landed_per_unit row = 3%float)
  | inl e =>
      index_or items (default 0 (line_item_index q)) placeholder = inl e
      \/ exists it,
           index_or items (default 0 (line_item_index q)) placeholder = inr it
           /\ qty_week it <> 0
           /\ float_of_int (qty_week it) = inl e
  end.
Proof.
  destruct (compare_row items q) as [e|row] eqn:Hrow.
  - unfold compare_row in Hrow.
    destruct (index_or items _ placeholder) as [e'|it]; simpl in Hrow;
      [left; congruence|].
    right. exists it. split; [done|]. unfold del_per_of in Hrow.
    destruct (Z.eqb_spec (qty_week it) 0); [done|]. split; [done|].
    destruct (float_of_int (qty_week it)); simpl in Hrow; [congruence|done].
  - pose proof Hrow as Hrow'. unfold compare_row in Hrow.
    destruct (index_or items _ placeholder) as [e'|it]; simpl in Hrow; [done|].
    destruct (del_per_of q (qty_week it)) as [e'|dpu] eqn:Hdel;
      simpl in Hrow; [done|].
    injection Hrow as <-. exists it, dpu. split; [done|]. cbv zeta.
    cbn [row_qty_week delivery_per_unit landed_per_unit].
    unfold del_per_of in Hdel.
    split; [done|]. split; [|split; [|split; [|split; [|split]]]].
    + intros E. rewrite E in Hdel. by injection Hdel as <-.
    + intros E. destruct (Z.eqb_spec (qty_week it) 0); [done|].
      destruct (float_of_int (qty_week it)) as [e'|fq]; [done|].
      exists fq. split; [done|]. by injection Hdel as <-.
    + apply round4_rounded4.
    + apply round4_rounded4.
    + intros quotes rows Hin Hrows.
      by eapply compare_rows_row.
    + intros Hu Hd H40. rewrite H40, Hd in Hdel. vm_compute in Hdel.
      injection Hdel as <-. unfold landed_of. rewrite Hu.
      split; reflexivity.
Qed.

Lemma landed_cost_witness :
  (exists row,
     compare_row [item_l_tray; item_40] (quote_for 1 2.5 20) = inr row
     /\ row_qty_week row = 40
     /\ delivery_per_unit row = 0.5%float
     /\ landed_per_unit row = 3%float)
  /\ (exists row,
        compare_row [item_3] (quote_for 0 2.5 20) = inr row
        /\ delivery_per_unit row = 6.6667%float
        /\ landed_per_unit row = 9.1667%float
        /\ rounded4 (20 / 3) 6.6667
        /\ rounded4 (2.5 + 20 / 3) 9.1667).
Proof.
  split.
  - pose proof (landed_cost [item_l_tray; item_40] (quote_for 1 2.5 20)) as H.
    destruct (compare_row [item_l_tray; item_40] (quote_for 1 2.5 20))
      as [e|row] eqn:E; [by vm_compute in E|].
    destruct H as (it & dpu & Hit & Hq & _ & _ & _ & _ & _ & Hex).
    vm_compute in Hit. injection Hit as <-.
    exists row. split; [done|]. split; [done|]. by apply Hex.
  - pose proof (landed_cost [item_3] (quote_for 0 2.5 20)) as H.
    destruct (compare_row [item_3] (quote_for 0 2.5 20))
      as [e|row] eqn:E; [by vm_compute in E|].
    destruct H as (it & dpu & Hit & _ & _ & Hdiv & Hr1 & Hr2 & _).
    vm_compute in Hit. injection Hit as <-.
    destruct Hdiv as (fq & Hfq & ->); [done|].
    vm_compute in Hfq. injection Hfq as <-.
    vm_compute in E. injection E as <-.
    exists {| supplier := "A"; line_item_label := "wholesale L tray";
              row_unit_price := 2.5; row_delivery_cost := 20;
              row_qty_week := 3; delivery_per_unit := 6.6667;
              landed_per_unit := 9.1667; row_lead_time_days := Some 2;
              row_hold_weeks := Some 4; row_remarks := None |}.
    split; [reflexivity|]. split; [reflexivity|]. split; [reflexivity|].
    split; [exact Hr1|exact Hr2].
Defined.

(** The claim fails on the code for a negative quantity: the quote
    divides by it, where the claim gives 0. *)
Lemma landed_cost_counterexample :
  exists row,
    compare_row [item_minus_4] (quote_for 0 2.5 20) = inr row
    /\ row_qty_week row = -4
    /\ delivery_per_unit row = (-5)%float
    /\ landed_per_unit row = (-2.5)%float
    /\ (delivery_per_unit row =? 0)%float = false.
Proof. eexists. split; [by vm_compute|]. by vm_compute. Qed.

(** C7 (amended).  The rows of the result are in ascending order of
    [landed_per_unit] whenever every value is a number: of two adjacent
    rows the earlier one's value is less than or equal to the later
    one's.  Rows with the values 3.00, 2.80 and 3.10 come out as 2.80,
    3.00, 3.10. *)
Theorem comparison_order items quotes rows :
  compare_rows items quotes = inr rows ->
  Forall (fun r => is_number (landed_per_unit r)) rows ->
  (forall i a b, rows !! i = Some a -> rows !! S i = Some b ->
     (landed_per_unit a <=? landed_per_unit b)%float = true)
  /\ (forall qa qb qc ra rb rc,
        quotes = [qa; qb; qc] ->
        compare_row items qa = inr ra -> landed_per_unit ra = 3%float ->
        compare_row items qb = inr rb -> landed_per_unit rb = 2.8%float ->
        compare_row items qc = inr rc -> landed_per_unit rc = 3.1%float ->
        rows = [rb; ra; rc]).
Proof.
  intros Hrows Hnum. split.
  - apply compare_rows_inr in Hrows as (rows0 & _ & ->).
    intros i a b Ha Hb.
    apply (Sorted_lookup_adjacent
             (fun x y => (landed_per_unit x <=? landed_per_unit y)%float = true)
             (sort_by landed_per_unit PrimFloat.ltb rows0) i a b); [|done..].
    apply (sort_by_Sorted landed_per_unit PrimFloat.ltb is_number
             (fun x y => (x <=? y)%float = true)).
    + intros x y _ _. apply float_ltb_leb.
    + intros x y. apply float_nltb_leb.
    + by rewrite <- (sort_by_perm landed_per_unit PrimFloat.ltb rows0).
  - intros qa qb qc ra rb rc -> Ha Hla Hb Hlb Hc Hlc.
    unfold compare_rows in Hrows. simpl in Hrows.
    rewrite Ha, Hb, Hc in Hrows. simpl in Hrows.
    destruct ra, rb, rc. simpl in Hla, Hlb, Hlc. subst.
    vm_compute in Hrows. congruence.
Qed.

Lemma comparison_order_witness :
  compare_rows [item_40] sample_quotes = inr sample_rows
  /\ (landed_per_unit <$> sample_rows = [2.8; 3; 3.125]%float)
  /\ forall i a b, sample_rows !! i = Some a -> sample_rows !! S i = Some b ->
        (landed_per_unit a <=? landed_per_unit b)%float = true.
Proof.
  assert (compare_rows [item_40] sample_quotes = inr sample_rows) as E
    by (vm_compute; reflexivity).
  split; [exact E|]. split; [reflexivity|].
  apply (comparison_order [item_40] sample_quotes sample_rows E).
  repeat constructor.
Defined.

(** The claim fails on the code when a landed cost is not a number: an
    infinite unit price with an infinite negative delivery cost gives
    NaN, and no row can stand next to it in order.  The two rows come
    out in the order of the quotes. *)
Lemma comparison_order_counterexample :
  exists a b,
    compare_rows [item_40] [quote_for 0 2 0; quote_infinite] = inr [a; b]
    /\ landed_per_unit a = 2%float
    /\ PrimFloat.is_nan (landed_per_unit b) = true
    /\ (landed_per_unit a <=? landed_per_unit b)%float = false.
Proof. do 2 eexists. split; [by vm_compute|]. by vm_compute. Qed.


(** C8 (the code departs from it).  A quote whose line-item index is
    negative gets no placeholder row.  When the index lies before the
    start of the line-item list the lookup raises [IndexError] and the
    comparison produces no row at all; otherwise the index is counted
    from the end of the list and the quote is priced against that line
    item. *)
Theorem negative_index_no_placeholder items q i :
  line_item_index q = Some i ->
  i < 0 ->
  (i < - Z.of_nat (length items) ->
   compare_rows items [q] = inl IndexError)
  /\ (- Z.of_nat (length items) <= i ->
      exists it,
        items !! Z.to_nat (i + Z.of_nat (length items)) = Some it
        /\ index_or items i placeholder = inr it).
Proof.
  intros Hi Hneg. split.
  - intros Hlt. unfold compare_rows. simpl.
    by rewrite (compare_row_before items q i Hi Hlt).
  - intros Hge.
    destruct (lookup_lt_is_Some_2 items (Z.to_nat (i + Z.of_nat (length items))))
      as [it Hit]; [lia|].
    exists it. split; [done|]. unfold index_or.
    destruct (Z.ltb_spec i (Z.of_nat (length items))); [|lia].
    destruct (Z.ltb_spec i 0); [|lia].
    destruct (Z.ltb_spec (i + Z.of_nat (length items)) 0); [lia|].
    by rewrite Hit.
Qed.

Lemma negative_index_no_placeholder_witness :
  compare_rows [] [quote_for (-1) 2.5 20] = inl IndexError
  /\ index_or [item_l_tray; item_40] (-1) placeholder = inr item_40.
Proof.
  split.
  - apply (negative_index_no_placeholder [] (quote_for (-1) 2.5 20) (-1));
      [reflexivity|lia|simpl; lia].
  - destruct (negative_index_no_placeholder [item_l_tray; item_40]
                (quote_for (-1) 2.5 20) (-1) eq_refl ltac:(lia)) as [_ H].
    destruct H as (it & Hit & Hidx); [simpl; lia|].
    simpl in Hit. injection Hit as <-. exact Hidx.
Defined.

(** C9 (the code departs from it).  The Cost Normalizer raises for a
    quote whose line-item index lies before the start of the line-item
    list, whatever the other quotes are. *)
Theorem normalizer_raises items quotes q i :
  q ∈ quotes ->
  line_item_index q = Some i ->
  i < - Z.of_nat (length items) ->
  exists e, compare_rows items quotes = inl e.
Proof.
  intros Hq Hi Hlt. unfold compare_rows.
  destruct (mapM_inl (compare_row items) quotes q IndexError Hq
              (compare_row_before items q i Hi Hlt)) as [e ->].
  by exists e.
Qed.

Lemma normalizer_raises_witness :
  exists e, compare_rows [item_l_tray; item_40]
              [quote_for 0 2.5 20; quote_for (-3) 2.5 20] = inl e.
Proof.
  apply (normalizer_raises [item_l_tray; item_40]
           [quote_for 0 2.5 20; quote_for (-3) 2.5 20] (quote_for (-3) 2.5 20) (-3)).
  - repeat constructor.
  - reflexivity.
  - simpl. lia.
Defined.


(** ** Further properties of the Matcher *)

Lemma cover_step_bounds s n it :
  cover_step s n it = n \/ cover_step s n it = n + 1.
Proof.
  unfold cover_step.
  destruct (_ && _); [|by left]. destruct (_ && _); [by left|by right].
Qed.

Lemma fold_cover_step_bounds s items n :
  n <= fold_left (cover_step s) items n <= n + Z.of_nat (length items).
Proof.
  revert n. induction items as [|it l IH]; intros n; simpl; [lia|].
  specialize (IH (cover_step s n it)).
  destruct (cover_step_bounds s n it) as [E|E]; rewrite E in *; lia.
Qed.

Lemma any_can_cover_items_exists T s items :
  AnyText.can_cover_items T s items <> 0
  <-> exists it, it ∈ items /\ AnyText.covers T s it.
Proof.
  rewrite any_can_cover_items_count. split.
  - intros Hne.
    destruct (filter (AnyText.covers T s) items) as [|it l] eqn:E; [done|].
    exists it.
    assert (it ∈ filter (AnyText.covers T s) items) as Hin by (rewrite E; left).
    apply list_elem_of_filter in Hin as [? ?]. done.
  - intros (it & Hit & Hc) Hz.
    assert (it ∈ filter (AnyText.covers T s) items) as Hin
      by (by apply list_elem_of_filter).
    destruct (filter (AnyText.covers T s) items);
      [by apply elem_of_nil in Hin|].
    simpl in Hz. lia.
Qed.

Lemma any_welfare_accepts_iff T rfq s :
  AnyText.lower_idempotent T -> AnyText.lower_commutes_with_strip T ->
  AnyText.welfare_rejects T rfq s = false
  <-> forall w, AnyText.requires_welfare T rfq w ->
                AnyText.ci_substring T w (or_empty (s_welfare s)).
Proof.
  intros Hid Hst.
  destruct (AnyText.wanted_welfare_of T rfq) as [w|] eqn:Hw.
  - apply any_wanted_welfare in Hw.
    rewrite (any_welfare_rejects_iff T rfq s w Hid Hst Hw). split.
    + intros H w' [Hw' _]. destruct Hw as [Hw _]. by subst.
    + intros H. by apply H.
  - split; [|intros _; apply any_welfare_rejects_none;
             by apply any_wanted_welfare_None].
    intros _ w Hw'%any_wanted_welfare. congruence.
Qed.

(** X1.  On every text the Matcher lists a supplier exactly when the
    supplier is in the supplier table, one of its delivery-area prefixes
    is a case-insensitive prefix of a delivery-area code of the RFQ, its
    welfare label contains the RFQ's requirement (when there is one),
    and it covers at least one line item, a missing minimum order
    quantity counting as 0. *)
Theorem listed_exactly (T : AnyText.TextOps) rfq items suppliers s :
  AnyText.upper_idempotent T -> AnyText.lower_idempotent T ->
  AnyText.lower_commutes_with_strip T -> AnyText.strip_of_empty T ->
  listed s (AnyText.rank_suppliers_for_rfq T rfq items suppliers)
  <-> s ∈ suppliers
      /\ (exists p c,
            p ∈ AnyText.entries T (delivery_postcodes s)
            /\ c ∈ AnyText.entries T (postcodes rfq)
            /\ AnyText.ci_prefix T p c)
      /\ (forall w, AnyText.requires_welfare T rfq w ->
                    AnyText.ci_substring T w (or_empty (s_welfare s)))
      /\ (exists it, it ∈ items /\ AnyText.covers T s it).
Proof.
  intros Hup Hid Hst Hem.
  by rewrite any_listed_iff, (any_area_filter_iff T rfq s Hup Hem),
    (any_welfare_accepts_iff T rfq s Hid Hst), any_can_cover_items_exists.
Qed.

Lemma listed_exactly_witness :
  listed supplier_boxes
    (AnyText.rank_suppliers_for_rfq ascii_ops rfq_tue_fri
       [item_l_tray; item_l_box] [supplier_a; supplier_boxes])
  /\ ~ listed supplier_boxes
        (AnyText.rank_suppliers_for_rfq ascii_ops rfq_tue_fri
           [item_l_tray] [supplier_a; supplier_boxes]).
Proof.
  split.
  - apply (listed_exactly ascii_ops);
      [exact ascii_upper_idempotent|exact ascii_lower_idempotent
      |exact ascii_lower_commutes_with_strip|exact ascii_strip_of_empty|].
    split; [by right; left|]. split; [|split].
    + exists "bn", "BN1". split; [by vm_compute; left|].
      split; [by vm_compute; left|]. apply any_ci_prefix_iff. by vm_compute.
    + intros w [Hw Hne]. vm_compute in Hw. by subst.
    + exists item_l_box. split; [by right; left|].
      apply (bool_decide_unpack _). by vm_compute.
  - intros Hl.
    apply (listed_exactly ascii_ops) in Hl as (_ & _ & _ & it & Hit & Hc);
      [|exact ascii_upper_idempotent|exact ascii_lower_idempotent
       |exact ascii_lower_commutes_with_strip|exact ascii_strip_of_empty].
    apply list_elem_of_singleton in Hit as ->.
    revert Hc. apply (bool_decide_unpack _). by vm_compute.
Defined.

Lemma omap_rank_one_rows rfq items (suppliers : list Supplier) :
  supplier_row <$> omap (rank_one rfq items) suppliers
  = filter (fun s => is_Some (rank_one rfq items s)) suppliers.
Proof.
  induction suppliers as [|s l IH]; [done|].
  rewrite filter_cons.
  change (omap (rank_one rfq items) (s :: l))
    with (match rank_one rfq items s with
          | Some r => r :: omap (rank_one rfq items) l
          | None => omap (rank_one rfq items) l
          end).
  destruct (rank_one rfq items s) as [r|] eqn:E.
  - apply rank_one_Some in E as (_ & _ & _ & ->).
    rewrite decide_True by eauto. rewrite fmap_cons, IH. done.
  - rewrite decide_False by (by intros [? ?]). done.
Qed.

(** X2.  The Matcher neither invents nor duplicates suppliers: the
    supplier rows of its output are, up to order, the rows of the
    supplier table on which the loop body reaches [ranked.append]; so
    the output is never longer than the table, and has no repeated row
    when the table has none. *)
Theorem ranked_rows_of_table rfq items suppliers :
  let out := rank_suppliers_for_rfq rfq items suppliers in
  supplier_row <$> out
    ≡ₚ filter (fun s => is_Some (rank_one rfq items s)) suppliers
  /\ (length out <= length suppliers)%nat
  /\ (NoDup suppliers -> NoDup (supplier_row <$> out)).
Proof.
  intros out.
  assert (supplier_row <$> out
            ≡ₚ filter (fun s => is_Some (rank_one rfq items s)) suppliers) as HP.
  { unfold out, rank_suppliers_for_rfq. rewrite sort_by_perm, rank_loop_omap.
    simpl. by rewrite omap_rank_one_rows. }
  split; [exact HP|]. split.
  - rewrite <- (length_fmap supplier_row out), HP. apply length_filter.
  - intros Hnd. rewrite HP. by apply NoDup_filter.
Qed.

Lemma ranked_rows_of_table_witness :
  NoDup (supplier_row <$>
           rank_suppliers_for_rfq rfq_bn1 [item_l_tray]
             [supplier_beta; supplier_a; supplier_b; supplier_alpha]).
Proof.
  apply (ranked_rows_of_table rfq_bn1 [item_l_tray]
           [supplier_beta; supplier_a; supplier_b; supplier_alpha]).
  repeat constructor; vm_compute; intros H;
    repeat (apply elem_of_cons in H as [H|H]; [discriminate H|]);
    by apply elem_of_nil in H.
Defined.

(** X3.  Every score in the Matcher's output is at least 10 and at most
    ten times the number of line items, plus twice the number of days
    the RFQ asks for (at least twice 1), plus 2. *)
Theorem score_bounds rfq items suppliers r :
  r ∈ rank_suppliers_for_rfq rfq items suppliers ->
  10 <= score r
  /\ score r <= 10 * Z.of_nat (length items)
                + 2 * Z.max 1 (Z.of_nat (base.size (rfq_days_of rfq))) + 2.
Proof.
  intros Hr. apply elem_of_ranked in Hr as (s & _ & Hone).
  apply rank_one_Some in Hone as (_ & _ & Hc & ->). simpl.
  pose proof (fold_cover_step_bounds s items 0) as Hb.
  fold (can_cover_items s items) in Hb.
  assert (0 <= overlap_of rfq s
          <= Z.max 1 (Z.of_nat (base.size (rfq_days_of rfq)))) as Ho.
  { unfold overlap_of. case_bool_decide; [|lia].
    pose proof (subseteq_size (rfq_days_of rfq ∩ days_of s) (rfq_days_of rfq)
                  (intersection_subseteq_l _ _)). lia. }
  destruct (price_bonus_cases s items) as [[-> _]|[-> _]]; lia.
Qed.

Lemma score_bounds_witness :
  10 <= 24
  /\ 24 <= 10 * Z.of_nat (length [item_l_tray; item_priced])
           + 2 * Z.max 1 (Z.of_nat (base.size (rfq_days_of rfq_bn1))) + 2.
Proof.
  apply (score_bounds rfq_bn1 [item_l_tray; item_priced]
           [supplier_banded; supplier_b; supplier_a]
           {| supplier_row := supplier_banded; score := 24 |}).
  vm_compute. repeat constructor.
Defined.

Lemma ranked_lookup_score rfq items suppliers i r :
  rank_suppliers_for_rfq rfq items suppliers !! i = Some r ->
  score r = can_cover_items (supplier_row r) items * 10
            + overlap_of rfq (supplier_row r) * 2
            + price_bonus (supplier_row r) items.
Proof.
  intros Hi. apply list_elem_of_lookup_2 in Hi.
  apply elem_of_ranked in Hi as (s & _ & Hone).
  by apply rank_one_Some in Hone as (_ & _ & _ & ->).
Qed.

(** X4.  Of two listed suppliers with the same delivery days and the
    same price band, the one that covers more line items comes first in
    the Matcher's output. *)
Theorem more_coverage_ranks_first rfq items suppliers i j ra rb :
  let out := rank_suppliers_for_rfq rfq items suppliers in
  out !! i = Some ra -> out !! j = Some rb ->
  delivery_days (supplier_row ra) = delivery_days (supplier_row rb) ->
  price_band_low (supplier_row ra) = price_band_low (supplier_row rb) ->
  price_band_high (supplier_row ra) = price_band_high (supplier_row rb) ->
  can_cover_items (supplier_row rb) items < can_cover_items (supplier_row ra) items ->
  (i < j)%nat.
Proof.
  intros out Ha Hb Hd Hlo Hhi Hc.
  pose proof (ranked_lookup_score _ _ _ _ _ Ha) as Hsa.
  pose proof (ranked_lookup_score _ _ _ _ _ Hb) as Hsb.
  assert (overlap_of rfq (supplier_row ra) = overlap_of rfq (supplier_row rb))
    as Ho by (unfold overlap_of, days_of; by rewrite Hd).
  assert (price_bonus (supplier_row ra) items = price_bonus (supplier_row rb) items)
    as Hp by (unfold price_bonus; by rewrite Hlo, Hhi).
  assert (score rb < score ra) as Hlt by lia.
  destruct (lt_eq_lt_dec i j) as [[? | ->] | Hji]; [done| |].
  - assert (ra = rb) as -> by (unfold out in *; congruence). lia.
  - pose proof (StronglySorted_lookup_lt _ _ _ _ _ _
                  (ranked_sorted rfq items suppliers) Hji Hb Ha) as Hle.
    apply rank_le_key in Hle as [?|[? _]]; lia.
Qed.

Lemma more_coverage_ranks_first_witness :
  (0 < 1)%nat.
Proof.
  apply (more_coverage_ranks_first rfq_bn1 [item_l_tray; item_xl_tray]
           [supplier_nowhere; supplier_a; supplier_b; supplier_alpha]
           0%nat 1%nat
           {| supplier_row := supplier_a; score := 22 |}
           {| supplier_row := supplier_alpha; score := 12 |});
    reflexivity.
Defined.

(** X5.  The ranking does not depend on the order in which the supplier
    table is read: two tables with the same rows, in which different
    rows have different names, give the same output list. *)
Theorem ranking_ignores_table_order rfq items suppliers suppliers' :
  suppliers ≡ₚ suppliers' ->
  (forall s1 s2, s1 ∈ suppliers -> s2 ∈ suppliers -> name s1 = name s2 -> s1 = s2) ->
  rank_suppliers_for_rfq rfq items suppliers
  = rank_suppliers_for_rfq rfq items suppliers'.
Proof.
  intros HP Hname.
  apply (StronglySorted_unique_strong
           (fun a b => key_le (rank_key a) (rank_key b)));
    [|apply ranked_sorted..|].
  - intros r1 r2 H1 H2 H12 H21.
    apply elem_of_ranked in H1 as (s1 & Hs1 & Hr1).
    apply elem_of_ranked in H2 as (s2 & Hs2 & Hr2).
    rewrite <- HP in Hs2.
    assert (s1 = s2) as ->.
    { apply Hname; [done..|].
      apply rank_le_key in H12 as [?|[? L12]], H21 as [?|[? L21]]; try lia.
      pose proof Hr1 as Hr1'. pose proof Hr2 as Hr2'.
      apply rank_one_Some in Hr1' as (_ & _ & _ & ->).
      apply rank_one_Some in Hr2' as (_ & _ & _ & ->).
      simpl in *. by apply (anti_symm String.le). }
    congruence.
  - unfold rank_suppliers_for_rfq. rewrite !sort_by_perm, !rank_loop_omap.
    simpl. by rewrite HP.
Qed.

Lemma ranking_ignores_table_order_witness :
  rank_suppliers_for_rfq rfq_bn1 [item_l_tray]
    [supplier_beta; supplier_a; supplier_alpha]
  = rank_suppliers_for_rfq rfq_bn1 [item_l_tray]
      [supplier_a; supplier_alpha; supplier_beta].
Proof.
  apply ranking_ignores_table_order.
  - etrans; [apply Permutation_swap|]. apply perm_skip, Permutation_swap.
  - intros s1 s2 H1 H2.
    repeat (apply elem_of_cons in H1 as [->|H1]);
      try (by apply elem_of_nil in H1);
      repeat (apply elem_of_cons in H2 as [->|H2]);
      try (by apply elem_of_nil in H2);
      vm_compute; congruence.
Defined.

Lemma cover_step_same_order s n a b :
  same_order a b -> cover_step s n a = cover_step s n b.
Proof. intros (Hs & Hp & Hq). unfold cover_step. by rewrite Hs, Hp, Hq. Qed.

Lemma can_cover_items_same_order s items items' :
  Forall2 same_order items items' ->
  can_cover_items s items = can_cover_items s items'.
Proof.
  unfold can_cover_items. intros H. generalize 0.
  induction H as [|a b l l' Hab Hl IH]; intros n; simpl; [done|].
  by rewrite (cover_step_same_order s n a b Hab), IH.
Qed.

(** X6.  Target prices never decide whether a supplier is listed:
    changing the target prices (and kinds) of the line items keeps the
    same suppliers in the output and moves each score by at most 2. *)
Theorem target_price_only_moves_score rfq items items' suppliers s :
  Forall2 same_order items items' ->
  (listed s (rank_suppliers_for_rfq rfq items suppliers)
   <-> listed s (rank_suppliers_for_rfq rfq items' suppliers))
  /\ (forall r r',
        r ∈ rank_suppliers_for_rfq rfq items suppliers ->
        r' ∈ rank_suppliers_for_rfq rfq items' suppliers ->
        supplier_row r = supplier_row r' ->
        - 2 <= score r - score r' <= 2).
Proof.
  intros Hsame. split.
  - by rewrite !listed_iff, (can_cover_items_same_order s items items' Hsame).
  - intros r r' Hr Hr' Heq.
    apply elem_of_ranked in Hr as (s1 & _ & H1).
    apply elem_of_ranked in Hr' as (s2 & _ & H2).
    apply rank_one_Some in H1 as (_ & _ & _ & ->).
    apply rank_one_Some in H2 as (_ & _ & _ & ->).
    simpl in *. subst s2.
    rewrite (can_cover_items_same_order s1 items items' Hsame).
    destruct (price_bonus_cases s1 items) as [[-> _]|[-> _]],
      (price_bonus_cases s1 items') as [[-> _]|[-> _]]; lia.
Qed.

Lemma target_price_only_moves_score_witness :
  listed supplier_banded
    (rank_suppliers_for_rfq rfq_bn1 [item_l_tray] [supplier_banded])
  <-> listed supplier_banded
        (rank_suppliers_for_rfq rfq_bn1 [item_l_tray_priced] [supplier_banded]).
Proof.
  apply (target_price_only_moves_score rfq_bn1 [item_l_tray] [item_l_tray_priced]
           [supplier_banded] supplier_banded).
  repeat constructor.
Defined.


(** ** Further properties of the Cost Normalizer *)

Section MapMFacts.
Context {A B : Type} (f : A -> Exc B).

Lemma mapM_Forall2 l bs :
  Forall2 (fun a b => f a = inr b) l bs -> mapM f l = inr bs.
Proof.
  induction 1 as [|a b l bs Hab Hl IH]; simpl; [done|].
  by rewrite Hab, IH.
Qed.

Lemma mapM_total l :
  (forall a, a ∈ l -> exists b, f a = inr b) -> exists bs, mapM f l = inr bs.
Proof.
  induction l as [|a l IH]; intros H; simpl; [by eexists|].
  destruct (H a) as [b ->]; [left|].
  destruct IH as [bs ->]; [intros; apply H; by right|].
  by eexists.
Qed.
End MapMFacts.

(** X7.  The comparison succeeds exactly when the row of every quote
    can be built, and its result then holds exactly one row per quote:
    the rows of the quotes, reordered. *)
Theorem one_row_per_quote items quotes :
  ((exists rows, compare_rows items quotes = inr rows)
   <-> forall q, q ∈ quotes -> exists r, compare_row items q = inr r)
  /\ (forall rows, compare_rows items quotes = inr rows ->
        length rows = length quotes
        /\ exists rows0,
             Forall2 (fun q r => compare_row items q = inr r) quotes rows0
             /\ rows ≡ₚ rows0).
Proof.
  split.
  - split.
    + intros [rows H] q Hq. apply compare_rows_inr in H as (rows0 & HF & _).
      apply list_elem_of_lookup in Hq as [i Hi].
      destruct (Forall2_lookup_l _ _ _ _ _ HF Hi) as (r & _ & Hr). eauto.
    + intros H. destruct (mapM_total (compare_row items) quotes H) as [rows0 E].
      unfold compare_rows. rewrite E. simpl. eauto.
  - intros rows H. apply compare_rows_inr in H as (rows0 & HF & ->).
    split.
    + rewrite sort_by_perm. symmetry. by eapply Forall2_length.
    + exists rows0. split; [done|]. apply sort_by_perm.
Qed.

Lemma one_row_per_quote_witness : length tied_rows = length tied_quotes.
Proof.
  apply (proj2 (one_row_per_quote [item_40] tied_quotes) tied_rows).
  reflexivity.
Defined.

Section SortInOrder.
Context {A K : Type} (key : A -> K) (lt : K -> K -> bool).

Lemma insert_sorted_last x acc :
  Forall (fun y => lt (key x) (key y) = false) acc ->
  insert_sorted key lt x acc = acc ++ [x].
Proof.
  induction 1 as [|y l Hy Hl IH]; simpl; [done|]. by rewrite Hy, IH.
Qed.

Lemma fold_insert_in_order l acc :
  in_order key lt (acc ++ l) ->
  fold_left (fun acc x => insert_sorted key lt x acc) l acc = acc ++ l.
Proof.
  revert acc. induction l as [|x l IH]; intros acc H; simpl.
  - by rewrite app_nil_r.
  - rewrite insert_sorted_last.
    + rewrite IH; rewrite <- app_assoc; done.
    + apply Forall_lookup_2. intros i y Hi.
      apply (H i (length acc) y x).
      * by apply lookup_lt_Some in Hi.
      * by apply lookup_app_l_Some.
      * by rewrite list_lookup_middle.
Qed.

Lemma sort_by_in_order l : in_order key lt l -> sort_by key lt l = l.
Proof. intros H. by apply (fold_insert_in_order l []). Qed.
End SortInOrder.

(** X8.  The sort of the comparison is stable on input that is already
    in order: when no later quote has a landed cost below an earlier
    one's, ties included, the rows come out in the order of the quote
    query. *)
Theorem ordered_quotes_keep_order items quotes rows0 :
  Forall2 (fun q r => compare_row items q = inr r) quotes rows0 ->
  in_order landed_per_unit PrimFloat.ltb rows0 ->
  compare_rows items quotes = inr rows0.
Proof.
  intros HF Hord. unfold compare_rows.
  rewrite (mapM_Forall2 _ _ _ HF). simpl. by rewrite sort_by_in_order.
Qed.

Lemma ordered_quotes_keep_order_witness :
  compare_rows [item_40] tied_quotes = inr tied_rows
  /\ landed_per_unit <$> tied_rows = [2.8; 3; 3]%float
  /\ sname <$> tied_quotes = supplier <$> tied_rows.
Proof.
  split; [|split; reflexivity].
  apply ordered_quotes_keep_order.
  - repeat constructor.
  - intros i j a b Hij Ha Hb.
    destruct i as [|[|[|i]]], j as [|[|[|j]]]; simpl in Ha, Hb;
      try lia; try discriminate;
      injection Ha as <-; injection Hb as <-; reflexivity.
Defined.

(** X9.  A quote whose line-item index is at or beyond the end of the
    line-item list gets a row for a placeholder item: quantity 0, a
    label of two blanks, delivery per unit 0, and a landed cost equal
    to the unit price (rounded to four decimals in the row). *)
Theorem index_beyond_end_row items q i :
  line_item_index q = Some i ->
  Z.of_nat (length items) <= i ->
  exists row,
    compare_row items q = inr row
    /\ row_qty_week row = 0
    /\ line_item_label row = "  "
    /\ delivery_per_unit row = 0%float
    /\ landed_per_unit row = round4 (landed_of q 0)
    /\ (is_number (float_or_zero (unit_price q)) ->
        (landed_of q 0 =? float_or_zero (unit_price q))%float = true).
Proof.
  intros Hi Hle. eexists. split; [by apply (compare_row_beyond items q i)|].
  simpl. repeat split. apply float_add_zero.
Qed.

Lemma index_beyond_end_row_witness :
  exists row,
    compare_row [item_l_tray] (quote_for 1 2.5 20) = inr row
    /\ row_qty_week row = 0
    /\ landed_per_unit row = 2.5%float.
Proof.
  destruct (index_beyond_end_row [item_l_tray] (quote_for 1 2.5 20) 1)
    as (row & Hrow & Hq & _ & _ & Hl & _); [reflexivity|simpl; lia|].
  exists row. split; [exact Hrow|]. split; [exact Hq|]. exact Hl.
Defined.

(** X10.  A quote on a line item of weekly quantity 0 divides nothing:
    its row is built, delivery per unit is 0 and the landed cost equals
    the unit price. *)
Theorem zero_quantity_safe items q it :
  index_or items (default 0 (line_item_index q)) placeholder = inr it ->
  qty_week it = 0 ->
  exists row,
    compare_row items q = inr row
    /\ delivery_per_unit row = 0%float
    /\ landed_per_unit row = round4 (landed_of q 0)
    /\ (is_number (float_or_zero (unit_price q)) ->
        (landed_of q 0 =? float_or_zero (unit_price q))%float = true).
Proof.
  intros Hidx H0.
  destruct (zero_quantity_row items q it Hidx H0) as (_ & Heq & row & ? & ? & ?).
  exists row. done.
Qed.

Lemma zero_quantity_safe_witness :
  exists row,
    compare_row [placeholder; item_40] (quote_for 0 2.5 20) = inr row
    /\ delivery_per_unit row = 0%float
    /\ landed_per_unit row = 2.5%float.
Proof.
  destruct (zero_quantity_safe [placeholder; item_40] (quote_for 0 2.5 20)
              placeholder) as (row & Hrow & Hd & Hl & _); [reflexivity..|].
  exists row. split; [exact Hrow|]. split; [exact Hd|]. exact Hl.
Defined.

(** ** Further properties of the target-price parser *)

Lemma re_search_number_None s :
  re_search_number s = None
  <-> Forall (fun c => is_digit_c c = false) (list_ascii_of_string s).
Proof.
  induction s as [|c s IH]; simpl; [split; [constructor|done]|].
  destruct (is_digit_c c) eqn:E.
  - split; [done|]. intros H. apply Forall_cons in H as [H _]. congruence.
  - rewrite IH. split; [by constructor|]. by intros [_ ?]%Forall_cons.
Qed.

Lemma replace_comma_no_digit s :
  Forall (fun c => is_digit_c c = false)
    (list_ascii_of_string (replace "," EmptyString s))
  <-> Forall (fun c => is_digit_c c = false) (list_ascii_of_string s).
Proof.
  induction s as [|c s IH]; simpl; [done|].
  destruct (Ascii.eqb_spec c ","%char) as [->|Hc].
  - change (EmptyString +:+ ?r) with r. rewrite IH.
    split; [by constructor|]. by intros [_ ?]%Forall_cons.
  - simpl. by rewrite !Forall_cons, IH.
Qed.

(** X11.  For a target text in ASCII, a target price is parsed from a
    line item exactly when the text holds a decimal digit: text without
    any digit gives no target, and any digit gives one. *)
Theorem target_parsed_iff_digit it :
  ascii_text (target_price it) ->
  parse_target it = None
  <-> Forall (fun c => is_digit_c c = false)
        (list_ascii_of_string (target_price it)).
Proof.
  intros _. unfold parse_target. destruct (target_price it) as [|c s] eqn:E.
  - simpl. split; [constructor|done].
  - cbn [truthy]. rewrite <- replace_comma_no_digit, <- re_search_number_None.
    by destruct (re_search_number _).
Qed.

Lemma target_parsed_iff_digit_witness :
  (parse_target item_priced = None
   <-> Forall (fun c => is_digit_c c = false)
         (list_ascii_of_string "about 2.50 GBP"))
  /\ parse_target item_priced = Some 2.5%float.
Proof.
  split; [|reflexivity]. apply (target_parsed_iff_digit item_priced).
  apply (bool_decide_unpack _). by vm_compute.
Defined.


(** ** Properties of the page helpers *)

Section AppendFacts.
Lemma app_nil_r_s s : s +:+ EmptyString = s.
Proof. induction s as [|c s IH]; [done|]. by rewrite app_String, IH. Qed.

Lemma app_assoc_s a b c : (a +:+ b) +:+ c = a +:+ (b +:+ c).
Proof. induction a as [|x a IH]; [done|]. by rewrite !app_String, IH. Qed.

Lemma length_app_s a b :
  String.length (a +:+ b) = (String.length a + String.length b)%nat.
Proof. induction a as [|x a IH]; [done|]. rewrite app_String. simpl. by rewrite IH. Qed.

Lemma rev_app_app a b c :
  String.rev_app (a +:+ b) c = String.rev_app b (String.rev_app a c).
Proof.
  revert c. induction a as [|x a IH]; intros c; [done|].
  rewrite app_String. simpl. by rewrite IH.
Qed.

Lemma chars_app a b : chars (a +:+ b) = chars a ++ chars b.
Proof. induction a as [|x a IH]; [done|]. rewrite app_String. simpl. by f_equal. Qed.
End AppendFacts.

Lemma contains_char_iff c s :
  contains (String c EmptyString) s = true <-> c ∈ chars s.
Proof.
  induction s as [|x s IH].
  - split; [done|]. by intros ?%elem_of_nil.
  - change (contains (String c EmptyString) (String x s))
      with (String.prefix (String c EmptyString) (String x s)
            || contains (String c EmptyString) s).
    rewrite orb_true_iff, IH. simpl.
    destruct (ascii_dec c x) as [->|Hne].
    + split; [left|]. intros _. left. by destruct s.
    + split.
      * intros [?|?]; [done|by right].
      * intros [?|?]%elem_of_cons; [done|by right].
Qed.

Lemma needs_quote_false s :
  contains "," s || contains (String dquote EmptyString) s
     || contains (String newline EmptyString) s = false
  <-> csv_plain s.
Proof.
  unfold csv_plain. rewrite !orb_false_iff, List.Forall_forall.
  split.
  - intros [[H1 H2] H3] c Hc%list_elem_of_In.
    repeat split; intros ->.
    + apply contains_char_iff in Hc. congruence.
    + apply contains_char_iff in Hc. congruence.
    + apply contains_char_iff in Hc. congruence.
  - intros H. repeat split; apply not_true_iff_false;
      intros Hc%contains_char_iff%list_elem_of_In; apply H in Hc; tauto.
Qed.

Lemma replace_length old new s :
  (String.length s <= String.length (replace old (String old new) s))%nat.
Proof.
  induction s as [|c s IH]; simpl; [done|].
  destruct (Ascii.eqb c old); rewrite ?app_String; simpl;
    rewrite ?length_app_s; lia.
Qed.

Lemma csv_undouble_quoted s :
  csv_undouble
    (replace dquote (String dquote (String dquote EmptyString)) s
       +:+ String dquote EmptyString) = s.
Proof.
  induction s as [|c s IH]; [done|]. simpl replace.
  destruct (Ascii.eqb_spec c dquote) as [->|Hc].
  - rewrite !app_String. change (EmptyString +:+ ?x) with x.
    cbn [csv_undouble]. rewrite Ascii.eqb_refl. simpl andb. cbv iota.
    by rewrite IH.
  - rewrite app_String.
    destruct (replace dquote _ s +:+ String dquote EmptyString) as [|b r] eqn:E.
    + apply (f_equal String.length) in E. rewrite length_app_s in E.
      simpl in E. lia.
    + change (csv_undouble (String c (String b r)))
        with (if Ascii.eqb c dquote && Ascii.eqb b dquote
              then String dquote (csv_undouble r)
              else String c (csv_undouble (String b r))).
      apply Ascii.eqb_neq in Hc. rewrite Hc. simpl andb. cbv iota.
      by rewrite IH.
Qed.

(** X12.  [quote_csv] leaves a text unchanged exactly when the text has
    no comma, no double quote and no line feed; every other text is
    wrapped in double quotes. *)
Theorem quote_csv_plain_iff s :
  (quote_csv s = s <-> csv_plain s)
  /\ (~ csv_plain s ->
      exists body, quote_csv s = String dquote body
                   /\ endswith body (String dquote EmptyString) = true).
Proof.
  unfold quote_csv.
  destruct (contains "," s || _ || _) eqn:E.
  - assert (~ csv_plain s) as Hn
      by (rewrite <- needs_quote_false; congruence).
    split.
    + split; [|done]. intros Heq. apply (f_equal String.length) in Heq.
      rewrite !length_app_s in Heq. simpl in Heq.
      pose proof (replace_length dquote (String dquote EmptyString) s). lia.
    + intros _. eexists. split; [apply app_String|].
      change (EmptyString +:+ ?x) with x. unfold endswith.
      generalize (replace dquote (String dquote (String dquote EmptyString)) s).
      intros t. simpl.
      unfold String.rev. rewrite rev_app_app. simpl.
      by destruct (ascii_dec dquote dquote), (String.rev_app t EmptyString).
  - apply needs_quote_false in E. split; [done|]. by intros [].
Qed.

Lemma quote_csv_plain_iff_witness :
  quote_csv "Orchard Eggs" = "Orchard Eggs"
  /\ exists body, quote_csv "L,XL" = String dquote body
                  /\ endswith body (String dquote EmptyString) = true.
Proof.
  split.
  - apply quote_csv_plain_iff. repeat constructor; discriminate.
  - apply quote_csv_plain_iff. unfold csv_plain.
    intros H. vm_compute in H.
    apply Forall_cons in H as [_ H]. apply Forall_cons in H as [[H _] _].
    by apply H.
Defined.

(** X13.  [quote_csv] writes different texts differently: a reader can
    always tell which field was written. *)
Theorem quote_csv_injective s t : quote_csv s = quote_csv t -> s = t.
Proof.
  assert (forall u v,
    contains "," u || contains (String dquote EmptyString) u
      || contains (String newline EmptyString) u = false ->
    u <> String dquote v) as Hplain.
  { intros u v Hu ->. apply needs_quote_false in Hu.
    apply Forall_cons in Hu as [(_ & Hu & _) _]. done. }
  unfold quote_csv.
  destruct (contains "," s || _ || _) eqn:Es,
    (contains "," t || _ || _) eqn:Et; intros H.
  - rewrite !app_String in H. injection H as H.
    change (EmptyString +:+ ?x) with x in H.
    apply (f_equal csv_undouble) in H. by rewrite !csv_undouble_quoted in H.
  - rewrite app_String in H. symmetry in H. by apply Hplain in H.
  - rewrite app_String in H. by apply Hplain in H.
  - done.
Qed.

Lemma quote_csv_injective_witness : "a,b" = "a,b".
Proof. apply quote_csv_injective. reflexivity. Defined.

Lemma hex_digits_safe c :
  url_safe_c (hex_digit (code c / 16)) = true
  /\ url_safe_c (hex_digit (code c mod 16)) = true.
Proof. destruct c as [[] [] [] [] [] [] [] []]; by vm_compute. Qed.

Lemma quote_plus_safe s :
  Forall (fun c => url_safe_c c = true) (chars (quote_plus s)).
Proof.
  induction s as [|c s IH]; simpl; [constructor|].
  destruct (always_safe_c c) eqn:Es; [|destruct (Ascii.eqb c " ")]; simpl.
  - constructor; [|done]. unfold url_safe_c. by rewrite Es.
  - by constructor.
  - destruct (hex_digits_safe c). by repeat constructor.
Qed.

Lemma unquote_plus_char c r :
  unquote_plus
    (if always_safe_c c then String c r
     else if Ascii.eqb c " " then String "+" r
     else String "%" (String (hex_digit (code c / 16))
                        (String (hex_digit (code c mod 16)) r)))
  = String c (unquote_plus r).
Proof. destruct c as [[] [] [] [] [] [] [] []]; reflexivity. Qed.

Lemma unquote_quote_plus s : unquote_plus (quote_plus s) = s.
Proof.
  induction s as [|c s IH]; [done|].
  change (quote_plus (String c s))
    with (if always_safe_c c then String c (quote_plus s)
          else if Ascii.eqb c " " then String "+" (quote_plus s)
          else String "%" (String (hex_digit (code c / 16))
                             (String (hex_digit (code c mod 16)) (quote_plus s)))).
  by rewrite unquote_plus_char, IH.
Qed.

Lemma quote_plus_inj s t : quote_plus s = quote_plus t -> s = t.
Proof.
  intros H. apply (f_equal unquote_plus) in H.
  by rewrite !unquote_quote_plus in H.
Qed.

Lemma quote_plus_no_amp s : "&"%char ∉ chars (quote_plus s).
Proof.
  intros Hin. pose proof (quote_plus_safe s) as H.
  rewrite Forall_forall in H. by apply H in Hin.
Qed.

Lemma app_inv_head_s a x y : a +:+ x = a +:+ y -> x = y.
Proof.
  induction a as [|c a IH]; [done|]. rewrite !app_String. intros [= H]. auto.
Qed.

Lemma app_sep_inj sep a a' r r' :
  sep ∉ chars a -> sep ∉ chars a' ->
  a +:+ String sep r = a' +:+ String sep r' -> a = a' /\ r = r'.
Proof.
  revert a'. induction a as [|c a IH]; intros [|c' a'] Ha Ha'.
  - by intros [= ->].
  - rewrite app_String. intros [= -> _]. destruct Ha'. left.
  - rewrite app_String. intros [= -> _]. destruct Ha. left.
  - rewrite !app_String. intros [= -> H].
    simpl in Ha, Ha'. apply not_elem_of_cons in Ha as [_ Ha].
    apply not_elem_of_cons in Ha' as [_ Ha'].
    destruct (IH a' Ha Ha' H) as [-> ->]. done.
Qed.

Lemma digits_only_digits s :
  Forall (fun c => is_digit_c c = true) (chars (digits_only s)).
Proof.
  induction s as [|c s IH]; simpl; [constructor|].
  destruct (is_digit_c c) eqn:E; [|done]. by constructor.
Qed.

Lemma whatsapp_digits_digits number :
  Forall (fun c => is_digit_c c = true) (chars (whatsapp_digits number)).
Proof.
  unfold whatsapp_digits.
  pose proof (digits_only_digits (or_empty number)) as Hd.
  destruct (startswith _ "0") eqn:Hsw; [|done].
  unfold startswith in Hsw. apply prefix_true in Hsw as [r Hr].
  rewrite Hr in Hd |- *. rewrite app_String in Hd.
  apply Forall_cons in Hd as [_ Hd].
  rewrite chars_app. apply Forall_app. split; [|exact Hd].
  vm_compute. by repeat constructor.
Qed.

(** X14.  For a stored number in ASCII, the phone number that
    [whatsapp_link] puts in the link holds digits only, whatever
    punctuation the stored number has, and never starts with 0: a
    leading 0 is replaced by the country code 44. *)
Theorem whatsapp_digits_clean number :
  ascii_text (or_empty number) ->
  Forall (fun c => is_digit_c c = true) (chars (whatsapp_digits number))
  /\ startswith (whatsapp_digits number) "0" = false
  /\ (forall rest, digits_only (or_empty number) = String "0" rest ->
        whatsapp_digits number = "44" +:+ rest).
Proof.
  intros _. unfold whatsapp_digits.
  pose proof (digits_only_digits (or_empty number)) as Hd.
  destruct (digits_only (or_empty number)) as [|c r] eqn:E.
  - simpl. split; [constructor|]. split; [done|]. intros rest. discriminate.
  - destruct (startswith (String c r) "0") eqn:Hsw.
    + unfold startswith in Hsw. apply prefix_true in Hsw as [r' Hr'].
      rewrite app_String in Hr'. injection Hr' as -> ->.
      apply Forall_cons in Hd as [_ Hd]. split; [|split].
      * rewrite chars_app. apply Forall_app. split; [|done].
        vm_compute. by repeat constructor.
      * done.
      * intros rest [= <-]. done.
    + split; [done|]. split; [done|]. intros rest [= -> ->].
      unfold startswith in Hsw.
      assert (String.prefix "0" (String "0" rest) = true) as Ht
        by (apply prefix_true; by exists rest).
      congruence.
Qed.


Lemma whatsapp_digits_clean_witness :
  whatsapp_digits (Some "07700 900-111") = "44" +:+ "7700900111".
Proof.
  apply (whatsapp_digits_clean (Some "07700 900-111")); [|reflexivity].
  apply (bool_decide_unpack _). by vm_compute.
Defined.

Lemma digit_url_safe c : is_digit_c c = true -> href_safe_c c = true.
Proof. destruct c as [[] [] [] [] [] [] [] []]; done. Qed.

Lemma url_href_safe c : url_safe_c c = true -> href_safe_c c = true.
Proof. unfold href_safe_c. by intros ->. Qed.

(** X15.  For a stored number in ASCII, a WhatsApp link holds only
    letters, digits and the characters [_ . - ~ + % : / ? =], whatever
    the message is: no blank, quote, angle bracket or ampersand of the
    message reaches the [href] attribute in which the link is put. *)
Theorem whatsapp_link_safe number text :
  ascii_text (or_empty number) ->
  Forall (fun c => href_safe_c c = true) (chars (whatsapp_link number text)).
Proof.
  intros _. unfold whatsapp_link. rewrite !chars_app, !Forall_app.
  split; [by repeat constructor|]. split; [|split; [by repeat constructor|]].
  - eapply Forall_impl; [apply whatsapp_digits_digits|]. apply digit_url_safe.
  - eapply Forall_impl; [apply quote_plus_safe|]. apply url_href_safe.
Qed.

Lemma whatsapp_link_safe_witness :
  whatsapp_link (Some "+44 7700 900-111") "6 trays <L>, what's the price?"
  = "https://wa.me/447700900111?text=6+trays+%3CL%3E%2C+what%27s+the+price%3F"
  /\ Forall (fun c => href_safe_c c = true)
       (chars (whatsapp_link (Some "+44 7700 900-111")
                 "6 trays <L>, what's the price?")).
Proof.
  split; [reflexivity|]. apply whatsapp_link_safe.
  apply (bool_decide_unpack _). by vm_compute.
Defined.

(** X16.  The outreach links lose nothing of the message: for one
    address, two e-mail links are equal only if subject and body are
    equal, and for one number two WhatsApp links are equal only if the
    messages are equal. *)
Theorem links_keep_message :
  (forall email subject body subject' body',
     mailto_link email subject body = mailto_link email subject' body' ->
     subject = subject' /\ body = body')
  /\ (forall number text text',
        whatsapp_link number text = whatsapp_link number text' ->
        text = text').
Proof.
  split.
  - intros email subject body subject' body'. unfold mailto_link.
    intros H. do 3 apply app_inv_head_s in H.
    change ("&body=" +:+ ?x) with (String "&"%char ("body=" +:+ x)) in H.
    apply app_sep_inj in H as [Hs Hb]; [|apply quote_plus_no_amp..].
    apply app_inv_head_s in Hb. split; by apply quote_plus_inj.
  - intros number text text'. unfold whatsapp_link.
    intros H. do 3 apply app_inv_head_s in H. by apply quote_plus_inj.
Qed.

Lemma links_keep_message_witness :
  "Eggs?" = "Eggs?" /\ "L tray & box" = "L tray & box".
Proof.
  apply (proj1 links_keep_message "a@b.example" "Eggs?" "L tray & box"
           "Eggs?" "L tray & box").
  reflexivity.
Defined.


(** ** Properties of [mock_extract_meta] and of the RFQ it creates *)

Section SplitFacts.

Lemma split_no_sep sep t : sep ∉ chars t -> split sep t = [t].
Proof.
  induction t as [|c t IH]; intros H; [done|]. simpl in *.
  apply not_elem_of_cons in H as [Hc Ht].
  destruct (Ascii.eqb_spec c sep) as [->|_]; [done|]. by rewrite IH.
Qed.

Lemma split_app_sep sep t r :
  sep ∉ chars t -> split sep (t +:+ String sep r) = t :: split sep r.
Proof.
  induction t as [|c t IH]; intros H.
  - change (EmptyString +:+ ?x) with x. simpl. by rewrite Ascii.eqb_refl.
  - simpl in H. apply not_elem_of_cons in H as [Hc Ht].
    rewrite app_String. simpl.
    destruct (Ascii.eqb_spec c sep) as [->|_]; [done|]. by rewrite IH.
Qed.

Lemma concat_cons2 sep x y l :
  String.concat sep (x :: y :: l) = x +:+ sep +:+ String.concat sep (y :: l).
Proof. reflexivity. Qed.

Lemma split_concat (l : list string) :
  Forall (fun t => ","%char ∉ chars t) l -> l <> [] ->
  split "," (String.concat "," l) = l.
Proof.
  induction l as [|x l IH]; intros H Hne; [done|].
  apply Forall_cons in H as [Hx Hl]. destruct l as [|y l].
  - by apply split_no_sep.
  - rewrite concat_cons2.
    change ("," +:+ ?r) with (String ","%char r).
    rewrite split_app_sep by done. by rewrite IH.
Qed.

Lemma replace_no_old old new t : old ∉ chars t -> replace old new t = t.
Proof.
  induction t as [|c t IH]; intros H; [done|]. simpl in *.
  apply not_elem_of_cons in H as [Hc Ht].
  destruct (Ascii.eqb_spec c old) as [->|_]; [done|]. by rewrite IH.
Qed.



Lemma fmap_fixed (f : string -> string) (l : list string) :
  Forall (fun t => f t = t) l -> f <$> l = l.
Proof. induction 1 as [|x l Hx Hl IH]; [done|]. by rewrite fmap_cons, Hx, IH. Qed.

Lemma filter_all (P : string -> Prop) `{!forall x, Decision (P x)} (l : list string) :
  Forall P l -> filter P l = l.
Proof.
  induction 1 as [|x l Hx Hl IH]; [done|].
  by rewrite filter_cons, decide_True, IH.
Qed.

(** Joining plain tokens with commas and reading the column back
    gives the tokens. *)
Lemma csv_tokens_concat f (l : list string) :
  Forall (plain_token f) l -> csv_tokens f (String.concat "," l) = l.
Proof.
  intros H. destruct l as [|x l]; [done|].
  unfold csv_tokens. rewrite split_concat; [|by eapply Forall_impl; [done|intros ? (_&_&_&?&_)]|done].
  rewrite (fmap_fixed strip), filter_all, (fmap_fixed f); [done|..];
    (eapply Forall_impl; [done|]); by intros ? (?&?&?&?&?).
Qed.

Lemma Forall_fmap_filter {A B} (P : B -> Prop) (Q : A -> Prop)
    `{!forall x, Decision (Q x)} (f : A -> B) (l : list A) :
  Forall P (f <$> l) -> Forall P (f <$> filter Q l).
Proof.
  intros HP. apply Forall_forall. intros y (x & -> & Hx)%list_elem_of_fmap.
  apply list_elem_of_filter in Hx as [_ Hx].
  rewrite Forall_forall in HP. apply HP. by apply list_elem_of_fmap_2.
Qed.
End SplitFacts.

Lemma postcode_step_fresh l acc t :
  upper t ∉ acc ->
  postcode_step l acc t = if contains t l then acc ++ [upper t] else acc.
Proof.
  intros H. unfold postcode_step.
  destruct (bool_decide_reflect (upper t ∈ acc)); [done|].
  by rewrite andb_true_r.
Qed.

Lemma postcode_loop l ts acc :
  NoDup (upper <$> ts) ->
  (forall t, t ∈ ts -> upper t ∉ acc) ->
  fold_left (postcode_step l) ts acc
  = acc ++ (upper <$> filter (fun t => contains t l = true) ts).
Proof.
  revert acc. induction ts as [|t ts IH]; intros acc Hnd Hacc; simpl.
  - by rewrite app_nil_r.
  - rewrite fmap_cons in Hnd. apply NoDup_cons in Hnd as [Ht Hnd].
    rewrite filter_cons, postcode_step_fresh by (apply Hacc; left).
    destruct (contains t l) eqn:E.
    + rewrite decide_True by done. rewrite IH; [|done|].
      * rewrite fmap_cons, <- app_assoc. done.
      * intros t' Ht' [Hin|Hin]%elem_of_app.
        -- eapply Hacc; [by right|done].
        -- apply list_elem_of_singleton in Hin. apply Ht. rewrite <- Hin.
           by apply list_elem_of_fmap_2.
    + rewrite decide_False by congruence. apply IH; [done|].
      intros t' Ht'. apply Hacc. by right.
Qed.

Ltac not_in_chars :=
  let H := fresh in
  vm_compute; intros H;
  repeat (apply elem_of_cons in H as [H|H]; [discriminate H|]);
  by apply elem_of_nil in H.

Ltac plain_token_tac :=
  split; [reflexivity|split; [reflexivity|split; [reflexivity|
    split; not_in_chars]]].

Lemma postcode_tokens_NoDup : NoDup (upper <$> postcode_tokens).
Proof. apply (bool_decide_unpack _). by vm_compute. Qed.

Lemma postcode_tokens_plain :
  Forall (plain_token upper) (upper <$> postcode_tokens).
Proof.
  unfold postcode_tokens. rewrite !fmap_cons, fmap_nil.
  repeat (apply Forall_cons; split; [plain_token_tac|]). constructor.
Qed.

Lemma postcodes_closed_form l :
  fold_left (postcode_step l) postcode_tokens []
  = upper <$> filter (fun t => contains t l = true) postcode_tokens.
Proof.
  rewrite postcode_loop; [done|apply postcode_tokens_NoDup|].
  intros t _. apply not_elem_of_nil.
Qed.

Lemma contains_longer sub ext l :
  contains (sub +:+ ext) l = true -> contains sub l = true.
Proof.
  rewrite !contains_true. intros (a & b & ->).
  exists a, (ext +:+ b). by rewrite app_assoc_s.
Qed.

Lemma postcode_found_iff l t :
  t ∈ postcode_tokens ->
  upper t ∈ upper <$> filter (fun t => contains t l = true) postcode_tokens
  <-> contains t l = true.
Proof.
  intros Ht. split.
  - intros (t' & Hu & Hin)%list_elem_of_fmap.
    apply list_elem_of_filter in Hin as [Hc Hin].
    assert (t' = t) as -> ; [|done].
    unfold postcode_tokens in *.
    repeat (apply elem_of_cons in Ht as [->|Ht]);
      try (by apply elem_of_nil in Ht);
      repeat (apply elem_of_cons in Hin as [->|Hin]);
      try (by apply elem_of_nil in Hin); (done || discriminate Hu).
  - intros Hc. apply list_elem_of_fmap_2. by apply list_elem_of_filter.
Qed.

(** X17.  The postcodes that [mock_extract_meta] reports are the
    upper-cased tokens that occur anywhere in the lower-cased text, in
    the fixed order of the token list and without repetition; since
    every text that holds [bn1] or [bn2] holds [bn], BN1 and BN2 never
    come without BN. *)
Theorem extracted_postcodes text :
  let found := meta_postcodes (mock_extract_meta text) in
  found = upper <$> filter (fun t => contains t (lower text) = true) postcode_tokens
  /\ NoDup found
  /\ ("BN1" ∈ found \/ "BN2" ∈ found -> "BN" ∈ found).
Proof.
  intros found.
  assert (found = upper <$> filter (fun t => contains t (lower text) = true)
                              postcode_tokens) as ->
    by apply postcodes_closed_form.
  split; [done|]. split.
  - eapply sublist_NoDup; [apply postcode_tokens_NoDup|].
    apply fmap_sublist, sublist_filter.
  - intros H.
    apply (postcode_found_iff (lower text) "bn"); [repeat constructor|].
    destruct H as [H|H].
    + apply (postcode_found_iff (lower text) "bn1") in H; [|repeat constructor].
      by apply (contains_longer "bn" "1").
    + apply (postcode_found_iff (lower text) "bn2") in H; [|repeat constructor].
      by apply (contains_longer "bn" "2").
Qed.

Lemma extracted_postcodes_witness :
  "BN" ∈ meta_postcodes (mock_extract_meta "Organic L to BN1 on Tue/Fri").
Proof.
  apply (extracted_postcodes "Organic L to BN1 on Tue/Fri").
  left. vm_compute. repeat constructor.
Defined.

(** X18.  What [/rfq/create] stores is what the Matcher reads back: for
    the row created from a text, the Matcher's area codes are exactly
    the extracted postcodes and its welfare requirement is exactly the
    extracted welfare. *)
Theorem created_rfq_read_back rfq_id client_name text :
  let rfq := created_rfq rfq_id client_name text in
  let meta := mock_extract_meta text in
  rfq_postcodes_of rfq = meta_postcodes meta
  /\ area_codes rfq = meta_postcodes meta
  /\ wanted_welfare_of rfq = meta_welfare meta.
Proof.
  intros rfq meta.
  assert (Forall (plain_token upper) (meta_postcodes meta)) as Hplain.
  { unfold meta, mock_extract_meta. cbn [meta_postcodes].
    rewrite postcodes_closed_form.
    apply Forall_fmap_filter, postcode_tokens_plain. }
  split; [|split].
  - unfold rfq, rfq_postcodes_of, created_rfq. cbn [postcodes or_empty].
    by apply csv_tokens_concat.
  - unfold rfq, area_codes, csv_entries, created_rfq. cbn [postcodes or_empty].
    apply csv_tokens_concat. eapply Forall_impl; [exact Hplain|].
    intros t (?&?&?&?&?). by repeat split.
  - unfold rfq, meta, wanted_welfare_of, created_rfq, mock_extract_meta.
    cbn [welfare meta_welfare].
    destruct (contains "organic" (lower text)); [reflexivity|].
    destruct (contains "free-range" (lower text) || contains "free range" (lower text));
      reflexivity.
Qed.







Lemma re_search_days_cons c s :
  re_search_days (String c s)
  = match match_days_at (String c s) with
    | Some d => Some d
    | None => re_search_days s
    end.
Proof. reflexivity. Qed.

Lemma match_days_at_shape s d :
  match_days_at s = Some d ->
  (1 <= String.length d <= 2)%nat
  /\ Forall (fun c => is_digit_c c = true) (chars d).
Proof.
  unfold match_days_at. destruct s as [|a r]; [done|].
  destruct (is_digit_c a) eqn:Ea; [|done].
  destruct r as [|b r'].
  - destruct (String.prefix _ _); [|done]. intros [= <-].
    split; [simpl; lia|by repeat constructor].
  - destruct (is_digit_c b) eqn:Eb;
      (destruct (String.prefix _ _); [|done]); intros [= <-];
      (split; [simpl; lia|by repeat constructor]).
Qed.

Lemma re_search_days_shape s d :
  re_search_days s = Some d ->
  (1 <= String.length d <= 2)%nat
  /\ Forall (fun c => is_digit_c c = true) (chars d).
Proof.
  induction s as [|c s IH]; [done|]. rewrite re_search_days_cons.
  destruct (match_days_at (String c s)) as [d'|] eqn:E; [|done].
  intros [= <-]. by apply match_days_at_shape in E.
Qed.

(** X20.  For a text in ASCII, the payment terms that
    [mock_extract_meta] reports are one or two decimal digits followed
    by [ days]: of a longer number only the last two digits before the
    word are kept. *)
Theorem extracted_terms text t :
  ascii_text text ->
  meta_payment_terms (mock_extract_meta text) = Some t ->
  exists d,
    t = d +:+ " days"
    /\ (1 <= String.length d <= 2)%nat
    /\ Forall (fun c => is_digit_c c = true) (chars d).
Proof.
  intros _. unfold mock_extract_meta. cbn [meta_payment_terms].
  destruct (re_search_days (lower text)) as [d|] eqn:E; [|done].
  intros [= <-]. exists d. split; [done|]. by apply re_search_days_shape in E.
Qed.

Lemma extracted_terms_witness :
  meta_payment_terms (mock_extract_meta "Payment net 120 days, BN1")
  = Some "20 days"
  /\ exists d, "20 days" = d +:+ " days"
               /\ (1 <= String.length d <= 2)%nat
               /\ Forall (fun c => is_digit_c c = true) (chars d).
Proof.
  split; [reflexivity|].
  apply (extracted_terms "Payment net 120 days, BN1"); [|reflexivity].
  apply (bool_decide_unpack _). by vm_compute.
Defined.

(** ** The target price, from the text to the Matcher *)

Lemma span_digits_cons c r :
  span_digits (String c r)
  = if is_digit_c c then (String c (fst (span_digits r)), snd (span_digits r))
    else (EmptyString, String c r).
Proof. simpl. destruct (is_digit_c c); [|done]. by destruct (span_digits r). Qed.

Lemma span_digits_fst s : all_digits (fst (span_digits s)).
Proof.
  induction s as [|c s IH]; [constructor|]. rewrite span_digits_cons.
  destruct (is_digit_c c) eqn:E; [|constructor]. by constructor.
Qed.

Lemma span_digits_app d r :
  all_digits d -> no_digit_ahead r -> span_digits (d +:+ r) = (d, r).
Proof.
  induction d as [|c d IH]; intros Hd Hr.
  - change (EmptyString +:+ r) with r. destruct r as [|x r]; [done|].
    rewrite span_digits_cons. simpl in Hr. by rewrite Hr.
  - apply Forall_cons in Hd as [Hc Hd].
    rewrite app_String, span_digits_cons, Hc, IH by done. done.
Qed.

Lemma span_digits_all d : all_digits d -> span_digits d = (d, EmptyString).
Proof.
  intros Hd. pose proof (span_digits_app d EmptyString Hd I) as H.
  by rewrite app_nil_r_s in H.
Qed.

Lemma first2_digits s :
  all_digits s ->
  all_digits (first2 s) /\ (String.length (first2 s) <= 2)%nat.
Proof.
  destruct s as [|a [|b r]]; intros H; (split; [|simpl; lia]); try done.
  apply Forall_cons in H as [Ha H]. apply Forall_cons in H as [Hb _].
  by repeat constructor.
Qed.

Lemma first2_short s : (String.length s <= 2)%nat -> first2 s = s.
Proof. destruct s as [|a [|b [|c r]]]; simpl; try done. lia. Qed.

Lemma match_number_eq s :
  match_number s
  = match snd (span_digits s) with
    | String x r =>
        if Ascii.eqb x "."
        then {| int_part := fst (span_digits s);
                frac_part := first2 (fst (span_digits r)) |}
        else {| int_part := fst (span_digits s); frac_part := EmptyString |}
    | EmptyString =>
        {| int_part := fst (span_digits s); frac_part := EmptyString |}
    end.
Proof.
  unfold match_number. destruct (span_digits s) as [i rest]. cbn [fst snd].
  destruct rest as [|x r]; [done|].
  destruct x as [[] [] [] [] [] [] [] []]; reflexivity.
Qed.

Lemma match_number_wf c t :
  is_digit_c c = true -> number_text (match_number (String c t)).
Proof.
  intros Hc. rewrite match_number_eq, span_digits_cons, Hc. cbn [fst snd].
  assert (all_digits (String c (fst (span_digits t)))) as Hi
    by (constructor; [done|apply span_digits_fst]).
  assert (number_text {| int_part := String c (fst (span_digits t));
                         frac_part := EmptyString |}) as H0
    by (repeat split; [done|constructor|simpl; lia]).
  destruct (snd (span_digits t)) as [|x r]; [done|].
  destruct (Ascii.eqb x "."); [|done].
  destruct (first2_digits (fst (span_digits r))) as [? ?];
    [apply span_digits_fst|]. done.
Qed.

Lemma match_number_text m :
  number_text m -> match_number (match_text m) = m.
Proof.
  destruct m as [i f]. unfold number_text, match_text. cbn [int_part frac_part].
  intros (_ & Hi & Hf & Hlen). rewrite match_number_eq.
  destruct f as [|a f]; cbn [truthy].
  - by rewrite app_nil_r_s, span_digits_all.
  - change ("." +:+ ?x) with (String "."%char x).
    rewrite span_digits_app by done. cbn [fst snd].
    change (Ascii.eqb "." ".") with true. cbn match.
    by rewrite span_digits_all, first2_short.
Qed.

Lemma re_search_number_cons c r :
  re_search_number (String c r)
  = if is_digit_c c then Some (match_number (String c r))
    else re_search_number r.
Proof. reflexivity. Qed.

Lemma re_search_number_text m :
  number_text m -> re_search_number ("£" +:+ match_text m) = Some m.
Proof.
  intros Hm. rewrite !app_String. change (EmptyString +:+ ?x) with x.
  rewrite !re_search_number_cons.
  match goal with |- (if ?a then _ else if ?b then _ else _) = _ =>
    change a with false; change b with false end. cbn match.
  rewrite <- (match_number_text m Hm) at 2.
  destruct Hm as (Ht & Hi & _). unfold match_text in *.
  destruct (int_part m) as [|c i]; [done|].
  apply Forall_cons in Hi as [Hc _].
  by rewrite app_String, re_search_number_cons, Hc.
Qed.

Lemma digits_no_comma s : all_digits s -> ","%char ∉ chars s.
Proof.
  intros H Hin. unfold all_digits in H. rewrite Forall_forall in H.
  by apply H in Hin.
Qed.

Lemma number_text_no_comma m :
  number_text m -> ","%char ∉ chars ("£" +:+ match_text m).
Proof.
  intros (_ & Hi & Hf & _). unfold match_text. rewrite !chars_app.
  rewrite !not_elem_of_app. split; [not_in_chars|].
  split; [by apply digits_no_comma|].
  destruct (truthy _); [|apply not_elem_of_nil].
  rewrite chars_app, not_elem_of_app. split; [not_in_chars|].
  by apply digits_no_comma.
Qed.

Lemma re_search_gbp_cons c s :
  re_search_gbp (String c s)
  = match match_gbp_at (String c s) with
    | Some m => Some m
    | None => re_search_gbp s
    end.
Proof. reflexivity. Qed.

Lemma re_search_gbp_wf s m : re_search_gbp s = Some m -> number_text m.
Proof.
  induction s as [|c s IH]; [done|]. rewrite re_search_gbp_cons.
  destruct (match_gbp_at (String c s)) as [m'|] eqn:E; [|done].
  intros [= <-]. unfold match_gbp_at in E.
  destruct (strip_prefix _ _) as [r|]; [|done].
  destruct (lstrip r) as [|d t]; [done|].
  destruct (is_digit_c d) eqn:Hd; [|done].
  injection E as <-. by apply match_number_wf.
Qed.

(** X21.  For a text in ASCII apart from pound signs, the Matcher reads
    the target price of the line item that [cli_chat] builds as the
    first pound amount of the text (a pound sign, blanks, digits and at
    most two decimals); when the text has no such amount the item has
    no target. *)
Theorem extracted_target_read_back text :
  ascii_or_pound text = true ->
  parse_target (cli_item text) = float_of_match <$> re_search_gbp text.
Proof.
  intros _. unfold parse_target, cli_item, mock_extract_meta.
  cbn [target_price meta_target_price].
  destruct (re_search_gbp text) as [m|] eqn:E; [|done].
  apply re_search_gbp_wf in E. cbn [fmap option_fmap option_map or_empty].
  rewrite replace_no_old by by apply number_text_no_comma.
  rewrite re_search_number_text by done.
  by rewrite !app_String.
Qed.

Lemma extracted_target_read_back_witness :
  parse_target (cli_item "120 trays L, BN1, target £ 2.5 per tray, or £3")
  = Some 2.5%float.
Proof.
  rewrite (extracted_target_read_back
             "120 trays L, BN1, target £ 2.5 per tray, or £3");
    reflexivity.
Defined.

(** ** The client share page against the comparison *)

Section RelatedRuns.
Context {A B A' B' : Type} (R : B -> B' -> Prop).
Context (f : A -> Exc B) (g : A' -> Exc B') (h : A -> A').
Hypothesis Hfg : forall a, exc_rel R (f a) (g (h a)).

Lemma mapM_rel l :
  exc_rel (Forall2 R) (mapM f l) (mapM g (h <$> l)).
Proof.
  induction l as [|a l IH]; [by constructor|].
  rewrite fmap_cons. cbn [mapM]. specialize (Hfg a).
  destruct (f a) as [e|b], (g (h a)) as [e'|b']; try done.
  cbn [bind].
  destruct (mapM f l) as [e|bs], (mapM g (h <$> l)) as [e'|bs']; try done.
  by constructor.
Qed.
End RelatedRuns.

Section RelatedSorts.
Context {A B K : Type} (R : A -> B -> Prop).
Context (ka : A -> K) (kb : B -> K) (lt : K -> K -> bool).
Hypothesis Hkey : forall a b, R a b -> ka a = kb b.

Lemma insert_sorted_rel x y l k :
  R x y -> Forall2 R l k ->
  Forall2 R (insert_sorted ka lt x l) (insert_sorted kb lt y k).
Proof.
  intros Hxy. induction 1 as [|a b l k Hab Hlk IH]; cbn [insert_sorted].
  - by repeat constructor.
  - rewrite (Hkey _ _ Hxy), (Hkey _ _ Hab).
    destruct (lt (kb y) (kb b)); by repeat constructor.
Qed.

Lemma sort_by_rel l k :
  Forall2 R l k -> Forall2 R (sort_by ka lt l) (sort_by kb lt k).
Proof.
  unfold sort_by. assert (Forall2 R [] []) as Hacc by constructor.
  revert Hacc. generalize (@nil A) (@nil B). intros acc acc' Hacc H.
  revert acc acc' Hacc.
  induction H as [|a b l k Hab Hlk IH]; intros acc acc' Hacc; [done|].
  cbn [fold_left]. apply IH. by apply insert_sorted_rel.
Qed.
End RelatedSorts.

Lemma share_row_rel items sq :
  exc_rel same_offer (share_row items sq) (compare_row items (share_quote sq)).
Proof.
  unfold share_row, compare_row.
  destruct (index_or items _ placeholder) as [e|it]; [done|]. cbn [bind].
  destruct (del_per_of (share_quote sq) (qty_week it)) as [e|d]; [done|].
  by repeat split.
Qed.

Lemma share_rows_rel items (quotes : list ShareQuote) :
  exc_rel (Forall2 same_offer)
    (share_rows items quotes)
    (compare_rows items (share_quote <$> quotes)).
Proof.
  unfold share_rows, compare_rows.
  pose proof (mapM_rel same_offer (share_row items) (compare_row items)
                share_quote (share_row_rel items) quotes) as H.
  destruct (mapM (share_row items) quotes) as [e|rows],
    (mapM (compare_row items) (share_quote <$> quotes)) as [e'|rows'];
    try done.
  cbn [bind ret exc_rel]. apply sort_by_rel; [|done].
  by intros a b (_ & _ & _ & _ & ?).
Qed.

Section MapMOrder.
Context {A B : Type} (f : A -> Exc B).

Lemma mapM_inr_omap l bs :
  mapM f l = inr bs ->
  bs = omap (fun a => match f a with inr b => Some b | inl _ => None end) l.
Proof.
  revert bs. induction l as [|a l IH]; intros bs; cbn [mapM ret].
  - by intros [= <-].
  - change (omap ?g (a :: l))
      with (match g a with Some b => b :: omap g l | None => omap g l end).
    cbv beta.
    destruct (f a) as [e|b]; [done|]. cbn [bind].
    destruct (mapM f l) as [e|bs0]; [done|]. cbn [bind ret]. intros [= <-].
    by rewrite <- (IH bs0).
Qed.

Lemma mapM_perm l l' bs bs' :
  l ≡ₚ l' -> mapM f l = inr bs -> mapM f l' = inr bs' -> bs ≡ₚ bs'.
Proof.
  intros Hp ->%mapM_inr_omap ->%mapM_inr_omap. by rewrite Hp.
Qed.

Lemma mapM_inl_elem l e :
  mapM f l = inl e -> exists a, a ∈ l /\ f a = inl e.
Proof.
  induction l as [|a l IH]; [done|]. cbn [mapM].
  destruct (f a) as [e'|b] eqn:Ea; cbn [bind].
  - intros [= <-]. exists a. split; [left|done].
  - destruct (mapM f l) as [e'|bs]; cbn [bind ret]; [|done].
    intros [= <-]. destruct IH as (a' & Ha' & Hf); [done|].
    exists a'. split; [by right|done].
Qed.

Lemma mapM_fails_perm l l' :
  l ≡ₚ l' ->
  (exists e, mapM f l = inl e) -> exists e, mapM f l' = inl e.
Proof.
  intros Hp [e (a & Ha & Hf)%mapM_inl_elem].
  rewrite Hp in Ha. by apply (mapM_inl f l' a e).
Qed.
End MapMOrder.

Lemma compare_rows_fails items quotes :
  (exists e, compare_rows items quotes = inl e)
  <-> exists e, mapM (compare_row items) quotes = inl e.
Proof.
  unfold compare_rows.
  destruct (mapM (compare_row items) quotes) as [e|rows]; cbn [bind ret].
  - split; intros _; by exists e.
  - split; by intros [e ?].
Qed.

(** X22.  Whatever the order in which the two quote queries return the
    quotes, the client share branch and the compare branch raise or
    succeed together, and when they succeed they show the same offers
    (supplier, item label, unit price, delivery cost and landed cost)
    up to order.  Given the quotes in one order they show them in the
    same order and raise the same exception. *)
Theorem share_page_agrees items (shared : list ShareQuote)
    (compared : list Quote) :
  share_quote <$> shared ≡ₚ compared ->
  ((exists e, share_rows items shared = inl e)
   <-> exists e, compare_rows items compared = inl e)
  /\ (forall srows rows,
        share_rows items shared = inr srows ->
        compare_rows items compared = inr rows ->
        exists rows', rows' ≡ₚ rows /\ Forall2 same_offer srows rows')
  /\ (share_quote <$> shared = compared ->
      exc_rel (Forall2 same_offer)
        (share_rows items shared) (compare_rows items compared)).
Proof.
  intros Hp. pose proof (share_rows_rel items shared) as Hrel.
  split; [|split].
  - rewrite compare_rows_fails. split.
    + intros [e He]. rewrite He in Hrel.
      destruct (compare_rows items (share_quote <$> shared)) as [e'|?] eqn:E;
        [|done].
      apply (mapM_fails_perm _ _ _ Hp). apply compare_rows_fails. by exists e'.
    + intros H. symmetry in Hp. apply (mapM_fails_perm _ _ _ Hp) in H.
      apply compare_rows_fails in H as [e He]. rewrite He in Hrel.
      destruct (share_rows items shared) as [e'|?]; [by exists e'|done].
  - intros srows rows Hs Hc. rewrite Hs in Hrel.
    destruct (compare_rows items (share_quote <$> shared)) as [?|rows1] eqn:E;
      [done|].
    exists rows1. split; [|done].
    apply compare_rows_inr in E as (ms1 & HF1 & ->).
    apply compare_rows_inr in Hc as (ms0 & HF0 & ->).
    rewrite !sort_by_perm.
    apply (mapM_perm (compare_row items) _ _ _ _ Hp); by apply mapM_Forall2.
  - intros <-. exact Hrel.
Qed.

(** Two quotes at the same landed cost in opposite orders: the two
    pages show the same two offers, each in the order of its query. *)
Lemma share_page_agrees_witness :
  let qa := quote_for 0 2.5 20 in
  let qb := quote_for 0 3 0 in
  let shared := [ {| share_quote := qa; story := None |};
                  {| share_quote := qb; story := Some "b.pdf" |} ] in
  exists sa sb ra rb,
    share_rows [item_40] shared = inr [sa; sb]
    /\ compare_rows [item_40] [qb; qa] = inr [rb; ra]
    /\ same_offer sa ra /\ same_offer sb rb
    /\ exists rows', rows' ≡ₚ [rb; ra] /\ Forall2 same_offer [sa; sb] rows'.
Proof.
  intros qa qb shared.
  destruct (share_rows [item_40] shared) as [e|srows] eqn:Es;
    [by vm_compute in Es|].
  destruct (compare_rows [item_40] [qb; qa]) as [e|rows] eqn:Ec;
    [by vm_compute in Ec|].
  pose proof (share_page_agrees [item_40] shared [qb; qa]
                (Permutation_swap qb qa [])) as (_ & H & _).
  specialize (H srows rows Es Ec).
  vm_compute in Es, Ec. injection Es as <-. injection Ec as <-.
  do 4 eexists. split; [reflexivity|]. split; [reflexivity|].
  split; [by repeat split|]. split; [by repeat split|]. exact H.
Defined.

(** ** Dispatch of [do_GET] *)

(** X23.  No path reaches the supplier CSV export of [do_GET]: the
    branch for paths that start with [/admin/suppliers] is tested first
    and returns, so [/admin/suppliers/export] gets the supplier admin
    page. *)
Theorem export_branch_unreachable path :
  do_GET_branch path <> GetSuppliersExport
  /\ do_GET_branch "/admin/suppliers/export" = GetAdminSuppliers.
Proof.
  split; [|reflexivity]. unfold do_GET_branch.
  destruct (String.eqb path "/"); [done|].
  destruct (String.eqb path "/__health"); [done|].
  destruct (startswith path "/deck/"); [done|].
  destruct (startswith path "/admin/suppliers") eqn:E; [done|].
  destruct (String.eqb_spec path "/admin/suppliers/export") as [->|_].
  - discriminate E.
  - destruct (String.eqb path "/admin/facts"); [done|].
    destruct (_ && _); [done|]. by destruct (startswith path "/c/").
Qed.

(** ** Properties of [parse_line_items_json] *)

Section StripFacts.

Lemma rev_app_spec a c : String.rev_app a c = String.rev a +:+ c.
Proof.
  revert c. induction a as [|x a IH]; intros c; [done|].
  unfold String.rev. cbn [String.rev_app].
  rewrite (IH (String x c)), (IH (String x EmptyString)).
  by rewrite app_assoc_s.
Qed.

Lemma rev_cons x a :
  String.rev (String x a) = String.rev a +:+ String x EmptyString.
Proof. unfold String.rev at 1. cbn [String.rev_app]. apply rev_app_spec. Qed.

Lemma rev_app a b : String.rev (a +:+ b) = String.rev b +:+ String.rev a.
Proof.
  induction a as [|x a IH].
  - change (EmptyString +:+ b) with b. by rewrite app_nil_r_s.
  - by rewrite app_String, !rev_cons, IH, app_assoc_s.
Qed.

Lemma rev_involutive s : String.rev (String.rev s) = s.
Proof.
  induction s as [|x s IH]; [done|]. by rewrite rev_cons, rev_app, IH.
Qed.

Lemma lstrip_no_space s : no_space_ahead (lstrip s).
Proof.
  induction s as [|c s IH]; [done|]. cbn [lstrip].
  by destruct (is_space_c c) eqn:E.
Qed.

Lemma lstrip_fixed s : no_space_ahead s -> lstrip s = s.
Proof. destruct s as [|c s]; [done|]. cbn. by intros ->. Qed.

Lemma lstrip_suffix s : exists p, s = p +:+ lstrip s.
Proof.
  induction s as [|c s [p IH]]; [by exists EmptyString|]. cbn [lstrip].
  destruct (is_space_c c).
  - exists (String c p). by rewrite app_String, <- IH.
  - by exists EmptyString.
Qed.

Lemma strip_fixed s :
  no_space_ahead s -> no_space_ahead (String.rev s) -> strip s = s.
Proof.
  intros H1 H2. unfold strip, rstrip.
  by rewrite (lstrip_fixed s), (lstrip_fixed (String.rev s)), rev_involutive.
Qed.

Lemma strip_stripped s :
  no_space_ahead (strip s) /\ no_space_ahead (String.rev (strip s)).
Proof.
  unfold strip, rstrip. set (t := lstrip s).
  set (u := lstrip (String.rev t)).
  assert (no_space_ahead u) as Hu by apply lstrip_no_space.
  split; [|by rewrite rev_involutive].
  destruct (lstrip_suffix (String.rev t)) as [p Hp]. fold u in Hp.
  apply (f_equal String.rev) in Hp. rewrite rev_involutive, rev_app in Hp.
  pose proof (lstrip_no_space s) as Ht. fold t in Ht. rewrite Hp in Ht.
  by destruct (String.rev u).
Qed.

Lemma strip_idemp s : strip (strip s) = strip s.
Proof. destruct (strip_stripped s). by apply strip_fixed. Qed.

End StripFacts.

Section ParseFacts.
Context (int_of_str : string -> option Z).

Lemma parse_item_normal j it :
  parse_item int_of_str j = Some it -> normal_item it.
Proof.
  unfold parse_item. destruct j as [| | | | | |d]; try done.
  destruct (str_or_empty (dict_get d "kind")) as [k|];
    cbn [mbind option_bind]; [|done].
  destruct (str_or_empty (dict_get d "size")) as [s|];
    cbn [mbind option_bind]; [|done].
  destruct (str_or_empty (dict_get d "pack")) as [p|];
    cbn [mbind option_bind]; [|done].
  destruct (int_or_zero int_of_str (dict_get d "qty_week")) as [q|];
    cbn [mbind option_bind]; [|done].
  destruct (str_or_empty (dict_get d "target_price")) as [t|];
    cbn [mbind option_bind]; [|done].
  intros [= <-]. unfold normal_item. cbn [kind size pack target_price].
  rewrite !lower_idemp, upper_idemp, !lower_strip, !strip_idemp. done.
Qed.

Lemma items_loop_Some arr out res :
  items_loop int_of_str arr out = Some res ->
  exists items,
    res = out ++ items
    /\ Forall2 (fun j it => parse_item int_of_str j = Some it) arr items.
Proof.
  revert out. induction arr as [|j arr IH]; intros out; cbn [items_loop].
  - intros [= <-]. exists []. by rewrite app_nil_r.
  - destruct (parse_item int_of_str j) as [x|] eqn:E; [|done].
    intros (items & -> & HF)%IH. exists (x :: items).
    split; [by rewrite <- app_assoc|by constructor].
Qed.

Lemma items_loop_None arr out j :
  j ∈ arr -> parse_item int_of_str j = None ->
  items_loop int_of_str arr out = None.
Proof.
  intros Hin Hj. revert out.
  induction arr as [|a arr IH]; intros out; [by apply elem_of_nil in Hin|].
  cbn [items_loop]. apply elem_of_cons in Hin as [<-|Hin].
  - by rewrite Hj.
  - destruct (parse_item int_of_str a); [by apply IH|done].
Qed.


Lemma parse_item_json it :
  normal_item it -> parse_item int_of_str (item_json it) = Some it.
Proof.
  destruct it as [k s p q t]. unfold normal_item.
  cbn [kind size pack target_price]. intros (Hk1 & Hk2 & Hs & Hp & Ht).
  unfold item_json, parse_item. cbn [kind size pack qty_week target_price].
  change (dict_get _ "kind") with (JStr k).
  change (dict_get _ "size") with (JStr s).
  change (dict_get _ "pack") with (JStr p).
  change (dict_get _ "qty_week") with (JInt q).
  change (dict_get _ "target_price") with (JStr t).
  assert (forall x, str_or_empty (JStr x) = Some x) as Hstr
    by (by intros [|??]).
  assert (int_or_zero int_of_str (JInt q) = Some q) as Hint.
  { unfold int_or_zero. cbn [json_truthy].
    destruct (Z.eqb_spec q 0) as [->|_]; done. }
  rewrite !Hstr, Hint. cbn. by rewrite Hk1, Hk2, Hs, Hp, Ht.
Qed.

End ParseFacts.

(** X24.  [parse_line_items_json] is all or nothing: a result that is
    not empty holds one item for each element of the loaded array, in
    the order of the array, and one element that cannot be converted
    empties the whole result. *)
Theorem parsed_all_or_nothing int_of_str loaded :
  (parse_loaded int_of_str loaded <> [] ->
   exists arr,
     loaded = Some (JArr arr)
     /\ Forall2 (fun j it => parse_item int_of_str j = Some it)
          arr (parse_loaded int_of_str loaded))
  /\ (forall arr j,
        loaded = Some (JArr arr) -> j ∈ arr ->
        parse_item int_of_str j = None ->
        parse_loaded int_of_str loaded = []).
Proof.
  split.
  - unfold parse_loaded. destruct loaded as [[| | | | |arr|]|]; try done.
    destruct (items_loop int_of_str arr []) as [res|] eqn:E; [|done].
    intros _. exists arr. split; [done|].
    by apply items_loop_Some in E as (items & -> & HF).
  - intros arr j -> Hin Hj. unfold parse_loaded.
    by rewrite (items_loop_None _ _ _ j).
Qed.

Lemma parsed_all_or_nothing_witness :
  let good := item_json item_l_tray in
  (exists arr,
     Some (JArr [good; good]) = Some (JArr arr)
     /\ Forall2 (fun j it => parse_item (fun _ => None) j = Some it)
          arr (parse_loaded (fun _ => None) (Some (JArr [good; good]))))
  /\ parse_loaded (fun _ => None) (Some (JArr [good; JStr "L tray"; good])) = [].
Proof.
  intros good. split.
  - by apply (proj1 (parsed_all_or_nothing (fun _ => None)
                       (Some (JArr [good; good])))).
  - apply (proj2 (parsed_all_or_nothing (fun _ => None)
                    (Some (JArr [good; JStr "L tray"; good])))
             [good; JStr "L tray"; good] (JStr "L tray")); [done| |done].
    right. left.
Defined.

(** X25.  Every item that [parse_line_items_json] returns is in normal
    form: its kind is trimmed and in lower case, its size in upper
    case, its pack in lower case and its target price trimmed. *)
Theorem parsed_items_normal json_loads int_of_str txt it :
  it ∈ parse_line_items_json json_loads int_of_str txt -> normal_item it.
Proof.
  unfold parse_line_items_json, parse_loaded.
  destruct (json_loads txt) as [[| | | | |arr|]|];
    try by intros ?%elem_of_nil.
  destruct (items_loop int_of_str arr []) as [res|] eqn:E;
    [|by intros ?%elem_of_nil].
  apply items_loop_Some in E as (items & -> & HF). cbn [default app].
  intros (i & Hi)%list_elem_of_lookup.
  destruct (Forall2_lookup_r _ _ _ _ _ HF Hi) as (j & _ & Hj).
  by eapply parse_item_normal.
Qed.

Lemma parsed_items_normal_witness : normal_item placeholder.
Proof.
  apply (parsed_items_normal (fun _ => Some (JArr [JObj []])) (fun _ => None)
           "[{}]"). left.
Defined.



Lemma digit_no_space c : is_digit_c c = true -> is_space_c c = false.
Proof. destruct c as [[] [] [] [] [] [] [] []]; done. Qed.

Lemma rev_digits_head s :
  all_digits s -> truthy s = true ->
  exists d r, String.rev s = String d r /\ is_digit_c d = true.
Proof.
  induction s as [|c s IH]; [done|]. intros [Hc Hs]%Forall_cons _.
  rewrite rev_cons. destruct s as [|c' s]; [by exists c, EmptyString|].
  destruct (IH Hs eq_refl) as (d & r & -> & Hd).
  exists d, (r +:+ String c EmptyString). by rewrite app_String.
Qed.

Lemma rev_number_text m :
  number_text m -> no_space_ahead (String.rev ("£" +:+ match_text m)).
Proof.
  intros (Ht & Hi & Hf & _). rewrite rev_app. unfold match_text.
  destruct (truthy (frac_part m)) eqn:E.
  - destruct (rev_digits_head _ Hf E) as (d & r & Hr & Hd).
    rewrite !rev_app, Hr, !app_String. by apply digit_no_space.
  - destruct (rev_digits_head _ Hi Ht) as (d & r & Hr & Hd).
    rewrite app_nil_r_s, Hr, app_String. by apply digit_no_space.
Qed.

Lemma cli_item_normal text : normal_item (cli_item text).
Proof.
  unfold normal_item, cli_item, mock_extract_meta.
  cbn [kind size pack target_price meta_target_price].
  repeat (split; [reflexivity|]).
  destruct (re_search_gbp text) as [m|] eqn:E; [|reflexivity].
  apply re_search_gbp_wf in E. cbn [fmap option_fmap option_map or_empty].
  apply strip_fixed; [by rewrite !app_String|by apply rev_number_text].
Qed.

(** X27.  The line item that [cli_chat] stores with an RFQ is read
    back unchanged by [parse_line_items_json], whatever the text of
    the request: the target price found in the text reaches the
    Matcher as it was extracted. *)
Theorem cli_item_read_back int_of_str text :
  parse_loaded int_of_str (Some (JArr [item_json (cli_item text)]))
  = [cli_item text].
Proof.
  unfold parse_loaded. cbn [items_loop].
  by rewrite (parse_item_json int_of_str _ (cli_item_normal text)).
Qed.
